(** * The consent service of archmage-x: queue, registry, admission, dispatch.

    A shallow embedding of [lib/services/consentService] (classes
    [ConsentServicePartial] and [ConsentService]) together with theorems
    about its request queue, its registry of completion handles
    ([waits]), the admission gate of [requestConsent] and the settlement
    path [processRequest] / [processRequestPost] / [clearRequests].

    Modelling conventions.
    - The state is a [World]: the in-memory fields of the service
      ([consentRequests], [waits], [nextId]), the session store entry
      [StoreKey.CONSENT_REQUESTS], and what the service does to the
      outside (settled promises, notifications, the badge, opened
      windows, the token table).
    - [waits] is a JavaScript [Map]: an association list in insertion
      order with unique keys.
    - A promise created by [requestConsent] is named by a fresh [Handle];
      calling its [resolve] or [reject] callback appends to [settlements].
    - Collaborators whose code is not part of the service (wallet store,
      network registry, chain providers, ...) are oracles, gathered in
      [Collab] and supplied anew at every call. An oracle answers; a
      collaborator call that never returns (the poll for a transaction
      that is never found) has no outcome in the model. The look-ups by
      id in the wallet store and in the network registry answer with the
      record or with [undefined]; that such a look-up itself throws is
      not modelled.
    - In a run ([Op], [step], [run]) every service method is one step,
      and collaborators throw error objects ([JsError]); values that are
      only tested for presence are [option]s ([None] is [undefined]).
    - JavaScript lets a collaborator throw any value. What [processRequest]
      does from the end of its [try] block on is modelled for every
      thrown value ([JsValue], [processRequestPostAny],
      [processRequestAfterTry]); for thrown error objects it is
      [processRequest] (lemma [processRequest_afterTry]). A history
      ([Event], [history]) is a run in which a decision may end with any
      thrown value.
    - [requestConsent] gives way to other calls between the queueing of
      the request and the registration of its promise. Its two halves
      are [requestConsentQueue] and [requestConsentRegister]; with no
      call in between they are [requestConsent] (lemma
      [requestConsent_phases]). *)

From Stdlib Require Import ZArith List String Ascii Bool Lia Permutation.
Import ListNotations.

#[local] Open Scope Z_scope.
#[local] Open Scope string_scope.
#[local] Open Scope list_scope.

(* ===================================================================== *)
(** * Data model *)
(* ===================================================================== *)

Inductive ConsentType :=
| UNLOCK
| REQUEST_PERMISSION
| TRANSACTION
| SIGN_MSG
| SIGN_TYPED_DATA
| WATCH_ASSET
| ADD_NETWORK
| SWITCH_NETWORK.

Definition ConsentType_eq_dec (a b : ConsentType) : {a = b} + {a <> b}.
Proof. decide equality. Defined.

(** [a === b] on the string enum. *)
Definition ConsentType_eqb (a b : ConsentType) : bool :=
  if ConsentType_eq_dec a b then true else false.

Inductive Permission := ACCOUNT.

Inductive NetworkKind := EVM | APTOS | OTHER_KIND (name : string).

Definition isEVM (k : NetworkKind) : bool :=
  match k with EVM => true | _ => false end.

Inductive TokenVisibility := UNSPECIFIED | SHOW | HIDE.

(** [accountId: number | number[]], tested against [null] by the code. *)
Inductive AccountRef :=
| AccNone
| AccOne (a : Z)
| AccMany (l : list Z).

(** [payload: any], as the bag of the properties the service reads.
    [None] is an absent (or falsy) property. *)
Record Payload := mkPayload {
  permissions : list Permission;      (* RequestPermissionPayload *)
  token : string;                     (* WatchAssetPayload *)
  info : string;
  balance : string;
  message : string;                   (* SignMsgPayload *)
  typedData : string;                 (* SignTypedDataPayload *)
  signature : option string;
  networkKind : NetworkKind;          (* AddNetworkPayload *)
  chainId : string;
  txRaw : string                      (* transaction payload, chain specific *)
}.

Record ConsentRequest := mkRequest {
  id : Z;
  networkId : option Z;
  accountId : AccountRef;
  type : ConsentType;
  origin : option string;
  payload : Payload
}.

(** [Omit<ConsentRequest, 'id'>] *)
Record NewRequest := mkNewRequest {
  new_networkId : option Z;
  new_accountId : AccountRef;
  new_type : ConsentType;
  new_origin : option string;
  new_payload : Payload
}.

(** [{ ...request, id }] *)
Definition withId (request : NewRequest) (i : Z) : ConsentRequest :=
  {| id := i;
     networkId := new_networkId request;
     accountId := new_accountId request;
     type := new_type request;
     origin := new_origin request;
     payload := new_payload request |}.

Record Context := mkContext { fromInternal : bool }.

(* --------------------------------------------------------------------- *)
(** ** Errors *)

(** An error object, by what the service observes of it. *)
Record JsError := mkError {
  err_isError : bool;              (* err instanceof Error *)
  err_message : option string;     (* own property 'message' *)
  err_code : option Z;             (* own property 'code' *)
  err_text : string                (* err.toString() *)
}.

(** Rendering of an eth-rpc-errors error. The library prints the
    serialized error (code, message, stack); the model keeps code and
    message. *)
Definition ethErrorText (code msg : string) : string :=
  "{ code: " ++ code ++ ", message: " ++ msg ++ " }".

(** [ethErrors.provider.userRejectedRequest()] *)
Definition userRejectedRequest : JsError :=
  {| err_isError := true;
     err_message := Some "User rejected the request.";
     err_code := Some 4001;
     err_text := ethErrorText "4001" "User rejected the request." |}.

(** [ethErrors.rpc.invalidRequest(msg)] *)
Definition invalidRequest (msg : string) : JsError :=
  {| err_isError := true;
     err_message := Some msg;
     err_code := Some (-32600);
     err_text := ethErrorText "-32600" msg |}.

(** [new Error(msg)] *)
Definition newError (msg : string) : JsError :=
  {| err_isError := true;
     err_message := Some msg;
     err_code := None;
     err_text := "Error: " ++ msg |}.

(** A failed [assert(...)] of Node's assert module. *)
Definition assertionError : JsError :=
  {| err_isError := true;
     err_message := Some "The expression evaluated to a falsy value";
     err_code := None;
     err_text := "AssertionError [ERR_ASSERTION]: The expression evaluated to a falsy value" |}.

(** Reading a property of [undefined] ([network!.kind], [provider!.f()]). *)
Definition typeError : JsError :=
  {| err_isError := true;
     err_message := Some "Cannot read properties of undefined";
     err_code := None;
     err_text := "TypeError: Cannot read properties of undefined" |}.

(** [`consent request with id ${req.id} not found`]; the decimal
    rendering of the id is left out of the message. *)
Definition notFoundError (i : Z) : JsError :=
  newError "consent request with id not found".

(** Fallible computations: a value or a thrown error. *)
Inductive Res (A : Type) :=
| Ok (a : A)
| Throw (e : JsError).
Arguments Ok {A} a.
Arguments Throw {A} e.

Definition bind {A B} (m : Res A) (k : A -> Res B) : Res B :=
  match m with
  | Ok a => k a
  | Throw e => Throw e
  end.

Declare Scope res_scope.
Delimit Scope res_scope with res.
Notation "x <- m ;; k" := (bind m (fun x => k))
  (at level 61, m at next level, right associativity) : res_scope.
Notation "m ;;; k" := (bind m (fun _ => k))
  (at level 61, right associativity) : res_scope.

(** [assert(b)] *)
Definition assert (b : bool) : Res unit :=
  if b then Ok tt else Throw assertionError.

(** [assert(x)] on a possibly undefined value, yielding the value. *)
Definition assertSome {A} (x : option A) : Res A :=
  match x with
  | Some a => Ok a
  | None => Throw assertionError
  end.

(** [x!.f]: dereferencing a possibly undefined value. *)
Definition deref {A} (x : option A) : Res A :=
  match x with
  | Some a => Ok a
  | None => Throw typeError
  end.

(* --------------------------------------------------------------------- *)
(** ** Strings: [String.prototype.includes] *)

Fixpoint includes (needle hay : string) : bool :=
  if String.prefix needle hay then true
  else match hay with
       | EmptyString => false
       | String _ rest => includes needle rest
       end.

(* --------------------------------------------------------------------- *)
(** ** Settlement of promises *)

(** The value a request settles with: [response] of the dispatcher. *)
Inductive Response :=
| RespUndefined
| RespData (d : string)                  (* tx response, signature *)
| RespHash (txHash : option string).     (* { hash: txHash } *)

(** A promise, by its number in the order of creation. *)
Abbreviation Handle := nat.

Inductive Settlement :=
| Resolved (v : Response)
| Rejected (e : JsError).

(* --------------------------------------------------------------------- *)
(** ** Collaborators *)

Record INetwork := mkNetwork { net_id : Z; net_kind : NetworkKind }.
Record IChainAccount := mkAccount { acc_id : Z; acc_masterId : Z }.
Record IWallet := mkWallet { wal_id : Z; wal_type : string }.

Record IToken := mkToken {
  tok_id : Z;
  tok_account : Z;
  tok_token : string;
  tok_visible : TokenVisibility;
  tok_info : string * string
}.

(** What [formatTxPayload] returns, as far as the service reads it. *)
Record TxPayload := mkTxPayload {
  txParams : string;
  populatedParams : string;
  pl_signedTx : option string;
  pl_txHash : option string
}.

(** Oracles for the collaborators of the service.
    [getChainAccountOfUndefined] is [WALLET_SERVICE.getChainAccount(undefined)],
    what the wallet store answers when a request names no account: the
    gate of [requestConsent] passes the absent [accountId] on.
    [pollTransaction] is the [poll] of ethers around
    [provider.getTransaction(txHash)], called with [oncePoll] and neither
    a timeout nor a retry limit: it returns once the transaction is
    found and throws when the lookup throws; while the transaction is
    not found it keeps polling, so a call that returns never returns
    [undefined]. *)
Record Collab := mkCollab {
  (* WALLET_SERVICE and ~lib/wallet *)
  getChainAccount : Z -> option IChainAccount;
  getChainAccountOfUndefined : Res (option IChainAccount);
  getChainAccounts : list Z -> Res (list IChainAccount);
  getWallet : Z -> option IWallet;
  canWalletSign : string -> bool;
  (* NETWORK_SERVICE, active network *)
  getNetwork : Z -> option INetwork;
  addNetwork : NetworkKind -> string -> string -> Res unit;
  setActiveNetwork : Z -> Res unit;
  (* provider of a network *)
  getProvider : INetwork -> Res unit;
  formatTxPayload : option INetwork -> Payload -> Res TxPayload;
  signTransaction : INetwork -> option IChainAccount -> string -> Res string;
  sendTransaction : INetwork -> string -> Res string;
  pollTransaction : INetwork -> option string -> Res string;
  signMessage : INetwork -> option IChainAccount -> string -> Res string;
  signTypedData : INetwork -> option IChainAccount -> string -> Res string;
  (* transaction services, connected sites *)
  evmAddPendingTx : option IChainAccount -> string -> string -> Res unit;
  aptosAddPendingTx : option IChainAccount -> option string -> string -> Res unit;
  connectSiteWithReplace :
    option (list IChainAccount) -> option string -> Res unit
}.

(* ===================================================================== *)
(** * The world the service runs in *)
(* ===================================================================== *)

Record World := mkWorld {
  (* fields of ConsentService *)
  consentRequests : list ConsentRequest;
  waits : list (Z * Handle);
  nextId : Z;
  (* SESSION_STORE entry StoreKey.CONSENT_REQUESTS *)
  sessionStore : option (list ConsentRequest);
  (* browser.action badge: None is the empty text *)
  badge : option nat;
  (* promises created so far, and callbacks invoked, oldest first *)
  promiseCount : nat;
  settlements : list (Handle * Settlement);
  (* EXTENSION.showNotification(title, message) *)
  notifications : list (string * string);
  (* createWindow *)
  windowsOpened : nat;
  (* token table of TOKEN_SERVICE *)
  tokens : list IToken
}.

Definition set_consentRequests (q : list ConsentRequest) (w : World) : World :=
  mkWorld q (waits w) (nextId w) (sessionStore w) (badge w) (promiseCount w)
          (settlements w) (notifications w) (windowsOpened w) (tokens w).

Definition set_waits (m : list (Z * Handle)) (w : World) : World :=
  mkWorld (consentRequests w) m (nextId w) (sessionStore w) (badge w)
          (promiseCount w) (settlements w) (notifications w) (windowsOpened w)
          (tokens w).

Definition set_nextId (n : Z) (w : World) : World :=
  mkWorld (consentRequests w) (waits w) n (sessionStore w) (badge w)
          (promiseCount w) (settlements w) (notifications w) (windowsOpened w)
          (tokens w).

Definition set_sessionStore (s : option (list ConsentRequest)) (w : World) : World :=
  mkWorld (consentRequests w) (waits w) (nextId w) s (badge w)
          (promiseCount w) (settlements w) (notifications w) (windowsOpened w)
          (tokens w).

Definition set_badge (b : option nat) (w : World) : World :=
  mkWorld (consentRequests w) (waits w) (nextId w) (sessionStore w) b
          (promiseCount w) (settlements w) (notifications w) (windowsOpened w)
          (tokens w).

Definition set_promiseCount (n : nat) (w : World) : World :=
  mkWorld (consentRequests w) (waits w) (nextId w) (sessionStore w) (badge w)
          n (settlements w) (notifications w) (windowsOpened w) (tokens w).

Definition set_settlements (l : list (Handle * Settlement)) (w : World) : World :=
  mkWorld (consentRequests w) (waits w) (nextId w) (sessionStore w) (badge w)
          (promiseCount w) l (notifications w) (windowsOpened w) (tokens w).

Definition set_notifications (l : list (string * string)) (w : World) : World :=
  mkWorld (consentRequests w) (waits w) (nextId w) (sessionStore w) (badge w)
          (promiseCount w) (settlements w) l (windowsOpened w) (tokens w).

Definition set_windowsOpened (n : nat) (w : World) : World :=
  mkWorld (consentRequests w) (waits w) (nextId w) (sessionStore w) (badge w)
          (promiseCount w) (settlements w) (notifications w) n (tokens w).

Definition set_tokens (t : list IToken) (w : World) : World :=
  mkWorld (consentRequests w) (waits w) (nextId w) (sessionStore w) (badge w)
          (promiseCount w) (settlements w) (notifications w) (windowsOpened w) t.

(** A browser session in which the service never ran. *)
Definition blank : World :=
  mkWorld [] [] 0 None None 0 [] [] 0 [].

(* ===================================================================== *)
(** * The service *)
(* ===================================================================== *)

(* --------------------------------------------------------------------- *)
(** ** [Map<number, [Function, Function]>] *)

Definition map_get (k : Z) (m : list (Z * Handle)) : option Handle :=
  match find (fun e => fst e =? k)%Z m with
  | Some e => Some (snd e)
  | None => None
  end.

Definition map_delete (k : Z) (m : list (Z * Handle)) : list (Z * Handle) :=
  filter (fun e => negb (fst e =? k)%Z) m.

(** [set] keeps the position of a key that is present. *)
Fixpoint map_set (k : Z) (h : Handle) (m : list (Z * Handle)) : list (Z * Handle) :=
  match m with
  | [] => [(k, h)]
  | e :: m' => if (fst e =? k)%Z then (k, h) :: m' else e :: map_set k h m'
  end.

(** [Set<number>.has] *)
Definition set_has (s : list Z) (k : Z) : bool :=
  existsb (fun x => x =? k)%Z s.

(* --------------------------------------------------------------------- *)
(** ** [setBadge] *)

Definition setBadge (w : World) : World :=
  match consentRequests w with
  | [] => set_badge None w
  | _ :: _ => set_badge (Some (List.length (consentRequests w))) w
  end.

(** [SESSION_STORE.set(StoreKey.CONSENT_REQUESTS, this.consentRequests)] *)
Definition persist (w : World) : World :=
  set_sessionStore (Some (consentRequests w)) w.

(* --------------------------------------------------------------------- *)
(** ** The constructor *)

(** [ids.reduce((maxId, id) => Math.max(maxId, id))] on a non-empty array *)
Definition lastId (first : ConsentRequest) (rest : list ConsentRequest) : Z :=
  fold_left (fun maxId i => Z.max maxId i) (map id rest) (id first).

(** A start of the service worker: the fields take their initial values
    and the constructor reads the session store. Everything outside the
    service object is kept. *)
Definition boot (w : World) : World :=
  let w0 := set_nextId 0 (set_waits [] (set_consentRequests [] w)) in
  match sessionStore w with
  | None => set_sessionStore (Some []) w0
  | Some [] => w0
  | Some (r :: rest) =>
      setBadge (set_nextId (lastId r rest + 1)
                  (set_consentRequests (r :: rest) w0))
  end.

(* --------------------------------------------------------------------- *)
(** ** [addRequest] *)

(** The loop [for (i = len - 1; i >= 0; --i)]: [i] is the number of
    entries not yet visited; the result is [index]. *)
Fixpoint scanFromEnd (q : list ConsentRequest) (t : ConsentType) (i : nat) : nat :=
  match i with
  | O => O
  | S i' =>
      match nth_error q i' with
      | Some r => if ConsentType_eqb (type r) t then S i' else scanFromEnd q t i'
      | None => scanFromEnd q t i'
      end
  end.

(** [arr.splice(index, 0, x)] *)
Definition splice_insert {A} (index : nat) (x : A) (arr : list A) : list A :=
  firstn index arr ++ x :: skipn index arr.

(** [arr.splice(index, 1)] *)
Definition splice_remove {A} (index : nat) (arr : list A) : list A :=
  firstn index arr ++ skipn (S index) arr.

Definition enqueue (request : ConsentRequest) (q : list ConsentRequest)
  : list ConsentRequest :=
  let index := scanFromEnd q (type request) (List.length q) in
  match index with
  | O => q ++ [request]
  | S _ => splice_insert index request q
  end.

Definition addRequest (request : ConsentRequest) (w : World) : World :=
  persist (set_consentRequests (enqueue request (consentRequests w)) w).

(* --------------------------------------------------------------------- *)
(** ** [clearRequests] *)

Definition removedOf (ty : option ConsentType) (q : list ConsentRequest)
  : list ConsentRequest :=
  match ty with
  | None => q
  | Some t => filter (fun req => ConsentType_eqb (type req) t) q
  end.

Definition clearRequests (ty : option ConsentType) (w : World) : World :=
  let removed := removedOf ty (consentRequests w) in
  let removedSet := map id removed in
  let q := filter (fun req => negb (set_has removedSet (id req)))
                  (consentRequests w) in
  let hit := filter (fun e => set_has removedSet (fst e)) (waits w) in
  let rejected := map (fun e => (snd e, Rejected userRejectedRequest)) hit in
  let m := filter (fun e => negb (set_has removedSet (fst e))) (waits w) in
  setBadge
    (persist
       (set_waits m
          (set_settlements (settlements w ++ rejected)
             (set_consentRequests q w)))).

(* --------------------------------------------------------------------- *)
(** ** The admission gate and [requestConsent] *)

Definition needsSigner (t : ConsentType) : bool :=
  match t with
  | TRANSACTION | SIGN_MSG | SIGN_TYPED_DATA => true
  | _ => false
  end.

(** The [switch] at the head of [requestConsent]. *)
Definition admissionGate (env : Collab) (request : NewRequest) : Res unit :=
  if needsSigner (new_type request) then
    (match new_accountId request with
     | AccMany _ => Throw assertionError
     | accountId =>
         found <- match accountId with
                  | AccOne a => Ok (getChainAccount env a)
                  | _ => getChainAccountOfUndefined env
                  end ;;
         account <- assertSome found ;;
         wallet <- assertSome (getWallet env (acc_masterId account)) ;;
         if canWalletSign env (wal_type wallet) then Ok tt
         else Throw userRejectedRequest
     end)%res
  else Ok tt.

(** What a call of [requestConsent] gives its caller once the request is
    queued: a promise to wait on, or [undefined] at once. *)
Inductive Admission :=
| Awaiting (req : ConsentRequest) (h : Handle)
| Returned (req : ConsentRequest).

Definition queuedRequest (a : Admission) : ConsentRequest :=
  match a with
  | Awaiting req _ => req
  | Returned req => req
  end.

(** [createWindow(ctx, '/')] for a caller that is not internal. The
    listener installed for an UNLOCK request calls
    [processRequest(req, false)] when the window is closed while the
    wallet is locked; in a run that call is a step of its own. *)
Definition openPopup (ctx : option Context) (w : World) : World :=
  match ctx with
  | Some c => if fromInternal c then w
              else set_windowsOpened (S (windowsOpened w)) w
  | None => w
  end.

Definition requestConsent (env : Collab) (request : NewRequest)
    (ctx : option Context) (waitCompleted : bool) (w : World)
  : World * Res Admission :=
  match admissionGate env request with
  | Throw e => (w, Throw e)
  | Ok _ =>
      let req := withId request (nextId w) in
      let w1 := addRequest req (set_nextId (nextId w + 1) w) in
      if waitCompleted then
        let h := promiseCount w1 in
        let w2 := set_waits (map_set (id req) h (waits w1))
                    (set_promiseCount (S h) w1) in
        (openPopup ctx (setBadge w2), Ok (Awaiting req h))
      else
        (openPopup ctx (setBadge w1), Ok (Returned req))
  end.

(** [requestConsent] gives way to other calls while the session store is
    written ([await this.addRequest(req)]): the request is queued before,
    the promise is registered after. The two halves of the call: up to
    the write of the store, and from there on. *)
Definition requestConsentQueue (env : Collab) (request : NewRequest) (w : World)
  : World * Res ConsentRequest :=
  match admissionGate env request with
  | Throw e => (w, Throw e)
  | Ok _ =>
      let req := withId request (nextId w) in
      (addRequest req (set_nextId (nextId w + 1) w), Ok req)
  end.

Definition requestConsentRegister (req : ConsentRequest) (ctx : option Context)
    (waitCompleted : bool) (w1 : World) : World * Admission :=
  if waitCompleted then
    let h := promiseCount w1 in
    let w2 := set_waits (map_set (id req) h (waits w1))
                (set_promiseCount (S h) w1) in
    (openPopup ctx (setBadge w2), Awaiting req h)
  else
    (openPopup ctx (setBadge w1), Returned req).

(* --------------------------------------------------------------------- *)
(** ** The token table *)

Definition tokenMatches (account : IChainAccount) (tk : string) (t : IToken) : bool :=
  (tok_account t =? acc_id account)%Z && String.eqb (tok_token t) tk.

(** Modelled from the spec: [TOKEN_SERVICE.getToken] (module
    [~lib/services/token], not among the sources) looks up the existing
    token entry for the account. *)
Definition getToken (account : IChainAccount) (tk : string) (tbl : list IToken)
  : option IToken :=
  find (tokenMatches account tk) tbl.

(** Modelled from the spec: [TOKEN_SERVICE.setTokenVisibility] (not among
    the sources) flips the visibility of the entry with the given id. *)
Definition setTokenVisibility (tid : Z) (v : TokenVisibility) (tbl : list IToken)
  : list IToken :=
  map (fun t => if (tok_id t =? tid)%Z
                then mkToken (tok_id t) (tok_account t) (tok_token t) v (tok_info t)
                else t) tbl.

Definition freshTokenId (tbl : list IToken) : Z :=
  fold_left (fun m t => Z.max m (tok_id t)) tbl 0 + 1.

(** Modelled from the spec: [TOKEN_SERVICE.addToken] (not among the
    sources) creates the entry for the account; a created entry is a
    watched, visible token. *)
Definition addToken (account : IChainAccount) (tk : string)
    (inf : string * string) (tbl : list IToken) : list IToken :=
  tbl ++ [mkToken (freshTokenId tbl) (acc_id account) tk SHOW inf].

(* --------------------------------------------------------------------- *)
(** ** Dispatch *)

(** The head shared by [processRequestSignTx] and
    [processRequestIntermediate]: network, provider and accounts. *)
Definition lookupAccounts (env : Collab) (ids : list Z)
  : Res (option (list IChainAccount)) :=
  (accounts <- getChainAccounts env ids ;;
   assert (negb (Nat.eqb (List.length accounts) 0)) ;;;
   Ok (Some accounts))%res.

Definition lookupTarget (env : Collab) (req : ConsentRequest)
  : Res (option INetwork * option (list IChainAccount)) :=
  (network <- match networkId req with
              | Some n => net <- assertSome (getNetwork env n) ;;
                          getProvider env net ;;;
                          Ok (Some net)
              | None => Ok None
              end ;;
   accounts <- match accountId req with
               | AccNone => Ok None
               | AccOne a => lookupAccounts env [a]
               | AccMany l => lookupAccounts env l
               end ;;
   Ok (network, accounts))%res.

(** [accounts[0]] *)
Definition firstAccount (accounts : option (list IChainAccount))
  : option IChainAccount :=
  match accounts with
  | Some (a :: _) => Some a
  | _ => None
  end.

Definition processRequestSignTx (env : Collab) (req : ConsentRequest)
  : Res (option string * option string) :=
  (target <- lookupTarget env req ;;
   let network := fst target in
   let account := firstAccount (snd target) in
   pl <- formatTxPayload env network (payload req) ;;
   match pl_signedTx pl, pl_txHash pl with
   | None, None =>
       net <- deref network ;;
       signed <- signTransaction env net account (txParams pl) ;;
       Ok (Some signed, None)
   | signedTx, txHash =>
       net <- deref network ;;
       assert (isEVM (net_kind net)) ;;;
       Ok (signedTx, txHash)
   end)%res.

Fixpoint requestPermission (env : Collab) (accounts : option (list IChainAccount))
    (org : option string) (perms : list Permission) : Res unit :=
  match perms with
  | [] => Ok tt
  | ACCOUNT :: rest =>
      (connectSiteWithReplace env accounts org ;;;
       requestPermission env accounts org rest)%res
  end.

(** [case ConsentType.TRANSACTION] of the dispatcher. *)
Definition dispatchTransaction (env : Collab) (req : ConsentRequest)
    (network : option INetwork) (account : option IChainAccount)
    (signedTx txHash : option string) : Res Response :=
  (pl <- formatTxPayload env network (payload req) ;;
   txResponse <- match signedTx with
                 | Some signed =>
                     net <- deref network ;;
                     r <- sendTransaction env net signed ;;
                     Ok (Some r)
                 | None =>
                     net <- deref network ;;
                     assert (isEVM (net_kind net)) ;;;
                     Ok (match pollTransaction env net txHash with
                         | Ok r => Some r
                         | Throw _ => None       (* here do not throw *)
                         end)
                 end ;;
   net <- deref network ;;
   match net_kind net with
   | EVM => match txResponse with
            | Some r => evmAddPendingTx env account (txParams pl) r
            | None => Ok tt
            end
   | APTOS => aptosAddPendingTx env account txResponse (populatedParams pl)
   | OTHER_KIND _ => Ok tt
   end ;;;
   match txResponse with
   | Some r => Ok (RespData r)
   | None => assert (isEVM (net_kind net)) ;;; Ok (RespHash txHash)
   end)%res.

(** [case ConsentType.WATCH_ASSET] of the dispatcher. *)
Definition dispatchWatchAsset (req : ConsentRequest)
    (account : option IChainAccount) (w : World) : World * Res Response :=
  match account with
  | None => (w, Throw typeError)
  | Some acc =>
      match getToken acc (token (payload req)) (tokens w) with
      | Some existing =>
          match tok_visible existing with
          | SHOW => (w, Throw (invalidRequest "Token already exists"))
          | _ => (set_tokens
                    (setTokenVisibility (tok_id existing) SHOW (tokens w)) w,
                  Ok RespUndefined)
          end
      | None =>
          (set_tokens
             (addToken acc (token (payload req))
                (info (payload req), balance (payload req)) (tokens w)) w,
           Ok RespUndefined)
      end
  end.

Definition processRequestIntermediate (env : Collab) (req : ConsentRequest)
    (signedTx txHash : option string) (w : World) : World * Res Response :=
  match type req with
  | UNLOCK => (w, Ok RespUndefined)
  | ty =>
      match lookupTarget env req with
      | Throw e => (w, Throw e)
      | Ok target =>
          let network := fst target in
          let accounts := snd target in
          let account := firstAccount accounts in
          match ty with
          | UNLOCK => (w, Ok RespUndefined)
          | REQUEST_PERMISSION =>
              (w, (requestPermission env accounts (origin req)
                     (permissions (payload req)) ;;;
                   Ok RespUndefined)%res)
          | TRANSACTION =>
              (w, dispatchTransaction env req network account signedTx txHash)
          | SIGN_MSG =>
              (w, match signature (payload req) with
                  | None => (net <- deref network ;;
                             s <- signMessage env net account
                                    (message (payload req)) ;;
                             Ok (RespData s))%res
                  | Some s => Ok (RespData s)
                  end)
          | SIGN_TYPED_DATA =>
              (w, match signature (payload req) with
                  | None => (net <- deref network ;;
                             s <- signTypedData env net account
                                    (typedData (payload req)) ;;
                             Ok (RespData s))%res
                  | Some s => Ok (RespData s)
                  end)
          | WATCH_ASSET => dispatchWatchAsset req account w
          | ADD_NETWORK =>
              (w, (addNetwork env (networkKind (payload req))
                     (chainId (payload req)) (info (payload req)) ;;;
                   Ok RespUndefined)%res)
          | SWITCH_NETWORK =>
              (w, (net <- deref network ;;
                   setActiveNetwork env (net_id net) ;;;
                   Ok RespUndefined)%res)
          end
      end
  end.

(* --------------------------------------------------------------------- *)
(** ** Settlement *)

Fixpoint findIndex {A} (f : A -> bool) (l : list A) : option nat :=
  match l with
  | [] => None
  | x :: l' => if f x then Some O
               else match findIndex f l' with
                    | Some i => Some (S i)
                    | None => None
                    end
  end.

(** The copy of an [Error] into a plain object, own property by own
    property, in the [catch] of [processRequest]. *)
Definition serializeError (err : JsError) : JsError :=
  if err_isError err
  then mkError false (err_message err) (err_code err) "[object Object]"
  else err.

(** The way back in [processRequestPost]: an [Error] again when the
    object has a message. *)
Definition reviveError (rejectData : JsError) : JsError :=
  match err_message rejectData with
  | Some m => mkError true (Some m) (err_code rejectData) ("Error: " ++ m)
  | None => rejectData
  end.

(** [reject?.(e)] and [resolve?.(v)] on the entry of [waits], if any. *)
Definition settle (wait : option Handle) (s : Settlement) (w : World) : World :=
  match wait with
  | Some h => set_settlements (settlements w ++ [(h, s)]) w
  | None => w
  end.

Definition processRequestPost (req : ConsentRequest) (resolveData : Response)
    (rejectData : option JsError) (w : World) : World * Res unit :=
  match findIndex (fun r => (id req =? id r)%Z) (consentRequests w) with
  | None => (w, Throw (notFoundError (id req)))
  | Some index =>
      let wait := map_get (id req) (waits w) in
      let w1 := set_waits (map_delete (id req) (waits w)) w in
      let w2 := match rejectData with
                | Some e => settle wait (Rejected (reviveError e)) w1
                | None => settle wait (Resolved resolveData) w1
                end in
      let w3 := set_consentRequests
                  (splice_remove index (consentRequests w2)) w2 in
      (setBadge (persist w3), Ok tt)
  end.

(** [err.toString().includes('User rejected the request')] *)
Definition isUserRejection (err : JsError) : bool :=
  includes "User rejected the request" (err_text err).

(** The test in the [catch] of [processRequest]. *)
Definition shouldNotify (req : ConsentRequest) (err : JsError) : bool :=
  ConsentType_eqb (type req) TRANSACTION && negb (isUserRejection err).

Definition showNotification (title msg : string) (w : World) : World :=
  set_notifications (notifications w ++ [(title, msg)]) w.

(** The [try] block of [processRequest]. *)
Definition attempt (env : Collab) (req : ConsentRequest) (approve : bool)
    (w : World) : World * Res Response :=
  if approve then
    match (if ConsentType_eqb (type req) TRANSACTION
           then processRequestSignTx env req
           else Ok (None, None)) with
    | Throw e => (w, Throw e)
    | Ok signed =>
        processRequestIntermediate env req (fst signed) (snd signed) w
    end
  else (w, Throw userRejectedRequest).

Definition processRequest (env : Collab) (req : ConsentRequest) (approve : bool)
    (w : World) : World * Res unit :=
  match attempt env req approve w with
  | (w1, Ok response) => processRequestPost req response None w1
  | (w1, Throw err) =>
      let w2 :=
        if shouldNotify req err
        then showNotification "Failed transaction"
               ("Transaction encountered an error. (" ++ err_text err ++ ")") w1
        else w1 in
      processRequestPost req RespUndefined (Some (serializeError err)) w2
  end.

(* --------------------------------------------------------------------- *)
(** ** Thrown values that are not error objects *)

(** JavaScript lets a collaborator throw, or reject with, any value. The
    kinds of values that the [catch] of [processRequest] and
    [processRequestPost] tell apart; numbers, bigints and symbols go the
    way of strings and booleans, by their truthiness. *)
Inductive JsValue :=
| VObject (e : JsError)
| VString (s : string)
| VBoolean (b : bool)
| VNull
| VUndefined.

(** [err.toString()]; [None] when the call itself throws a [TypeError]. *)
Definition thrownText (err : JsValue) : option string :=
  match err with
  | VObject e => Some (err_text e)
  | VString s => Some s
  | VBoolean true => Some "true"
  | VBoolean false => Some "false"
  | VNull => None
  | VUndefined => None
  end.

(** [if (rejectData)] *)
Definition truthy (v : JsValue) : bool :=
  match v with
  | VObject _ => true
  | VString s => negb (String.eqb s "")
  | VBoolean b => b
  | VNull => false
  | VUndefined => false
  end.

(** [if (err instanceof Error) err = {own properties of err}] *)
Definition serializeThrown (err : JsValue) : JsValue :=
  match err with
  | VObject e => VObject (serializeError e)
  | _ => err
  end.

(** ['message' in rejectData] on a value that is not an object. *)
Definition inOperatorError : JsError :=
  {| err_isError := true;
     err_message := Some "Cannot use 'in' operator to search for 'message'";
     err_code := None;
     err_text := "TypeError: Cannot use 'in' operator to search for 'message'" |}.

(** How the [try] block of [processRequest] ended. *)
Inductive Tried :=
| Done (response : Response)
| Raised (err : JsValue).

Definition triedOf (r : Res Response) : Tried :=
  match r with
  | Ok response => Done response
  | Throw e => Raised (VObject e)
  end.

(** [processRequestPost] with [rejectData: any]; [VUndefined] is the
    [reject] that was never assigned. *)
Definition processRequestPostAny (req : ConsentRequest) (resolveData : Response)
    (rejectData : JsValue) (w : World) : World * Res unit :=
  match findIndex (fun r => (id req =? id r)%Z) (consentRequests w) with
  | None => (w, Throw (notFoundError (id req)))
  | Some index =>
      let wait := map_get (id req) (waits w) in
      let w1 := set_waits (map_delete (id req) (waits w)) w in
      let remove := fun w2 : World =>
        let w3 := set_consentRequests
                    (splice_remove index (consentRequests w2)) w2 in
        (setBadge (persist w3), @Ok unit tt) in
      if truthy rejectData then
        match rejectData with
        | VObject e => remove (settle wait (Rejected (reviveError e)) w1)
        | _ => (w1, Throw inOperatorError)
        end
      else remove (settle wait (Resolved resolveData) w1)
  end.

(** The world after the test in the [catch] of [processRequest], when
    [err.toString()] gave [text]. *)
Definition noteFailure (text : string) (w : World) : World :=
  if negb (includes "User rejected the request" text)
  then showNotification "Failed transaction"
         ("Transaction encountered an error. (" ++ text ++ ")") w
  else w.

(** [processRequest] from the end of its [try] block on: the [catch] and
    [processRequestPost]. [w1] is the world that the [try] block left. *)
Definition processRequestAfterTry (req : ConsentRequest) (tried : Tried)
    (w1 : World) : World * Res unit :=
  match tried with
  | Done response => processRequestPostAny req response VUndefined w1
  | Raised err =>
      if ConsentType_eqb (type req) TRANSACTION then
        match thrownText err with
        | None => (w1, Throw typeError)
        | Some text =>
            processRequestPostAny req RespUndefined (serializeThrown err)
              (noteFailure text w1)
        end
      else processRequestPostAny req RespUndefined (serializeThrown err) w1
  end.

(* --------------------------------------------------------------------- *)
(** ** Runs of the service *)

Inductive Op :=
| OpRequestConsent (env : Collab) (request : NewRequest)
    (ctx : option Context) (waitCompleted : bool)
| OpProcessRequest (env : Collab) (req : ConsentRequest) (approve : bool)
| OpClearRequests (ty : option ConsentType)
| OpRestart.

Definition step (o : Op) (w : World) : World :=
  match o with
  | OpRequestConsent env request ctx waitCompleted =>
      fst (requestConsent env request ctx waitCompleted w)
  | OpProcessRequest env req approve => fst (processRequest env req approve w)
  | OpClearRequests ty => clearRequests ty w
  | OpRestart => boot w
  end.

Definition run (ops : list Op) (w : World) : World :=
  fold_left (fun acc o => step o acc) ops w.

(** The id given out by a step, if it admits a request. *)
Definition issuedBy (o : Op) (w : World) : list Z :=
  match o with
  | OpRequestConsent env request ctx waitCompleted =>
      match snd (requestConsent env request ctx waitCompleted w) with
      | Ok a => [id (queuedRequest a)]
      | Throw _ => []
      end
  | _ => []
  end.

(** The ids given out along a run, oldest first. *)
Fixpoint issued (ops : list Op) (w : World) : list Z :=
  match ops with
  | [] => []
  | o :: rest => issuedBy o w ++ issued rest (step o w)
  end.

Definition isRestart (o : Op) : bool :=
  match o with OpRestart => true | _ => false end.

(** The worlds the service can be in: it is started in a blank session
    and then runs. *)
Definition reachable (w : World) : Prop :=
  exists ops, w = run ops (boot blank).

(* --------------------------------------------------------------------- *)
(** ** Runs in which a decision may end with any thrown value *)

(** [Decision req tried tbl] is a call of [processRequest] on [req] whose
    [try] block left the token table [tbl] and ended as [tried]. *)
Inductive Event :=
| Call (o : Op)
| Decision (req : ConsentRequest) (tried : Tried) (tbl : list IToken).

Definition occur (ev : Event) (w : World) : World :=
  match ev with
  | Call o => step o w
  | Decision req tried tbl =>
      fst (processRequestAfterTry req tried (set_tokens tbl w))
  end.

Definition history (evs : list Event) (w : World) : World :=
  fold_left (fun acc ev => occur ev acc) evs w.

Definition isRestartEvent (ev : Event) : bool :=
  match ev with
  | Call o => isRestart o
  | Decision _ _ _ => false
  end.

(** The thrown values on which ['message' in rejectData] throws. *)
Definition unsearchable (v : JsValue) : bool :=
  match v with
  | VObject _ => false
  | _ => truthy v
  end.

(** The [catch] of [processRequest] throws on [err.toString()]. *)
Definition catchThrows (req : ConsentRequest) (tried : Tried) : bool :=
  match tried with
  | Done _ => false
  | Raised err =>
      ConsentType_eqb (type req) TRANSACTION &&
      match thrownText err with
      | Some _ => false
      | None => true
      end
  end.

Definition endsUnsearchable (tried : Tried) : bool :=
  match tried with
  | Done _ => false
  | Raised err => unsearchable err
  end.

Definition throwsUnsearchable (ev : Event) : bool :=
  match ev with
  | Call _ => false
  | Decision _ tried _ => endsUnsearchable tried
  end.

(** What a decision settles the waiting promise with, when it reaches
    the settlement. *)
Definition settlementOf (tried : Tried) : Settlement :=
  match tried with
  | Done response => Resolved response
  | Raised (VObject e) => Rejected (reviveError (serializeError e))
  | Raised _ => Resolved RespUndefined
  end.

(** The world in which [processRequestPost] is called. *)
Definition noted (req : ConsentRequest) (tried : Tried) (w : World) : World :=
  match tried with
  | Done _ => w
  | Raised err =>
      if ConsentType_eqb (type req) TRANSACTION then
        match thrownText err with
        | Some text => noteFailure text w
        | None => w
        end
      else w
  end.

(** The notification the [catch] shows. *)
Definition failureNote (req : ConsentRequest) (tried : Tried)
  : list (string * string) :=
  match tried with
  | Done _ => []
  | Raised err =>
      if ConsentType_eqb (type req) TRANSACTION then
        match thrownText err with
        | Some text =>
            if includes "User rejected the request" text then []
            else [("Failed transaction",
                   ("Transaction encountered an error. (" ++ text ++ ")")%string)]
        | None => []
        end
      else []
  end.

(** A user rejection told by the kind of the error, not by its words:
    code 4001 of the provider errors, the code of
    [ethErrors.provider.userRejectedRequest]. *)
Definition isUserRejectionKind (err : JsError) : bool :=
  match err_code err with
  | Some c => (c =? 4001)%Z
  | None => false
  end.

(** A signer that the user turned down, in the words of another wallet. *)
Definition userDeniedSignature : JsError :=
  {| err_isError := true;
     err_message := Some "User denied transaction signature.";
     err_code := Some 4001;
     err_text := ethErrorText "4001" "User denied transaction signature." |}.

(** A look-up failure whose message quotes the words of a rejection. *)
Definition quotedRejection : JsError :=
  newError "execution reverted: User rejected the request".

(* --------------------------------------------------------------------- *)
(** ** Auxiliary readings of the state *)

Definition badgeOf (q : list ConsentRequest) : option nat :=
  match q with
  | [] => None
  | _ :: _ => Some (List.length q)
  end.

Definition popupCount (ctx : option Context) (n : nat) : nat :=
  match ctx with
  | Some c => if fromInternal c then n else S n
  | None => n
  end.

(** Strictly increasing lists of ids. *)
Fixpoint increasing (l : list Z) : bool :=
  match l with
  | [] => true
  | x :: rest =>
      match rest with
      | [] => true
      | y :: _ => (x <? y)%Z && increasing rest
      end
  end.

(** [n, n + 1, ..., n + k - 1] *)
Fixpoint consecutive (n : Z) (k : nat) : list Z :=
  match k with
  | O => []
  | S k' => n :: consecutive (n + 1) k'
  end.

(** How often the callbacks of a promise were invoked. *)
Definition timesSettled (h : Handle) (w : World) : nat :=
  List.length (filter (fun e => Nat.eqb (fst e) h) (settlements w)).

(* --------------------------------------------------------------------- *)
(** ** Sample collaborators and requests *)

Definition emptyPayload : Payload :=
  mkPayload [] "" "" "" "" "" None EVM "" "".

(** Wallets of type [wt]; every collaborator call succeeds. *)
Definition envWithWallet (wt : string) (signs : bool) : Collab :=
  {| getChainAccount := fun a => Some (mkAccount a 1);
     getChainAccountOfUndefined := Ok None;
     getChainAccounts := fun l => Ok (map (fun a => mkAccount a 1) l);
     getWallet := fun m => Some (mkWallet m wt);
     canWalletSign := fun _ => signs;
     getNetwork := fun n => Some (mkNetwork n EVM);
     addNetwork := fun _ _ _ => Ok tt;
     setActiveNetwork := fun _ => Ok tt;
     getProvider := fun _ => Ok tt;
     formatTxPayload := fun _ p => Ok (mkTxPayload (txRaw p) "" None None);
     signTransaction := fun _ _ tx => Ok ("signed:" ++ tx)%string;
     sendTransaction := fun _ signed => Ok ("sent:" ++ signed)%string;
     pollTransaction := fun _ txHash =>
       match txHash with
       | Some h => Ok ("mined:" ++ h)%string
       | None => Throw typeError
       end;
     signMessage := fun _ _ m => Ok ("sig:" ++ m)%string;
     signTypedData := fun _ _ m => Ok ("sig:" ++ m)%string;
     evmAddPendingTx := fun _ _ _ => Ok tt;
     aptosAddPendingTx := fun _ _ _ => Ok tt;
     connectSiteWithReplace := fun _ _ => Ok tt |}.

Definition signingEnv : Collab := envWithWallet "hd" true.
Definition watchOnlyEnv : Collab := envWithWallet "watch" false.

(** A provider whose [sendTransaction] fails with the given error. *)
Definition failingSendEnv (err : JsError) : Collab :=
  {| getChainAccount := getChainAccount signingEnv;
     getChainAccountOfUndefined := getChainAccountOfUndefined signingEnv;
     getChainAccounts := getChainAccounts signingEnv;
     getWallet := getWallet signingEnv;
     canWalletSign := canWalletSign signingEnv;
     getNetwork := getNetwork signingEnv;
     addNetwork := addNetwork signingEnv;
     setActiveNetwork := setActiveNetwork signingEnv;
     getProvider := getProvider signingEnv;
     formatTxPayload := formatTxPayload signingEnv;
     signTransaction := signTransaction signingEnv;
     sendTransaction := fun _ _ => Throw err;
     pollTransaction := pollTransaction signingEnv;
     signMessage := signMessage signingEnv;
     signTypedData := signTypedData signingEnv;
     evmAddPendingTx := evmAddPendingTx signingEnv;
     aptosAddPendingTx := aptosAddPendingTx signingEnv;
     connectSiteWithReplace := connectSiteWithReplace signingEnv |}.

Definition sampleRequest (ty : ConsentType) : NewRequest :=
  mkNewRequest (Some 1%Z) (AccOne 7) ty (Some "https://dapp.example") emptyPayload.

Definition watchRequest (tk : string) : NewRequest :=
  mkNewRequest (Some 1%Z) (AccOne 7) WATCH_ASSET (Some "https://dapp.example")
    (mkPayload [] tk "info" "0" "" "" None EVM "" "").

(* --------------------------------------------------------------------- *)
(** ** [processRequest] in two halves *)

(** What [processRequestPost] appends to the settlements. *)
Definition settledBy (req : ConsentRequest) (s : Settlement) (w : World)
  : list (Handle * Settlement) :=
  match map_get (id req) (waits w) with
  | Some h => [(h, s)]
  | None => []
  end.

(** The settlement a call of [processRequest] asks for, and the world
    just before [processRequestPost]. *)
Definition verdict (env : Collab) (req : ConsentRequest) (approve : bool)
    (w : World) : Settlement :=
  match snd (attempt env req approve w) with
  | Ok response => Resolved response
  | Throw err => Rejected (reviveError (serializeError err))
  end.

Definition beforePost (env : Collab) (req : ConsentRequest) (approve : bool)
    (w : World) : World :=
  match attempt env req approve w with
  | (w1, Ok _) => w1
  | (w1, Throw err) =>
      if shouldNotify req err
      then showNotification "Failed transaction"
             ("Transaction encountered an error. (" ++ err_text err ++ ")") w1
      else w1
  end.

(* --------------------------------------------------------------------- *)
(** ** Invariants *)

(** What holds of the registry in every world: the promises waiting in
    [waits] are distinct, were created before, and none of them was
    settled; no promise was settled twice. *)
Record HandlesOk (w : World) : Prop := {
  handles_distinct : NoDup (map snd (waits w));
  handles_known : forall e, In e (waits w) -> (snd e < promiseCount w)%nat;
  settled_known : forall e, In e (settlements w) -> (fst e < promiseCount w)%nat;
  settled_once : NoDup (map fst (settlements w));
  waiting_unsettled :
    forall e, In e (waits w) -> ~ In (snd e) (map fst (settlements w))
}.

(** What holds of the queue once the service has started: every id in
    the queue or in [waits] was given out before, ids are not shared, and
    the session store holds the queue. *)
Record QueueOk (w : World) : Prop := {
  ids_below : forall r, In r (consentRequests w) -> (id r < nextId w)%Z;
  keys_below : forall e, In e (waits w) -> (fst e < nextId w)%Z;
  ids_distinct : NoDup (map id (consentRequests w));
  keys_distinct : NoDup (map fst (waits w));
  stored : sessionStore w = Some (consentRequests w)
}.

(** [s] is [l] with some elements left out. *)
Inductive subseq {A : Type} : list A -> list A -> Prop :=
| subseq_nil : subseq [] []
| subseq_skip x s l : subseq s l -> subseq s (x :: l)
| subseq_take x s l : subseq s l -> subseq (x :: s) (x :: l).

(** Requests of one type stand together in the queue. *)
Definition grouped (q : list ConsentRequest) : Prop :=
  forall a b c, subseq [a; b; c] q -> type a = type c -> type b = type a.

(** Requests of one type stand in the order of their ids. *)
Definition orderedWithinType (q : list ConsentRequest) : Prop :=
  forall a b, subseq [a; b] q -> type a = type b -> (id a < id b)%Z.

(** Whether a step asks for the approval window. *)
Definition opensWindow (o : Op) : bool :=
  match o with
  | OpRequestConsent env request (Some c) _ =>
      negb (fromInternal c) &&
      match admissionGate env request with
      | Ok _ => true
      | Throw _ => false
      end
  | _ => false
  end.

(** Collaborators as in [signingEnv], with another network registry,
    payload formatter, poller and account store. *)
Definition sampleEnvWith
    (net : Z -> option INetwork)
    (fmt : option INetwork -> Payload -> Res TxPayload)
    (poll : INetwork -> option string -> Res string)
    (accs : list Z -> Res (list IChainAccount)) : Collab :=
  {| getChainAccount := getChainAccount signingEnv;
     getChainAccountOfUndefined := getChainAccountOfUndefined signingEnv;
     getChainAccounts := accs;
     getWallet := getWallet signingEnv;
     canWalletSign := canWalletSign signingEnv;
     getNetwork := net;
     addNetwork := addNetwork signingEnv;
     setActiveNetwork := setActiveNetwork signingEnv;
     getProvider := getProvider signingEnv;
     formatTxPayload := fmt;
     signTransaction := signTransaction signingEnv;
     sendTransaction := sendTransaction signingEnv;
     pollTransaction := poll;
     signMessage := signMessage signingEnv;
     signTypedData := signTypedData signingEnv;
     evmAddPendingTx := evmAddPendingTx signingEnv;
     aptosAddPendingTx := aptosAddPendingTx signingEnv;
     connectSiteWithReplace := connectSiteWithReplace signingEnv |}.

Definition aptosEnv : Collab :=
  sampleEnvWith (fun n => Some (mkNetwork n APTOS)) (formatTxPayload signingEnv)
    (pollTransaction signingEnv) (getChainAccounts signingEnv).

(** The payload is a transaction that was sent already; polling fails. *)
Definition hashOnlyEnv : Collab :=
  sampleEnvWith (getNetwork signingEnv)
    (fun _ p => Ok (mkTxPayload (txRaw p) "" None (Some "0xabc")))
    (fun _ _ => Throw (newError "timeout")) (getChainAccounts signingEnv).

Definition noNetworkEnv : Collab :=
  sampleEnvWith (fun _ => None) (formatTxPayload signingEnv)
    (pollTransaction signingEnv) (getChainAccounts signingEnv).

Definition noAccountsEnv : Collab :=
  sampleEnvWith (getNetwork signingEnv) (formatTxPayload signingEnv)
    (pollTransaction signingEnv) (fun _ => Ok []).

(* --------------------------------------------------------------------- *)
(** ** Readings of a decision and of a history *)

(** What [processRequestPost] is called with. *)
Definition resolveOf (tried : Tried) : Response :=
  match tried with
  | Done response => response
  | Raised _ => RespUndefined
  end.

Definition rejectOf (tried : Tried) : option JsError :=
  match tried with
  | Raised (VObject e) => Some (serializeError e)
  | _ => None
  end.

(** A call of [processRequest] by the end of its [try] block. *)
Definition decide (req : ConsentRequest) (tried : Tried) (tbl : list IToken)
    (w : World) : World * Res unit :=
  processRequestAfterTry req tried (set_tokens tbl w).

(** The request of a promise in [waits] is gone from the queue. *)
Definition orphaned (k : Z) (h : Handle) (w : World) : Prop :=
  map_get k (waits w) = Some h /\
  forall r, In r (consentRequests w) -> id r <> k.

(** Every promise made so far waits or was settled. *)
Definition accounted (w : World) : Prop :=
  forall h, (h < promiseCount w)%nat ->
            In h (map snd (waits w)) \/ In h (map fst (settlements w)).

Definition keepsPromises (ev : Event) : bool :=
  negb (isRestartEvent ev) && negb (throwsUnsearchable ev).

(** The decisions that reach the settlement. *)
Definition reachesSettlement (req : ConsentRequest) (tried : Tried) : bool :=
  negb (catchThrows req tried) && negb (endsUnsearchable tried).

(* ===================================================================== *)
(** * Basic facts *)
(* ===================================================================== *)

Lemma ConsentType_eqb_eq a b : ConsentType_eqb a b = true <-> a = b.
Proof.
  unfold ConsentType_eqb. destruct (ConsentType_eq_dec a b); split; congruence.
Qed.

Lemma ConsentType_eqb_neq a b : ConsentType_eqb a b = false <-> a <> b.
Proof.
  unfold ConsentType_eqb. destruct (ConsentType_eq_dec a b); split; congruence.
Qed.

Lemma ConsentType_eqb_refl a : ConsentType_eqb a a = true.
Proof. now apply ConsentType_eqb_eq. Qed.

(* ===================================================================== *)
(** * The queue order of [addRequest] *)
(* ===================================================================== *)

Section Enqueue.

Variable t : ConsentType.

Lemma scanFromEnd_none q i :
  scanFromEnd q t i = O ->
  forall j r, (j < i)%nat -> nth_error q j = Some r -> type r <> t.
Proof.
  induction i as [|i IH]; intros Hs j r Hj Hn; [lia|].
  simpl in Hs. destruct (nth_error q i) as [x|] eqn:Hx.
  - destruct (ConsentType_eqb (type x) t) eqn:Ht; [discriminate|].
    destruct (Nat.eq_dec j i) as [->|Hne].
    + rewrite Hx in Hn. injection Hn as <-. now apply ConsentType_eqb_neq.
    + apply (IH Hs j r); [lia | assumption].
  - destruct (Nat.eq_dec j i) as [->|Hne]; [congruence|].
    apply (IH Hs j r); [lia | assumption].
Qed.

Lemma scanFromEnd_some q i k :
  scanFromEnd q t i = S k ->
  (k < i)%nat /\
  (exists x, nth_error q k = Some x /\ type x = t) /\
  (forall j r, (k < j < i)%nat -> nth_error q j = Some r -> type r <> t).
Proof.
  induction i as [|i IH]; intros Hs; [discriminate|].
  simpl in Hs. destruct (nth_error q i) as [x|] eqn:Hx.
  - destruct (ConsentType_eqb (type x) t) eqn:Ht.
    + injection Hs as <-. split; [lia|]. split.
      * exists x. split; [assumption | now apply ConsentType_eqb_eq].
      * intros j r Hj. lia.
    + destruct (IH Hs) as (Hk & Hex & Hafter). split; [lia|]. split; [assumption|].
      intros j r Hj Hn. destruct (Nat.eq_dec j i) as [->|Hne].
      * rewrite Hx in Hn. injection Hn as <-. now apply ConsentType_eqb_neq.
      * apply (Hafter j r); [lia | assumption].
  - destruct (IH Hs) as (Hk & Hex & Hafter). split; [lia|]. split; [assumption|].
    intros j r Hj Hn. destruct (Nat.eq_dec j i) as [->|Hne]; [congruence|].
    apply (Hafter j r); [lia | assumption].
Qed.

End Enqueue.

Lemma firstn_S_nth_error {A} (l : list A) k x :
  nth_error l k = Some x -> firstn (S k) l = firstn k l ++ [x].
Proof.
  revert k. induction l as [|a l IH]; intros [|k] H; simpl in *; try discriminate.
  - now injection H as ->.
  - now rewrite (IH k H).
Qed.

Lemma nth_error_skipn_shift {A} (l : list A) n j :
  nth_error (skipn n l) j = nth_error l (n + j).
Proof.
  revert l. induction n as [|n IH]; intros [|a l]; simpl; try reflexivity.
  - now destruct j.
  - apply IH.
Qed.

(** No request of the type: the new one goes to the end. *)
Lemma enqueue_absent request q :
  (forall r, In r q -> type r <> type request) ->
  enqueue request q = q ++ [request].
Proof.
  intros Hno. unfold enqueue.
  destruct (scanFromEnd q (type request) (List.length q)) as [|k] eqn:Hs;
    [reflexivity|].
  destruct (scanFromEnd_some _ _ _ _ Hs) as (_ & (x & Hx & Ht) & _).
  exfalso. apply (Hno x); [eapply nth_error_In; eassumption | assumption].
Qed.

(** Some request of the type: the new one goes right behind the last. *)
Lemma enqueue_present request q :
  (exists r, In r q /\ type r = type request) ->
  exists before x after,
    q = before ++ x :: after /\
    type x = type request /\
    (forall r, In r after -> type r <> type request) /\
    enqueue request q = before ++ x :: request :: after.
Proof.
  intros (r & Hin & Hty). unfold enqueue.
  destruct (scanFromEnd q (type request) (List.length q)) as [|k] eqn:Hs.
  - exfalso. destruct (In_nth_error _ _ Hin) as [j Hj].
    apply (scanFromEnd_none _ _ _ Hs j r); try assumption.
    apply nth_error_Some. congruence.
  - destruct (scanFromEnd_some _ _ _ _ Hs) as (Hk & (x & Hx & Ht) & Hafter).
    exists (firstn k q), x, (skipn (S k) q).
    assert (Hsplit : q = firstn k q ++ x :: skipn (S k) q).
    { rewrite <- (firstn_skipn (S k) q) at 1.
      rewrite (firstn_S_nth_error _ _ _ Hx), <- app_assoc. reflexivity. }
    split; [exact Hsplit|]. split; [exact Ht|]. split.
    + intros y Hy. destruct (In_nth_error _ _ Hy) as [j Hj].
      rewrite nth_error_skipn_shift in Hj.
      apply (Hafter (S k + j)%nat y); [|assumption].
      split; [lia|]. apply nth_error_Some. congruence.
    + unfold splice_insert.
      rewrite (firstn_S_nth_error _ _ _ Hx), <- app_assoc. reflexivity.
Qed.

(* --------------------------------------------------------------------- *)
(** ** Reading a field after an update *)

Lemma setBadge_eq w : setBadge w = set_badge (badgeOf (consentRequests w)) w.
Proof. unfold setBadge, badgeOf. now destruct (consentRequests w). Qed.

Lemma openPopup_eq ctx w :
  openPopup ctx w = set_windowsOpened (popupCount ctx (windowsOpened w)) w.
Proof.
  unfold openPopup, popupCount. destruct ctx as [[[|]]|]; try reflexivity;
    now destruct w.
Qed.

(** Reads fields through the updates of the world; an update is only
    unfolded below the field that is read. *)
Ltac wsimpl :=
  repeat (progress (rewrite ?setBadge_eq, ?openPopup_eq in * ));
  cbn [addRequest persist showNotification settle
       set_consentRequests set_waits set_nextId set_sessionStore set_badge
       set_promiseCount set_settlements set_notifications set_windowsOpened
       set_tokens
       consentRequests waits nextId sessionStore badge promiseCount
       settlements notifications windowsOpened tokens fst snd] in *.

Lemma requestConsent_queues env request ctx waitCompleted w w' a :
  requestConsent env request ctx waitCompleted w = (w', Ok a) ->
  queuedRequest a = withId request (nextId w) /\
  consentRequests w' = enqueue (withId request (nextId w)) (consentRequests w) /\
  sessionStore w' = Some (consentRequests w') /\
  nextId w' = (nextId w + 1)%Z.
Proof.
  unfold requestConsent. destruct (admissionGate env request); [|discriminate].
  destruct waitCompleted; intros H; injection H as <- <-; wsimpl;
    repeat split; reflexivity.
Qed.

(** C4. An admitted request is inserted into the queue right behind the
    last queued request of its type, and at the end of the queue when no
    queued request has its type; admitting A (TRANSACTION), B (SIGN_MSG),
    C (TRANSACTION) in this order gives the queue [A; C; B]. *)
Theorem C4_queued_behind_last_of_type
    env request ctx waitCompleted w (a : Admission) :
  snd (requestConsent env request ctx waitCompleted w) = Ok a ->
  let w' := fst (requestConsent env request ctx waitCompleted w) in
  let req := queuedRequest a in
  let q := consentRequests w in
  ((exists r, In r q /\ type r = type req) ->
   exists before x after,
     q = before ++ x :: after /\
     type x = type req /\
     (forall r, In r after -> type r <> type req) /\
     consentRequests w' = before ++ x :: req :: after) /\
  ((forall r, In r q -> type r <> type req) ->
   consentRequests w' = q ++ [req]) /\
  (forall A B C,
     type A = TRANSACTION -> type B = SIGN_MSG -> type C = TRANSACTION ->
     enqueue C (enqueue B (enqueue A [])) = [A; C; B]).
Proof.
  intros Hok w' req q.
  destruct (requestConsent env request ctx waitCompleted w) as [w1 r] eqn:Hrc.
  simpl in Hok. subst r. subst w'. cbn [fst].
  destruct (requestConsent_queues _ _ _ _ _ _ _ Hrc) as (Ha & Hq & _ & _).
  fold req in Ha. rewrite Hq, <- Ha. fold q. split; [|split].
  - intros Hex. apply enqueue_present. exact Hex.
  - intros Hno. apply enqueue_absent. exact Hno.
  - intros A B C HA HB HC. unfold enqueue. cbn.
    rewrite HA, HB. cbn. rewrite HC, HB, HA. cbn. reflexivity.
Qed.

Lemma C4_witness :
  let w := run [OpRequestConsent signingEnv (sampleRequest TRANSACTION) None true;
                OpRequestConsent signingEnv (sampleRequest SIGN_MSG) None true]
             (boot blank) in
  let req := withId (sampleRequest TRANSACTION) 2 in
  let w' := fst (requestConsent signingEnv (sampleRequest TRANSACTION) None true w) in
  snd (requestConsent signingEnv (sampleRequest TRANSACTION) None true w)
    = Ok (Awaiting req 2%nat) /\
  ((exists r, In r (consentRequests w) /\ type r = type req) ->
   exists before x after,
     consentRequests w = before ++ x :: after /\
     type x = type req /\
     (forall r, In r after -> type r <> type req) /\
     consentRequests w' = before ++ x :: req :: after) /\
  consentRequests w' = [withId (sampleRequest TRANSACTION) 0; req;
                        withId (sampleRequest SIGN_MSG) 1].
Proof.
  intros w req w'. split; [reflexivity|]. split; [|reflexivity].
  apply (C4_queued_behind_last_of_type signingEnv
           (sampleRequest TRANSACTION) None true w (Awaiting req 2%nat)).
  reflexivity.
Defined.

(* ===================================================================== *)
(** * What each method does to the fields *)
(* ===================================================================== *)

Lemma requestConsent_rejected env request ctx waitCompleted w e :
  snd (requestConsent env request ctx waitCompleted w) = Throw e ->
  admissionGate env request = Throw e /\
  fst (requestConsent env request ctx waitCompleted w) = w.
Proof.
  unfold requestConsent. destruct (admissionGate env request) as [u|e'].
  - destruct waitCompleted; discriminate.
  - simpl. intros H. injection H as ->. split; reflexivity.
Qed.

Lemma requestConsent_fields env request ctx waitCompleted w :
  admissionGate env request = Ok tt ->
  let w' := fst (requestConsent env request ctx waitCompleted w) in
  consentRequests w' = enqueue (withId request (nextId w)) (consentRequests w) /\
  nextId w' = (nextId w + 1)%Z /\
  sessionStore w' = Some (consentRequests w') /\
  waits w' = (if waitCompleted
              then map_set (nextId w) (promiseCount w) (waits w)
              else waits w) /\
  promiseCount w' = (if waitCompleted then S (promiseCount w) else promiseCount w) /\
  settlements w' = settlements w /\
  notifications w' = notifications w /\
  tokens w' = tokens w.
Proof.
  intros Hgate. unfold requestConsent. rewrite Hgate.
  destruct waitCompleted; wsimpl; repeat split; reflexivity.
Qed.

(** The dispatcher touches the token table and nothing else. *)
Lemma processRequestIntermediate_frame env req signedTx txHash w :
  exists tbl,
    fst (processRequestIntermediate env req signedTx txHash w) = set_tokens tbl w.
Proof.
  assert (Hsame : forall r : Res Response, fst (w, r) = set_tokens (tokens w) w)
    by (intros; now destruct w).
  unfold processRequestIntermediate.
  destruct (type req); try (exists (tokens w); apply Hsame);
    destruct (lookupTarget env req) as [target|e];
    try (exists (tokens w); apply Hsame).
  unfold dispatchWatchAsset.
  destruct (firstAccount (snd target)) as [acc|]; [|exists (tokens w); apply Hsame].
  destruct (getToken acc (token (payload req)) (tokens w)) as [existing|].
  - destruct (tok_visible existing); eexists; try reflexivity. apply Hsame.
  - eexists; reflexivity.
Qed.

Lemma attempt_frame env req approve w :
  exists tbl, fst (attempt env req approve w) = set_tokens tbl w.
Proof.
  assert (Hsame : forall r : Res Response, fst (w, r) = set_tokens (tokens w) w)
    by (intros; now destruct w).
  unfold attempt. destruct approve; [|exists (tokens w); apply Hsame].
  destruct (if ConsentType_eqb (type req) TRANSACTION
            then processRequestSignTx env req else Ok (None, None)) as [signed|e].
  - apply processRequestIntermediate_frame.
  - exists (tokens w); apply Hsame.
Qed.

Lemma processRequestPost_found req resolveData rejectData w index :
  findIndex (fun r => (id req =? id r)%Z) (consentRequests w) = Some index ->
  let w' := fst (processRequestPost req resolveData rejectData w) in
  let s := match rejectData with
           | Some e => Rejected (reviveError e)
           | None => Resolved resolveData
           end in
  snd (processRequestPost req resolveData rejectData w) = Ok tt /\
  consentRequests w' = splice_remove index (consentRequests w) /\
  sessionStore w' = Some (consentRequests w') /\
  waits w' = map_delete (id req) (waits w) /\
  settlements w' = settlements w ++ settledBy req s w /\
  nextId w' = nextId w /\
  promiseCount w' = promiseCount w /\
  notifications w' = notifications w /\
  tokens w' = tokens w.
Proof.
  intros Hfound. unfold processRequestPost, settledBy. rewrite Hfound.
  destruct rejectData as [e|];
    destruct (map_get (id req) (waits w)) as [h|];
    wsimpl; rewrite ?app_nil_r; repeat split; reflexivity.
Qed.

Lemma processRequestPost_missing req resolveData rejectData w :
  findIndex (fun r => (id req =? id r)%Z) (consentRequests w) = None ->
  processRequestPost req resolveData rejectData w
  = (w, Throw (notFoundError (id req))).
Proof. intros Hnone. unfold processRequestPost. now rewrite Hnone. Qed.

Lemma processRequest_eq env req approve w :
  processRequest env req approve w
  = match snd (attempt env req approve w) with
    | Ok response =>
        processRequestPost req response None (beforePost env req approve w)
    | Throw err =>
        processRequestPost req RespUndefined (Some (serializeError err))
          (beforePost env req approve w)
    end.
Proof.
  unfold processRequest, beforePost, shouldNotify.
  destruct (attempt env req approve w) as [w1 [response|err]]; reflexivity.
Qed.

Lemma beforePost_frame env req approve w :
  let w1 := beforePost env req approve w in
  consentRequests w1 = consentRequests w /\
  waits w1 = waits w /\
  nextId w1 = nextId w /\
  sessionStore w1 = sessionStore w /\
  promiseCount w1 = promiseCount w /\
  settlements w1 = settlements w /\
  badge w1 = badge w.
Proof.
  unfold beforePost. destruct (attempt_frame env req approve w) as [tbl Htbl].
  destruct (attempt env req approve w) as [w1 [response|err]];
    simpl in Htbl; subst w1; [|destruct (shouldNotify req err)];
    wsimpl; repeat split; reflexivity.
Qed.

(* ===================================================================== *)
(** * Lists, maps and the queue *)
(* ===================================================================== *)

Lemma enqueue_perm request q : Permutation (enqueue request q) (request :: q).
Proof.
  unfold enqueue.
  destruct (scanFromEnd q (type request) (List.length q)) as [|k].
  - symmetry. apply Permutation_cons_append.
  - unfold splice_insert. symmetry.
    rewrite <- (firstn_skipn (S k) q) at 1. apply Permutation_middle.
Qed.

Lemma enqueue_In request q r : In r (enqueue request q) <-> r = request \/ In r q.
Proof.
  split; intros H.
  - apply (Permutation_in _ (enqueue_perm request q)) in H.
    destruct H as [H|H]; [left; now symmetry | now right].
  - apply (Permutation_in _ (Permutation_sym (enqueue_perm request q))).
    destruct H as [H|H]; [left; now symmetry | now right].
Qed.

Lemma enqueue_ids_NoDup request q :
  NoDup (map id q) -> ~ In (id request) (map id q) ->
  NoDup (map id (enqueue request q)).
Proof.
  intros Hnd Hfresh.
  apply (Permutation_NoDup
           (Permutation_sym (Permutation_map id (enqueue_perm request q)))).
  simpl. now constructor.
Qed.

Lemma findIndex_split {A} (f : A -> bool) (l : list A) index :
  findIndex f l = Some index ->
  exists before x after,
    l = before ++ x :: after /\ f x = true /\
    (forall y, In y before -> f y = false) /\
    splice_remove index l = before ++ after.
Proof.
  revert index. induction l as [|a l IH]; intros index H; [discriminate|].
  simpl in H. destruct (f a) eqn:Hfa.
  - injection H as <-. exists [], a, l. repeat split; try assumption.
    intros y [].
  - destruct (findIndex f l) as [i|] eqn:Hi; [|discriminate].
    injection H as <-.
    destruct (IH i eq_refl) as (before & x & after & -> & Hx & Hbefore & Hrem).
    exists (a :: before), x, after. repeat split; try assumption.
    + intros y [<-|Hy]; [assumption | now apply Hbefore].
    + change (splice_remove (S i) (a :: before ++ x :: after))
        with (a :: splice_remove i (before ++ x :: after)).
      now rewrite Hrem.
Qed.

Lemma findIndex_none {A} (f : A -> bool) (l : list A) :
  findIndex f l = None <-> forall y, In y l -> f y = false.
Proof.
  induction l as [|a l IH]; simpl.
  - split; [intros _ y [] | reflexivity].
  - destruct (f a) eqn:Hfa.
    + split; [discriminate|]. intros H. specialize (H a (or_introl eq_refl)).
      congruence.
    + destruct (findIndex f l) as [n|].
      * split; [discriminate|]. intros H. exfalso.
        assert (Hn : Some n = None) by (apply IH; intros y Hy; apply H; now right).
        discriminate Hn.
      * split; [|reflexivity]. intros _ y [<-|Hy]; [assumption|].
        now apply (proj1 IH eq_refl).
Qed.

Lemma set_has_In s k : set_has s k = true <-> In k s.
Proof.
  unfold set_has. rewrite existsb_exists. split.
  - intros (x & Hx & Heq). apply Z.eqb_eq in Heq. now subst.
  - intros H. exists k. split; [assumption | apply Z.eqb_refl].
Qed.

Lemma NoDup_map_filter {A B} (g : A -> B) (f : A -> bool) (l : list A) :
  NoDup (map g l) -> NoDup (map g (filter f l)).
Proof.
  induction l as [|a l IH]; simpl; intros H; [constructor|].
  inversion H as [|? ? Hnotin Hnd]; subst.
  destruct (f a); simpl; [constructor|]; try now apply IH.
  intros Hin. apply Hnotin. apply in_map_iff in Hin.
  destruct Hin as (x & Hx & Hin). apply filter_In in Hin.
  apply in_map_iff. exists x. tauto.
Qed.

Lemma NoDup_map_inj {A B} (g : A -> B) (l : list A) x y :
  NoDup (map g l) -> In x l -> In y l -> g x = g y -> x = y.
Proof.
  induction l as [|a l IH]; simpl; intros Hnd Hx Hy Hg; [contradiction|].
  inversion Hnd as [|? ? Hnotin Hnd']; subst.
  destruct Hx as [<-|Hx], Hy as [<-|Hy]; try reflexivity.
  - exfalso. apply Hnotin. rewrite Hg. now apply in_map.
  - exfalso. apply Hnotin. rewrite <- Hg. now apply in_map.
  - now apply IH.
Qed.

Lemma map_get_In k m h :
  map_get k m = Some h -> In (k, h) m.
Proof.
  unfold map_get. destruct (find (fun e => (fst e =? k)%Z) m) as [e|] eqn:Hf;
    [|discriminate].
  intros H. injection H as <-. apply find_some in Hf. destruct Hf as [Hin Hk].
  apply Z.eqb_eq in Hk. destruct e as [k' h']. simpl in *. now subst.
Qed.

Lemma map_get_None k m :
  map_get k m = None <-> ~ In k (map fst m).
Proof.
  unfold map_get. split.
  - destruct (find (fun e => (fst e =? k)%Z) m) as [e|] eqn:Hf; [discriminate|].
    intros _ Hin. apply in_map_iff in Hin. destruct Hin as (e & <- & Hin).
    pose proof (find_none _ _ Hf e Hin) as Hne. simpl in Hne.
    now rewrite Z.eqb_refl in Hne.
  - intros Hnotin.
    destruct (find (fun e => (fst e =? k)%Z) m) as [e|] eqn:Hf; [|reflexivity].
    exfalso. apply Hnotin. apply find_some in Hf. destruct Hf as [Hin Hk].
    apply Z.eqb_eq in Hk. subst k. now apply in_map.
Qed.

Lemma map_delete_In k m e :
  In e (map_delete k m) <-> In e m /\ fst e <> k.
Proof.
  unfold map_delete. rewrite filter_In, negb_true_iff, Z.eqb_neq. tauto.
Qed.

Lemma map_set_In k h m e :
  In e (map_set k h m) -> e = (k, h) \/ In e m.
Proof.
  induction m as [|a m IH]; simpl.
  - intros [<-|[]]. now left.
  - destruct (fst a =? k)%Z; simpl.
    + intros [<-|Hin]; [now left | right; now right].
    + intros [<-|Hin]; [right; now left|].
      destruct (IH Hin) as [->|Hin']; [now left | right; now right].
Qed.

Lemma map_set_handles_NoDup k h m :
  NoDup (map snd m) -> ~ In h (map snd m) -> NoDup (map snd (map_set k h m)).
Proof.
  induction m as [|a m IH]; simpl; intros Hnd Hfresh.
  - constructor; [intros [] | constructor].
  - inversion Hnd as [|? ? Hnotin Hnd']; subst.
    destruct (fst a =? k)%Z; simpl.
    + constructor; [tauto | assumption].
    + constructor; [|apply IH; tauto].
      intros Hin. apply in_map_iff in Hin. destruct Hin as (e & He & Hin).
      destruct (map_set_In _ _ _ _ Hin) as [->|Hin'].
      * simpl in He. apply Hfresh. now left.
      * apply Hnotin. rewrite <- He. now apply in_map.
Qed.

(* ===================================================================== *)
(** * The registry of completion handles *)
(* ===================================================================== *)

Lemma HandlesOk_blank : HandlesOk blank.
Proof.
  constructor; simpl; try constructor; intros e [].
Qed.

Lemma HandlesOk_boot w : HandlesOk w -> HandlesOk (boot w).
Proof.
  intros [Hd Hk Hs Ho Hu].
  assert (Hf : waits (boot w) = [] /\ settlements (boot w) = settlements w /\
               promiseCount (boot w) = promiseCount w).
  { unfold boot. destruct (sessionStore w) as [[|r rest]|]; wsimpl;
      repeat split; reflexivity. }
  destruct Hf as (Hw & Hse & Hpc).
  constructor; rewrite ?Hw, ?Hse, ?Hpc; simpl; try assumption;
    try constructor; intros e [].
Qed.

Lemma HandlesOk_register w w' k :
  HandlesOk w ->
  waits w' = map_set k (promiseCount w) (waits w) ->
  promiseCount w' = S (promiseCount w) ->
  settlements w' = settlements w ->
  HandlesOk w'.
Proof.
  intros [Hd Hk Hs Ho Hu] Hw Hpc Hse.
  assert (Hfresh : ~ In (promiseCount w) (map snd (waits w))).
  { intros Hin. apply in_map_iff in Hin. destruct Hin as (e & He & Hin).
    specialize (Hk e Hin). lia. }
  assert (Hunsettled : ~ In (promiseCount w) (map fst (settlements w))).
  { intros Hin. apply in_map_iff in Hin. destruct Hin as (e & He & Hin).
    specialize (Hs e Hin). lia. }
  constructor; rewrite ?Hw, ?Hpc, ?Hse.
  - now apply map_set_handles_NoDup.
  - intros e Hin. destruct (map_set_In _ _ _ _ Hin) as [->|Hin'].
    + simpl. lia.
    + specialize (Hk e Hin'). lia.
  - intros e Hin. specialize (Hs e Hin). lia.
  - assumption.
  - intros e Hin. destruct (map_set_In _ _ _ _ Hin) as [->|Hin'].
    + exact Hunsettled.
    + now apply Hu.
Qed.

Lemma HandlesOk_settle w w' k s :
  HandlesOk w ->
  waits w' = map_delete k (waits w) ->
  settlements w' = settlements w ++
                   match map_get k (waits w) with
                   | Some h => [(h, s)]
                   | None => []
                   end ->
  promiseCount w' = promiseCount w ->
  HandlesOk w'.
Proof.
  intros [Hd Hk Hs Ho Hu] Hw Hse Hpc.
  destruct (map_get k (waits w)) as [h|] eqn:Hget.
  - pose proof (map_get_In _ _ _ Hget) as Hin.
    constructor; rewrite ?Hw, ?Hse, ?Hpc.
    + now apply NoDup_map_filter.
    + intros e He. apply map_delete_In in He. now apply Hk.
    + intros e He. apply in_app_or in He. destruct He as [He|[<-|[]]].
      * now apply Hs.
      * exact (Hk _ Hin).
    + rewrite map_app. simpl. apply NoDup_app; [assumption | | ].
      * constructor; [intros [] | constructor].
      * intros x Hx [<-|[]]. exact (Hu _ Hin Hx).
    + intros e He. apply map_delete_In in He. destruct He as [He Hne].
      rewrite map_app, in_app_iff. simpl. intros [Hx|[Hx|[]]].
      * exact (Hu _ He Hx).
      * apply Hne.
        assert (Heq : (k, h) = e) by (apply (NoDup_map_inj snd (waits w)); auto).
        now subst e.
  - rewrite app_nil_r in Hse.
    constructor; rewrite ?Hw, ?Hse, ?Hpc; try assumption.
    + now apply NoDup_map_filter.
    + intros e He. apply map_delete_In in He. now apply Hk.
    + intros e He. apply map_delete_In in He. now apply Hu.
Qed.

Lemma HandlesOk_clear ty w : HandlesOk w -> HandlesOk (clearRequests ty w).
Proof.
  intros [Hd Hk Hs Ho Hu]. unfold clearRequests.
  set (removedSet := map id (removedOf ty (consentRequests w))).
  constructor; wsimpl.
  - now apply NoDup_map_filter.
  - intros e He. apply filter_In in He. now apply Hk.
  - intros e He. apply in_app_or in He. destruct He as [He|He].
    + now apply Hs.
    + apply in_map_iff in He. destruct He as (x & <- & Hx).
      apply filter_In in Hx. simpl. now apply Hk.
  - rewrite map_app, map_map. simpl. apply NoDup_app.
    + assumption.
    + now apply NoDup_map_filter.
    + intros h Hin Hin'. apply in_map_iff in Hin'.
      destruct Hin' as (x & <- & Hx). apply filter_In in Hx.
      exact (Hu x (proj1 Hx) Hin).
  - intros e He. apply filter_In in He. destruct He as [He Hmiss].
    rewrite map_app, map_map, in_app_iff. simpl. intros [Hx|Hx].
    + exact (Hu _ He Hx).
    + apply in_map_iff in Hx. destruct Hx as (x & Hsnd & Hx).
      apply filter_In in Hx. destruct Hx as [Hx Hhit].
      assert (Heq : x = e) by (apply (NoDup_map_inj snd (waits w)); auto).
      subst x. rewrite Hhit in Hmiss. discriminate.
Qed.

Lemma HandlesOk_frame w w' :
  HandlesOk w ->
  waits w' = waits w -> settlements w' = settlements w ->
  promiseCount w' = promiseCount w ->
  HandlesOk w'.
Proof.
  intros [Hd Hk Hs Ho Hu] Hw Hse Hpc.
  constructor; rewrite ?Hw, ?Hse, ?Hpc; assumption.
Qed.

Lemma HandlesOk_requestConsent env request ctx waitCompleted w :
  HandlesOk w ->
  HandlesOk (fst (requestConsent env request ctx waitCompleted w)).
Proof.
  intros Hok.
  destruct (snd (requestConsent env request ctx waitCompleted w)) as [a|e] eqn:Hres.
  - assert (Hgate : admissionGate env request = Ok tt).
    { unfold requestConsent in Hres.
      destruct (admissionGate env request) as [[]|e]; [reflexivity|discriminate]. }
    destruct (requestConsent_fields env request ctx waitCompleted w Hgate)
      as (_ & _ & _ & Hw & Hpc & Hse & _).
    destruct waitCompleted.
    + eapply HandlesOk_register; eassumption.
    + eapply HandlesOk_frame; eassumption.
  - destruct (requestConsent_rejected _ _ _ _ _ _ Hres) as [_ ->]. assumption.
Qed.

Lemma HandlesOk_processRequest env req approve w :
  HandlesOk w -> HandlesOk (fst (processRequest env req approve w)).
Proof.
  intros Hok. rewrite processRequest_eq.
  destruct (beforePost_frame env req approve w) as (Hq & Hw & _ & _ & Hpc & Hse & _).
  assert (Hok1 : HandlesOk (beforePost env req approve w))
    by (eapply HandlesOk_frame; eassumption).
  assert (Hpost : forall resolveData rejectData,
             HandlesOk (fst (processRequestPost req resolveData rejectData
                               (beforePost env req approve w)))).
  { intros resolveData rejectData.
    destruct (findIndex (fun r => (id req =? id r)%Z)
                (consentRequests (beforePost env req approve w)))
      as [index|] eqn:Hfind.
    - destruct (processRequestPost_found req resolveData rejectData _ _ Hfind)
        as (_ & _ & _ & Hw' & Hse' & _ & Hpc' & _).
      eapply HandlesOk_settle; [exact Hok1 | exact Hw' | exact Hse' | exact Hpc'].
    - rewrite (processRequestPost_missing _ _ _ _ Hfind). exact Hok1. }
  destruct (snd (attempt env req approve w)); apply Hpost.
Qed.

Lemma HandlesOk_step o w : HandlesOk w -> HandlesOk (step o w).
Proof.
  destruct o; simpl.
  - apply HandlesOk_requestConsent.
  - apply HandlesOk_processRequest.
  - apply HandlesOk_clear.
  - apply HandlesOk_boot.
Qed.

Lemma HandlesOk_run ops w : HandlesOk w -> HandlesOk (run ops w).
Proof.
  revert w. induction ops as [|o ops IH]; intros w Hok; [assumption|].
  simpl. apply IH. now apply HandlesOk_step.
Qed.

Lemma unsettled_count (l : list (Handle * Settlement)) h :
  ~ In h (map fst l) ->
  List.length (filter (fun e => Nat.eqb (fst e) h) l) = O.
Proof.
  induction l as [|a l IH]; simpl; intros Hnotin; [reflexivity|].
  destruct (Nat.eqb (fst a) h) eqn:Ha.
  - apply Nat.eqb_eq in Ha. tauto.
  - apply IH. tauto.
Qed.

Lemma settled_count (l : list (Handle * Settlement)) h s :
  In (h, s) l ->
  (1 <= List.length (filter (fun e => Nat.eqb (fst e) h) l))%nat.
Proof.
  intros Hin.
  assert (Hf : In (h, s) (filter (fun e => Nat.eqb (fst e) h) l))
    by (apply filter_In; split; [assumption | apply Nat.eqb_refl]).
  destruct (filter (fun e => Nat.eqb (fst e) h) l); [destruct Hf | simpl; lia].
Qed.

Lemma settled_at_most_once (l : list (Handle * Settlement)) h :
  NoDup (map fst l) ->
  (List.length (filter (fun e => Nat.eqb (fst e) h) l) <= 1)%nat.
Proof.
  induction l as [|a l IH]; simpl; intros Hnd; [lia|].
  inversion Hnd as [|? ? Hnotin Hnd']; subst.
  destruct (Nat.eqb (fst a) h) eqn:Ha; [|now apply IH].
  apply Nat.eqb_eq in Ha. simpl.
  assert (Hnone : filter (fun e => Nat.eqb (fst e) h) l = []).
  { destruct (filter (fun e => Nat.eqb (fst e) h) l) as [|x rest] eqn:Hf;
      [reflexivity|].
    exfalso. apply Hnotin.
    assert (Hx : In x (filter (fun e => Nat.eqb (fst e) h) l))
      by (rewrite Hf; now left).
    apply filter_In in Hx. destruct Hx as [Hx Hxh]. apply Nat.eqb_eq in Hxh.
    rewrite Ha, <- Hxh. now apply in_map. }
  rewrite Hnone. simpl. lia.
Qed.

(* ===================================================================== *)
(** * The queue and the id counter *)
(* ===================================================================== *)

Lemma fold_max_ge (l : list Z) (a : Z) :
  (a <= fold_left (fun maxId i => Z.max maxId i) l a)%Z /\
  forall x, In x l -> (x <= fold_left (fun maxId i => Z.max maxId i) l a)%Z.
Proof.
  revert a. induction l as [|y l IH]; intros a; simpl.
  - split; [lia | intros x []].
  - destruct (IH (Z.max a y)) as [Ha Hl]. split; [lia|].
    intros x [<-|Hx]; [lia | now apply Hl].
Qed.

Lemma lastId_ge first rest r :
  In r (first :: rest) -> (id r <= lastId first rest)%Z.
Proof.
  unfold lastId. destruct (fold_max_ge (map id rest) (id first)) as [Ha Hl].
  intros [<-|Hin]; [assumption|]. apply Hl. now apply in_map.
Qed.

Lemma boot_fields w :
  waits (boot w) = [] /\
  settlements (boot w) = settlements w /\
  promiseCount (boot w) = promiseCount w /\
  notifications (boot w) = notifications w /\
  tokens (boot w) = tokens w /\
  consentRequests (boot w) = match sessionStore w with
                             | Some q => q
                             | None => []
                             end /\
  sessionStore (boot w) = Some (consentRequests (boot w)) /\
  nextId (boot w) = match sessionStore w with
                    | Some (r :: rest) => (lastId r rest + 1)%Z
                    | _ => 0%Z
                    end.
Proof.
  unfold boot. destruct (sessionStore w) as [[|r rest]|] eqn:Hst; wsimpl;
    rewrite ?Hst; repeat split; reflexivity.
Qed.

Lemma QueueOk_boot_blank : QueueOk (boot blank).
Proof.
  constructor; simpl; try constructor; try reflexivity; intros e [].
Qed.

Lemma QueueOk_boot w : QueueOk w -> QueueOk (boot w).
Proof.
  intros [Hi Hk Hd Hkd Hst].
  destruct (boot_fields w) as (Hw & _ & _ & _ & _ & Hq & Hst' & Hn).
  rewrite Hst in Hq, Hn.
  constructor; rewrite ?Hw, ?Hq, ?Hn; simpl; try assumption.
  - intros r Hin. destruct (consentRequests w) as [|first rest]; [destruct Hin|].
    pose proof (lastId_ge first rest r Hin). lia.
  - intros e [].
  - constructor.
  - now rewrite Hst', Hq.
Qed.

Lemma map_set_keys k h m x :
  In x (map fst (map_set k h m)) <-> x = k \/ In x (map fst m).
Proof.
  induction m as [|a m IH]; simpl.
  - intuition congruence.
  - destruct (fst a =? k)%Z eqn:Hk; simpl.
    + apply Z.eqb_eq in Hk. intuition congruence.
    + rewrite IH. tauto.
Qed.

Lemma map_set_keys_NoDup k h m :
  NoDup (map fst m) -> NoDup (map fst (map_set k h m)).
Proof.
  induction m as [|a m IH]; simpl; intros Hnd.
  - constructor; [intros [] | constructor].
  - inversion Hnd as [|? ? Hnotin Hnd']; subst.
    destruct (fst a =? k)%Z eqn:Hk; simpl.
    + apply Z.eqb_eq in Hk. constructor; [congruence | assumption].
    + apply Z.eqb_neq in Hk. constructor; [|now apply IH].
      rewrite map_set_keys. intros [Heq|Hin]; [congruence | contradiction].
Qed.

Lemma QueueOk_requestConsent env request ctx waitCompleted w :
  QueueOk w -> QueueOk (fst (requestConsent env request ctx waitCompleted w)).
Proof.
  intros Hok.
  destruct (snd (requestConsent env request ctx waitCompleted w)) as [a|e] eqn:Hres.
  - assert (Hgate : admissionGate env request = Ok tt).
    { unfold requestConsent in Hres.
      destruct (admissionGate env request) as [[]|e]; [reflexivity|discriminate]. }
    destruct (requestConsent_fields env request ctx waitCompleted w Hgate)
      as (Hq & Hn & Hst & Hw & _).
    destruct Hok as [Hi Hk Hd Hkd Hst0].
    constructor; rewrite ?Hq, ?Hn, ?Hw.
    + intros r Hin. apply enqueue_In in Hin. destruct Hin as [->|Hin].
      * simpl. lia.
      * specialize (Hi r Hin). lia.
    + intros e Hin. destruct waitCompleted.
      * apply (in_map fst) in Hin. apply map_set_keys in Hin.
        destruct Hin as [->|Hin]; [lia|].
        apply in_map_iff in Hin. destruct Hin as (x & <- & Hx).
        specialize (Hk x Hx). lia.
      * specialize (Hk e Hin). lia.
    + apply enqueue_ids_NoDup; [assumption|]. simpl. intros Hin.
      apply in_map_iff in Hin. destruct Hin as (x & Hx & Hin).
      specialize (Hi x Hin). lia.
    + destruct waitCompleted; [now apply map_set_keys_NoDup | assumption].
    + now rewrite Hst, Hq.
  - destruct (requestConsent_rejected _ _ _ _ _ _ Hres) as [_ ->]. assumption.
Qed.

Lemma QueueOk_frame w w' :
  QueueOk w ->
  consentRequests w' = consentRequests w -> waits w' = waits w ->
  nextId w' = nextId w -> sessionStore w' = sessionStore w ->
  QueueOk w'.
Proof.
  intros [Hi Hk Hd Hkd Hst] Hq Hw Hn Hs.
  constructor; rewrite ?Hq, ?Hw, ?Hn, ?Hs; assumption.
Qed.

Lemma QueueOk_processRequest env req approve w :
  QueueOk w -> QueueOk (fst (processRequest env req approve w)).
Proof.
  intros Hok. rewrite processRequest_eq.
  destruct (beforePost_frame env req approve w) as (Hq & Hw & Hn & Hst & _).
  assert (Hok1 : QueueOk (beforePost env req approve w))
    by (eapply QueueOk_frame; eassumption).
  assert (Hpost : forall resolveData rejectData,
             QueueOk (fst (processRequestPost req resolveData rejectData
                             (beforePost env req approve w)))).
  { intros resolveData rejectData.
    destruct (findIndex (fun r => (id req =? id r)%Z)
                (consentRequests (beforePost env req approve w)))
      as [index|] eqn:Hfind.
    - destruct (processRequestPost_found req resolveData rejectData _ _ Hfind)
        as (_ & Hq' & Hst' & Hw' & _ & Hn' & _).
      destruct (findIndex_split _ _ _ Hfind)
        as (before & x & after & Hsplit & _ & _ & Hrem).
      destruct Hok1 as [Hi Hk Hd Hkd Hst1].
      constructor; rewrite ?Hq', ?Hw', ?Hn', ?Hrem.
      + intros r Hin. apply Hi. rewrite Hsplit.
        apply in_app_or in Hin. apply in_or_app. simpl. tauto.
      + intros e Hin. apply map_delete_In in Hin. now apply Hk.
      + rewrite Hsplit, map_app in Hd. simpl in Hd.
        apply NoDup_remove_1 in Hd. now rewrite map_app.
      + now apply NoDup_map_filter.
      + now rewrite Hst', Hq', Hrem.
    - rewrite (processRequestPost_missing _ _ _ _ Hfind). exact Hok1. }
  destruct (snd (attempt env req approve w)); apply Hpost.
Qed.

Lemma QueueOk_clear ty w : QueueOk w -> QueueOk (clearRequests ty w).
Proof.
  intros [Hi Hk Hd Hkd Hst]. unfold clearRequests.
  constructor; wsimpl.
  - intros r Hin. apply filter_In in Hin. now apply Hi.
  - intros e Hin. apply filter_In in Hin. now apply Hk.
  - now apply NoDup_map_filter.
  - now apply NoDup_map_filter.
  - reflexivity.
Qed.

Lemma QueueOk_step o w : QueueOk w -> QueueOk (step o w).
Proof.
  destruct o; simpl.
  - apply QueueOk_requestConsent.
  - apply QueueOk_processRequest.
  - apply QueueOk_clear.
  - apply QueueOk_boot.
Qed.

Lemma QueueOk_run ops w : QueueOk w -> QueueOk (run ops w).
Proof.
  revert w. induction ops as [|o ops IH]; intros w Hok; [assumption|].
  simpl. apply IH. now apply QueueOk_step.
Qed.

Lemma reachable_ok w : reachable w -> QueueOk w /\ HandlesOk w.
Proof.
  intros [ops ->]. split.
  - apply QueueOk_run, QueueOk_boot_blank.
  - apply HandlesOk_run, HandlesOk_boot, HandlesOk_blank.
Qed.

(* ===================================================================== *)
(** * Settlement happens once *)
(* ===================================================================== *)

Lemma processRequest_absent env req approve w :
  (forall r, In r (consentRequests w) -> id r <> id req) ->
  snd (processRequest env req approve w) = Throw (notFoundError (id req)) /\
  consentRequests (fst (processRequest env req approve w)) = consentRequests w /\
  waits (fst (processRequest env req approve w)) = waits w /\
  settlements (fst (processRequest env req approve w)) = settlements w /\
  sessionStore (fst (processRequest env req approve w)) = sessionStore w.
Proof.
  intros Habsent. rewrite processRequest_eq.
  destruct (beforePost_frame env req approve w) as (Hq & Hw & _ & Hst & _ & Hse & _).
  assert (Hfind : findIndex (fun r => (id req =? id r)%Z)
                    (consentRequests (beforePost env req approve w)) = None).
  { apply findIndex_none. rewrite Hq. intros y Hy. apply Z.eqb_neq.
    intros Heq. now apply (Habsent y Hy). }
  destruct (snd (attempt env req approve w));
    rewrite (processRequestPost_missing _ _ _ _ Hfind); simpl; tauto.
Qed.

Lemma processRequest_removes_id env req approve w :
  NoDup (map id (consentRequests w)) ->
  forall r, In r (consentRequests (fst (processRequest env req approve w))) ->
            id r <> id req.
Proof.
  intros Hnd. rewrite processRequest_eq.
  destruct (beforePost_frame env req approve w) as (Hq & _).
  assert (Hpost : forall resolveData rejectData r,
             In r (consentRequests
                     (fst (processRequestPost req resolveData rejectData
                             (beforePost env req approve w)))) ->
             id r <> id req).
  { intros resolveData rejectData r.
    destruct (findIndex (fun r => (id req =? id r)%Z)
                (consentRequests (beforePost env req approve w)))
      as [index|] eqn:Hfind.
    - destruct (processRequestPost_found req resolveData rejectData _ _ Hfind)
        as (_ & Hq' & _).
      destruct (findIndex_split _ _ _ Hfind)
        as (before & x & after & Hsplit & Hx & _ & Hrem).
      rewrite Hq', Hrem. rewrite Hq in Hsplit. rewrite Hsplit, map_app in Hnd.
      simpl in Hnd. apply NoDup_remove_2 in Hnd. apply Z.eqb_eq in Hx.
      intros Hin Heq. apply Hnd. rewrite <- Hx, <- Heq, <- map_app.
      now apply in_map.
    - rewrite (processRequestPost_missing _ _ _ _ Hfind). simpl. rewrite Hq.
      intros Hin Heq.
      pose proof (proj1 (findIndex_none _ _) Hfind r) as Hr.
      rewrite Hq in Hr. specialize (Hr Hin). apply Z.eqb_neq in Hr. congruence. }
  destruct (snd (attempt env req approve w)); apply Hpost.
Qed.

Lemma clearRequests_removes ty w r :
  In r (removedOf ty (consentRequests w)) ->
  forall r', In r' (consentRequests (clearRequests ty w)) -> id r' <> id r.
Proof.
  intros Hr r' Hin Heq. unfold clearRequests in Hin. wsimpl.
  apply filter_In in Hin. destruct Hin as [_ Hmiss].
  apply negb_true_iff in Hmiss.
  assert (Hhas : set_has (map id (removedOf ty (consentRequests w))) (id r') = true).
  { apply set_has_In. rewrite Heq. now apply in_map. }
  congruence.
Qed.

Lemma clearRequests_leaves_none ty w :
  removedOf ty (consentRequests (clearRequests ty w)) = [].
Proof.
  destruct (removedOf ty (consentRequests (clearRequests ty w))) as [|x rest] eqn:Hrem;
    [reflexivity|].
  exfalso.
  assert (Hx : In x (removedOf ty (consentRequests (clearRequests ty w))))
    by (rewrite Hrem; now left).
  assert (Hq : In x (consentRequests (clearRequests ty w))).
  { destruct ty as [t|]; simpl in Hx; [apply filter_In in Hx; tauto | assumption]. }
  assert (Hin : In x (removedOf ty (consentRequests w))).
  { unfold clearRequests in Hq, Hx. wsimpl.
    destruct ty as [t|]; simpl in *.
    - apply filter_In in Hx. destruct Hx as [Hx Ht]. apply filter_In in Hx.
      apply filter_In. tauto.
    - apply filter_In in Hq. tauto. }
  exact (clearRequests_removes ty w x Hin x Hq eq_refl).
Qed.

Lemma filter_all {A} (f : A -> bool) (l : list A) :
  (forall x, In x l -> f x = true) -> filter f l = l.
Proof.
  induction l as [|a l IH]; simpl; intros H; [reflexivity|].
  rewrite (H a (or_introl eq_refl)), IH; [reflexivity|].
  intros x Hx. apply H. now right.
Qed.

Lemma filter_nothing {A} (f : A -> bool) (l : list A) :
  (forall x, In x l -> f x = false) -> filter f l = [].
Proof.
  induction l as [|a l IH]; simpl; intros H; [reflexivity|].
  rewrite (H a (or_introl eq_refl)). apply IH.
  intros x Hx. apply H. now right.
Qed.

Lemma clearRequests_twice ty w :
  settlements (clearRequests ty (clearRequests ty w))
  = settlements (clearRequests ty w) /\
  waits (clearRequests ty (clearRequests ty w)) = waits (clearRequests ty w).
Proof.
  pose proof (clearRequests_leaves_none ty w) as Hnone.
  remember (clearRequests ty w) as w1 eqn:Hw1. clear Hw1.
  unfold clearRequests. wsimpl. rewrite Hnone.
  rewrite (filter_all (fun e => negb (set_has (map id []) (fst e))) (waits w1))
    by (intros; reflexivity).
  rewrite (filter_nothing (fun e => set_has (map id []) (fst e)) (waits w1))
    by (intros; reflexivity).
  simpl. rewrite app_nil_r. tauto.
Qed.

(** C1. No completion handle is settled twice: in every run of the
    service, restarts included, the callbacks of each promise are invoked
    at most once, and not at all while the promise is in [waits]; a
    [processRequest] that follows a [processRequest] or a
    [clearRequests] which took the id out of the queue throws the
    not-found error and invokes no callback, and a repeated
    [clearRequests] invokes none either. *)
Theorem C1_settled_at_most_once :
  (forall ops h, (timesSettled h (run ops (boot blank)) <= 1)%nat) /\
  (forall ops k h,
     map_get k (waits (run ops (boot blank))) = Some h ->
     timesSettled h (run ops (boot blank)) = O) /\
  (forall ops env req approve env' request' approve',
     let w1 := fst (processRequest env req approve (run ops (boot blank))) in
     let again := processRequest env' (withId request' (id req)) approve' w1 in
     snd again = Throw (notFoundError (id req)) /\
     settlements (fst again) = settlements w1 /\
     waits (fst again) = waits w1) /\
  (forall ops ty r env' request' approve',
     let w := run ops (boot blank) in
     let again := processRequest env' (withId request' (id r)) approve'
                    (clearRequests ty w) in
     In r (removedOf ty (consentRequests w)) ->
     snd again = Throw (notFoundError (id r)) /\
     settlements (fst again) = settlements (clearRequests ty w) /\
     waits (fst again) = waits (clearRequests ty w)) /\
  (forall ops ty,
     let w1 := clearRequests ty (run ops (boot blank)) in
     settlements (clearRequests ty w1) = settlements w1).
Proof.
  split; [|split; [|split; [|split]]].
  - intros ops h. unfold timesSettled. apply settled_at_most_once.
    apply settled_once. apply HandlesOk_run, HandlesOk_boot, HandlesOk_blank.
  - intros ops k h Hget. unfold timesSettled. apply unsettled_count.
    assert (Hok : HandlesOk (run ops (boot blank)))
      by apply HandlesOk_run, HandlesOk_boot, HandlesOk_blank.
    exact (waiting_unsettled _ Hok _ (map_get_In _ _ _ Hget)).
  - intros ops env req approve env' request' approve' w1 again.
    assert (Hok : QueueOk (run ops (boot blank)))
      by apply QueueOk_run, QueueOk_boot_blank.
    destruct (processRequest_absent env' (withId request' (id req)) approve' w1)
      as (Hres & _ & Hw & Hse & _).
    { intros r Hin. simpl.
      exact (processRequest_removes_id env req approve _ (ids_distinct _ Hok) r Hin). }
    subst again. simpl in Hres. tauto.
  - intros ops ty r env' request' approve' w again Hr.
    destruct (processRequest_absent env' (withId request' (id r)) approve'
                (clearRequests ty w))
      as (Hres & _ & Hw & Hse & _).
    { intros r' Hin. simpl. exact (clearRequests_removes ty w r Hr r' Hin). }
    subst again. simpl in Hres. tauto.
  - intros ops ty w1. apply clearRequests_twice.
Qed.

Lemma C1_witness :
  let w := run [OpRequestConsent signingEnv (sampleRequest TRANSACTION) None true]
             (boot blank) in
  let r := withId (sampleRequest TRANSACTION) 0 in
  let again := processRequest signingEnv (withId (sampleRequest TRANSACTION) (id r))
                 true (clearRequests (Some TRANSACTION) w) in
  In r (removedOf (Some TRANSACTION) (consentRequests w)) /\
  snd again = Throw (notFoundError (id r)) /\
  settlements (fst again) = settlements (clearRequests (Some TRANSACTION) w) /\
  waits (fst again) = waits (clearRequests (Some TRANSACTION) w).
Proof.
  intros w r again. split; [left; reflexivity|].
  apply (proj1 (proj2 (proj2 (proj2 C1_settled_at_most_once)))
           [OpRequestConsent signingEnv (sampleRequest TRANSACTION) None true]
           (Some TRANSACTION) r signingEnv (sampleRequest TRANSACTION) true).
  left; reflexivity.
Defined.

(* ===================================================================== *)
(** * The ids given out *)
(* ===================================================================== *)

Lemma issuedBy_step o w :
  isRestart o = false ->
  (issuedBy o w = [] /\ nextId (step o w) = nextId w) \/
  (issuedBy o w = [nextId w] /\ nextId (step o w) = (nextId w + 1)%Z).
Proof.
  destruct o as [env request ctx waitCompleted|env req approve|ty|];
    simpl; intros Hr; try discriminate.
  - destruct (snd (requestConsent env request ctx waitCompleted w)) as [a|e] eqn:Hres.
    + right.
      destruct (requestConsent env request ctx waitCompleted w) as [w' r] eqn:Hrc.
      simpl in Hres. subst r.
      destruct (requestConsent_queues _ _ _ _ _ _ _ Hrc) as (Ha & _ & _ & Hn).
      simpl. rewrite Ha. simpl. tauto.
    + left. destruct (requestConsent_rejected _ _ _ _ _ _ Hres) as [_ ->]. tauto.
  - left. split; [reflexivity|]. rewrite processRequest_eq.
    destruct (beforePost_frame env req approve w) as (_ & _ & Hn & _).
    assert (Hpost : forall resolveData rejectData,
               nextId (fst (processRequestPost req resolveData rejectData
                              (beforePost env req approve w))) = nextId w).
    { intros resolveData rejectData.
      destruct (findIndex (fun r => (id req =? id r)%Z)
                  (consentRequests (beforePost env req approve w)))
        as [index|] eqn:Hfind.
      - destruct (processRequestPost_found req resolveData rejectData _ _ Hfind)
          as (_ & _ & _ & _ & _ & Hn' & _). now rewrite Hn'.
      - now rewrite (processRequestPost_missing _ _ _ _ Hfind). }
    destruct (snd (attempt env req approve w)); apply Hpost.
  - left. split; [reflexivity|]. unfold clearRequests. wsimpl. reflexivity.
Qed.

Lemma issued_consecutive ops w :
  forallb (fun o => negb (isRestart o)) ops = true ->
  issued ops w = consecutive (nextId w) (List.length (issued ops w)) /\
  nextId (run ops w) = (nextId w + Z.of_nat (List.length (issued ops w)))%Z.
Proof.
  revert w. induction ops as [|o ops IH]; intros w Hno; simpl.
  - split; [reflexivity | lia].
  - simpl in Hno. apply andb_true_iff in Hno. destruct Hno as [Ho Hno].
    apply negb_true_iff in Ho.
    destruct (IH (step o w) Hno) as [Hiss Hn].
    destruct (issuedBy_step o w Ho) as [[-> Hs]|[-> Hs]]; simpl.
    + rewrite Hs in Hiss, Hn. split; assumption.
    + rewrite Hs in Hiss, Hn. split; [now rewrite <- Hiss | lia].
Qed.

Lemma consecutive_bounds n k x : In x (consecutive n k) -> (n <= x)%Z.
Proof.
  revert n. induction k as [|k IH]; intros n; simpl; [intros []|].
  intros [<-|Hin]; [lia|]. specialize (IH _ Hin). lia.
Qed.

Lemma consecutive_increasing n k : increasing (consecutive n k) = true.
Proof.
  revert n. induction k as [|k IH]; intros n; [reflexivity|].
  simpl. destruct k as [|k]; [reflexivity|].
  specialize (IH (n + 1)%Z). simpl in *. rewrite IH.
  rewrite andb_true_r. apply Z.ltb_lt. lia.
Qed.

Lemma fold_max_In (l : list Z) (a : Z) :
  In (fold_left (fun maxId i => Z.max maxId i) l a) (a :: l).
Proof.
  revert a. induction l as [|y l IH]; intros a; simpl; [now left|].
  destruct (IH (Z.max a y)) as [H|H].
  - rewrite <- H. destruct (Z.max_spec a y) as [[_ Hm]|[_ Hm]]; rewrite Hm; tauto.
  - tauto.
Qed.

(** C2, as the code has it. Ids given out between two starts of the
    service are strictly increasing; a start recomputes the counter as
    the greatest id of the persisted queue plus one, and as 0 when the
    persisted queue is empty or absent, so that after restoring ids
    5, 6, 7 the next request gets id 8; an id given out is never the id
    of a request in the queue. (An id whose request left the queue before
    a restart can be given out again.) *)
Theorem C2_ids_increase_between_restarts :
  (forall ops w,
     forallb (fun o => negb (isRestart o)) ops = true ->
     increasing (issued ops w) = true /\
     (forall i, In i (issued ops w) -> (nextId w <= i)%Z)) /\
  (forall w,
     nextId (boot w) = match sessionStore w with
                       | Some (r :: rest) => (lastId r rest + 1)%Z
                       | _ => 0%Z
                       end) /\
  (forall r rest,
     In (lastId r rest) (map id (r :: rest)) /\
     forall x, In x (r :: rest) -> (id x <= lastId r rest)%Z) /\
  (forall w env request ctx waitCompleted a b c,
     sessionStore w = Some [a; b; c] ->
     id a = 5%Z -> id b = 6%Z -> id c = 7%Z ->
     admissionGate env request = Ok tt ->
     issuedBy (OpRequestConsent env request ctx waitCompleted) (boot w) = [8%Z]) /\
  (forall ops o i,
     In i (issuedBy o (run ops (boot blank))) ->
     ~ In i (map id (consentRequests (run ops (boot blank))))).
Proof.
  split; [|split; [|split; [|split]]].
  - intros ops w Hno. destruct (issued_consecutive ops w Hno) as [Hiss _].
    rewrite Hiss. split; [apply consecutive_increasing|].
    intros i Hin. exact (consecutive_bounds _ _ _ Hin).
  - intros w. apply boot_fields.
  - intros r rest. split.
    + unfold lastId. simpl. apply fold_max_In.
    + intros x Hx. now apply lastId_ge.
  - intros w env request ctx waitCompleted a b c Hst Ha Hb Hc Hgate.
    simpl. unfold requestConsent. rewrite Hgate.
    assert (Hn : nextId (boot w) = 8%Z).
    { destruct (boot_fields w) as (_ & _ & _ & _ & _ & _ & _ & Hn).
      rewrite Hn, Hst. unfold lastId. simpl. rewrite Ha, Hb, Hc. reflexivity. }
    destruct waitCompleted; simpl; now rewrite Hn.
  - intros ops o i Hin Hq.
    assert (Hok : QueueOk (run ops (boot blank)))
      by apply QueueOk_run, QueueOk_boot_blank.
    remember (run ops (boot blank)) as w eqn:Hw. clear Hw.
    destruct o as [env request ctx waitCompleted|env req approve|ty|];
      simpl in Hin; try contradiction.
    destruct (requestConsent env request ctx waitCompleted w) as [w' [a|e]] eqn:Hrc;
      simpl in Hin; [|contradiction].
    destruct (requestConsent_queues _ _ _ _ _ _ _ Hrc) as (Ha & _).
    rewrite Ha in Hin. simpl in Hin. destruct Hin as [<-|[]].
    apply in_map_iff in Hq. destruct Hq as (x & Hx & Hin).
    pose proof (ids_below _ Hok x Hin). lia.
Qed.

Lemma C2_witness :
  let ops := [OpRequestConsent signingEnv (sampleRequest TRANSACTION) None true;
              OpProcessRequest signingEnv (withId (sampleRequest TRANSACTION) 0) true;
              OpRequestConsent signingEnv (sampleRequest SIGN_MSG) None false] in
  let stored := set_sessionStore
                  (Some [withId (sampleRequest TRANSACTION) 5;
                         withId (sampleRequest TRANSACTION) 6;
                         withId (sampleRequest SIGN_MSG) 7]) blank in
  forallb (fun o => negb (isRestart o)) ops = true /\
  (increasing (issued ops (boot blank)) = true /\
   (forall i, In i (issued ops (boot blank)) -> (nextId (boot blank) <= i)%Z)) /\
  issuedBy (OpRequestConsent signingEnv (sampleRequest TRANSACTION) None true)
    (boot stored) = [8%Z].
Proof.
  intros ops stored. split; [reflexivity|]. split.
  - apply (proj1 C2_ids_increase_between_restarts ops (boot blank)). reflexivity.
  - apply (proj1 (proj2 (proj2 (proj2 C2_ids_increase_between_restarts)))
             stored signingEnv (sampleRequest TRANSACTION) None true
             (withId (sampleRequest TRANSACTION) 5)
             (withId (sampleRequest TRANSACTION) 6)
             (withId (sampleRequest SIGN_MSG) 7)); reflexivity.
Defined.

(** C2 as stated fails across a restart, even with a persisted queue that
    is not empty: requests get ids 0 and 1, the one with id 1 is settled,
    the service restarts with the request 0 persisted, and the next
    request gets id 1 again. *)
Lemma C2_counterexample :
  let ops := [OpRequestConsent signingEnv (sampleRequest ADD_NETWORK) None true;
              OpRequestConsent signingEnv (sampleRequest ADD_NETWORK) None true;
              OpProcessRequest signingEnv (withId (sampleRequest ADD_NETWORK) 1) true;
              OpRestart;
              OpRequestConsent signingEnv (sampleRequest ADD_NETWORK) None true] in
  sessionStore (run (firstn 3 ops) (boot blank))
  = Some [withId (sampleRequest ADD_NETWORK) 0] /\
  issued ops (boot blank) = [0%Z; 1%Z; 1%Z] /\
  increasing (issued ops (boot blank)) = false.
Proof. repeat split; vm_compute; reflexivity. Qed.

(** C10. A call of [requestConsent] that the admission gate rejects
    leaves the world, and so the id counter, as it was; hence the ids
    given out between two starts of the service are consecutive integers
    starting at the counter. *)
Theorem C10_rejection_consumes_no_id :
  (forall env request ctx waitCompleted w e,
     snd (requestConsent env request ctx waitCompleted w) = Throw e ->
     fst (requestConsent env request ctx waitCompleted w) = w /\
     nextId (fst (requestConsent env request ctx waitCompleted w)) = nextId w /\
     admissionGate env request = Throw e) /\
  (forall ops w,
     forallb (fun o => negb (isRestart o)) ops = true ->
     issued ops w = consecutive (nextId w) (List.length (issued ops w)) /\
     nextId (run ops w) = (nextId w + Z.of_nat (List.length (issued ops w)))%Z).
Proof.
  split.
  - intros env request ctx waitCompleted w e Hres.
    destruct (requestConsent_rejected _ _ _ _ _ _ Hres) as [Hgate Hw].
    rewrite Hw. tauto.
  - intros ops w Hno. now apply issued_consecutive.
Qed.

Lemma C10_witness :
  let ops := [OpRequestConsent signingEnv (sampleRequest TRANSACTION) None true;
              OpRequestConsent watchOnlyEnv (sampleRequest TRANSACTION) None true;
              OpRequestConsent signingEnv (sampleRequest SIGN_MSG) None true] in
  let w := run [OpRequestConsent signingEnv (sampleRequest TRANSACTION) None true]
             (boot blank) in
  (snd (requestConsent watchOnlyEnv (sampleRequest TRANSACTION) None true w)
   = Throw userRejectedRequest /\
   nextId (fst (requestConsent watchOnlyEnv (sampleRequest TRANSACTION) None true w))
   = nextId w) /\
  (forallb (fun o => negb (isRestart o)) ops = true /\
   issued ops (boot blank) = [0%Z; 1%Z] /\
   issued ops (boot blank)
   = consecutive (nextId (boot blank)) (List.length (issued ops (boot blank)))).
Proof.
  intros ops w. split; [split; [reflexivity|]|split; [reflexivity|split; [reflexivity|]]].
  - apply (proj1 C10_rejection_consumes_no_id watchOnlyEnv
             (sampleRequest TRANSACTION) None true w userRejectedRequest).
    reflexivity.
  - apply (proj2 C10_rejection_consumes_no_id ops (boot blank)). reflexivity.
Defined.

(* ===================================================================== *)
(** * The admission gate *)
(* ===================================================================== *)

(** C3. A TRANSACTION, SIGN_MSG or SIGN_TYPED_DATA request for an account
    whose wallet cannot sign is rejected at once with the user-rejected
    provider error (code 4001), and the world is left as it was: the
    queue, the session store, the id counter and the registry are
    untouched. *)
Theorem C3_unsigning_wallet_rejected
    env request ctx waitCompleted w a account wallet :
  new_type request = TRANSACTION \/ new_type request = SIGN_MSG \/
    new_type request = SIGN_TYPED_DATA ->
  new_accountId request = AccOne a ->
  getChainAccount env a = Some account ->
  getWallet env (acc_masterId account) = Some wallet ->
  canWalletSign env (wal_type wallet) = false ->
  requestConsent env request ctx waitCompleted w = (w, Throw userRejectedRequest) /\
  consentRequests (fst (requestConsent env request ctx waitCompleted w))
    = consentRequests w /\
  sessionStore (fst (requestConsent env request ctx waitCompleted w))
    = sessionStore w /\
  err_code userRejectedRequest = Some 4001%Z /\
  isUserRejection userRejectedRequest = true.
Proof.
  intros Hty Hacc Haccount Hwallet Hsign.
  assert (Hgate : admissionGate env request = Throw userRejectedRequest).
  { unfold admissionGate.
    assert (Hneeds : needsSigner (new_type request) = true)
      by (destruct Hty as [->|[->| ->]]; reflexivity).
    rewrite Hneeds, Hacc, Haccount. simpl. rewrite Hwallet. simpl.
    now rewrite Hsign. }
  assert (Hrc : requestConsent env request ctx waitCompleted w
                = (w, Throw userRejectedRequest))
    by (unfold requestConsent; now rewrite Hgate).
  rewrite Hrc. simpl. repeat split; reflexivity.
Qed.

Lemma C3_witness :
  let w := run [OpRequestConsent signingEnv (sampleRequest SIGN_MSG) None true]
             (boot blank) in
  canWalletSign watchOnlyEnv "watch" = false /\
  requestConsent watchOnlyEnv (sampleRequest TRANSACTION) None true w
  = (w, Throw userRejectedRequest).
Proof.
  intros w. split; [reflexivity|].
  apply (C3_unsigning_wallet_rejected watchOnlyEnv (sampleRequest TRANSACTION)
           None true w 7%Z (mkAccount 7 1) (mkWallet 1 "watch")); try reflexivity.
  left; reflexivity.
Defined.

(* ===================================================================== *)
(** * Bulk clear *)
(* ===================================================================== *)

Lemma map_get_filter (g : Z -> bool) k m :
  map_get k (filter (fun e => g (fst e)) m)
  = if g k then map_get k m else None.
Proof.
  unfold map_get. induction m as [|a m IH]; simpl.
  - now destruct (g k).
  - destruct (g (fst a)) eqn:Hg; simpl.
    + destruct (fst a =? k)%Z eqn:Hk.
      * apply Z.eqb_eq in Hk. rewrite <- Hk, Hg. reflexivity.
      * exact IH.
    + destruct (fst a =? k)%Z eqn:Hk.
      * apply Z.eqb_eq in Hk. rewrite <- Hk, Hg in *. exact IH.
      * exact IH.
Qed.

Lemma removedSet_has ty q r :
  NoDup (map id q) -> In r q ->
  set_has (map id (removedOf ty q)) (id r)
  = match ty with
    | Some t => ConsentType_eqb (type r) t
    | None => true
    end.
Proof.
  intros Hnd Hin. destruct ty as [t|]; simpl.
  - destruct (ConsentType_eqb (type r) t) eqn:Ht.
    + apply set_has_In. apply in_map. apply filter_In. tauto.
    + apply not_true_is_false. intros Hhas. apply set_has_In in Hhas.
      apply in_map_iff in Hhas. destruct Hhas as (x & Hid & Hx).
      apply filter_In in Hx. destruct Hx as [Hx Hxt].
      assert (x = r) by (apply (NoDup_map_inj id q); auto).
      subst x. congruence.
  - apply set_has_In. now apply in_map.
Qed.

Lemma removedOf_In ty q r :
  In r (removedOf ty q) <->
  In r q /\ match ty with
            | Some t => type r = t
            | None => True
            end.
Proof.
  destruct ty as [t|]; simpl.
  - rewrite filter_In, ConsentType_eqb_eq. tauto.
  - tauto.
Qed.

Lemma clearRequests_queue ty w :
  NoDup (map id (consentRequests w)) ->
  consentRequests (clearRequests ty w)
  = match ty with
    | Some t => filter (fun r => negb (ConsentType_eqb (type r) t))
                  (consentRequests w)
    | None => []
    end.
Proof.
  intros Hnd. unfold clearRequests. wsimpl.
  destruct ty as [t|].
  - apply filter_ext_in. intros r Hin.
    now rewrite (removedSet_has (Some t) _ r Hnd Hin).
  - apply filter_nothing. intros r Hin.
    now rewrite (removedSet_has None _ r Hnd Hin).
Qed.

(** C5. [clearRequests(type)] takes out of the queue exactly the requests
    of the type (all of them when the type is left out) and persists the
    rest; every promise still waiting for a removed request is rejected
    with the user-rejected error and leaves the registry; a request of
    another type stays in the queue and its promise stays registered and
    unsettled. On the queue A (TRANSACTION), B (SIGN_MSG), C (TRANSACTION)
    clearing TRANSACTION leaves B, rejects the promises of A and C and
    keeps the promise of B. *)
Theorem C5_clearRequests_by_type :
  (forall ops ty,
     let w := run ops (boot blank) in
     let w' := clearRequests ty w in
     consentRequests w'
     = match ty with
       | Some t => filter (fun r => negb (ConsentType_eqb (type r) t))
                     (consentRequests w)
       | None => []
       end /\
     sessionStore w' = Some (consentRequests w') /\
     (forall r h,
        In r (removedOf ty (consentRequests w)) ->
        map_get (id r) (waits w) = Some h ->
        In (h, Rejected userRejectedRequest) (settlements w') /\
        map_get (id r) (waits w') = None /\
        timesSettled h w' = 1%nat) /\
     (forall r,
        In r (consentRequests w) ->
        ~ In r (removedOf ty (consentRequests w)) ->
        In r (consentRequests w') /\
        map_get (id r) (waits w') = map_get (id r) (waits w) /\
        (forall h, map_get (id r) (waits w) = Some h ->
                   timesSettled h w' = O))) /\
  (forall w A B C hA hB hC,
     consentRequests w = [A; B; C] ->
     type A = TRANSACTION -> type B = SIGN_MSG -> type C = TRANSACTION ->
     id A <> id B -> id C <> id B ->
     waits w = [(id A, hA); (id B, hB); (id C, hC)] ->
     consentRequests (clearRequests (Some TRANSACTION) w) = [B] /\
     settlements (clearRequests (Some TRANSACTION) w)
     = settlements w ++ [(hA, Rejected userRejectedRequest);
                         (hC, Rejected userRejectedRequest)] /\
     waits (clearRequests (Some TRANSACTION) w) = [(id B, hB)]).
Proof.
  split.
  - intros ops ty w w'.
    assert (Hq : QueueOk w) by apply QueueOk_run, QueueOk_boot_blank.
    assert (Hh : HandlesOk w)
      by apply HandlesOk_run, HandlesOk_boot, HandlesOk_blank.
    assert (Hh' : HandlesOk w') by now apply HandlesOk_clear.
    pose proof (ids_distinct _ Hq) as Hnd.
    assert (Hwaits : forall k,
               map_get k (waits w')
               = if negb (set_has (map id (removedOf ty (consentRequests w))) k)
                 then map_get k (waits w) else None).
    { intros k. subst w'. unfold clearRequests. wsimpl.
      apply (map_get_filter
               (fun k => negb (set_has (map id (removedOf ty (consentRequests w))) k))). }
    split; [now apply clearRequests_queue|].
    split; [subst w'; unfold clearRequests; wsimpl; reflexivity|].
    split.
    + intros r h Hr Hget.
      assert (Hhas : set_has (map id (removedOf ty (consentRequests w))) (id r) = true)
        by (apply set_has_In; now apply in_map).
      assert (Hin : In (h, Rejected userRejectedRequest) (settlements w')).
      { subst w'. unfold clearRequests. wsimpl. apply in_or_app. right.
        apply in_map_iff. exists (id r, h). split; [reflexivity|].
        apply filter_In. split; [now apply map_get_In | exact Hhas]. }
      split; [exact Hin|]. split.
      * rewrite Hwaits, Hhas. reflexivity.
      * apply Nat.le_antisymm.
        -- apply settled_at_most_once, (settled_once _ Hh').
        -- eapply settled_count. exact Hin.
    + intros r Hin Hkeep.
      assert (Hhas : set_has (map id (removedOf ty (consentRequests w))) (id r) = false).
      { rewrite (removedSet_has ty _ r Hnd Hin).
        destruct ty as [t|].
        - apply ConsentType_eqb_neq. intros Ht. apply Hkeep.
          apply removedOf_In. tauto.
        - exfalso. apply Hkeep. now apply removedOf_In. }
      split; [|split].
      * subst w'. unfold clearRequests. wsimpl. apply filter_In.
        split; [assumption | now rewrite Hhas].
      * rewrite Hwaits, Hhas. reflexivity.
      * intros h Hget. apply unsettled_count.
        assert (Hget' : map_get (id r) (waits w') = Some h)
          by (rewrite Hwaits, Hhas; exact Hget).
        exact (waiting_unsettled _ Hh' _ (map_get_In _ _ _ Hget')).
  - intros w A B C hA hB hC Hq HA HB HC HAB HCB Hw.
    unfold clearRequests. wsimpl. rewrite Hq, Hw. simpl.
    rewrite HA, HB, HC. simpl. unfold set_has. simpl.
    rewrite !Z.eqb_refl. simpl.
    apply Z.eqb_neq in HAB, HCB. rewrite HAB, HCB. simpl.
    rewrite orb_true_r. simpl. repeat split; reflexivity.
Qed.

Lemma C5_witness :
  let A := withId (sampleRequest TRANSACTION) 0 in
  let B := withId (sampleRequest SIGN_MSG) 1 in
  let C := withId (sampleRequest TRANSACTION) 2 in
  let w := mkWorld [A; B; C] [(0%Z, 0%nat); (1%Z, 1%nat); (2%Z, 2%nat)] 3
             (Some [A; B; C]) (Some 3%nat) 3 [] [] 0 [] in
  let ops := [OpRequestConsent signingEnv (sampleRequest TRANSACTION) None true;
              OpRequestConsent signingEnv (sampleRequest SIGN_MSG) None true;
              OpRequestConsent signingEnv (sampleRequest TRANSACTION) None true] in
  (consentRequests (clearRequests (Some TRANSACTION) w) = [B] /\
   settlements (clearRequests (Some TRANSACTION) w)
   = settlements w ++ [(0%nat, Rejected userRejectedRequest);
                       (2%nat, Rejected userRejectedRequest)] /\
   waits (clearRequests (Some TRANSACTION) w) = [(id B, 1%nat)]) /\
  (In C (removedOf (Some TRANSACTION) (consentRequests (run ops (boot blank)))) /\
   map_get (id C) (waits (run ops (boot blank))) = Some 2%nat /\
   In (2%nat, Rejected userRejectedRequest)
     (settlements (clearRequests (Some TRANSACTION) (run ops (boot blank)))) /\
   map_get (id C)
     (waits (clearRequests (Some TRANSACTION) (run ops (boot blank)))) = None /\
   timesSettled 2 (clearRequests (Some TRANSACTION) (run ops (boot blank))) = 1%nat).
Proof.
  intros A B C w ops. split.
  - apply (proj2 C5_clearRequests_by_type w A B C 0%nat 1%nat 2%nat);
      try reflexivity; discriminate.
  - assert (Hin : In C (removedOf (Some TRANSACTION)
                          (consentRequests (run ops (boot blank)))))
      by (vm_compute; right; left; reflexivity).
    assert (Hget : map_get (id C) (waits (run ops (boot blank))) = Some 2%nat)
      by (vm_compute; reflexivity).
    split; [exact Hin|]. split; [exact Hget|].
    destruct (proj1 C5_clearRequests_by_type ops (Some TRANSACTION))
      as (_ & _ & Hremoved & _).
    exact (Hremoved C 2%nat Hin Hget).
Defined.

(* ===================================================================== *)
(** * Settlement by [processRequest] *)
(* ===================================================================== *)

Lemma processRequest_present env req approve w :
  (exists r, In r (consentRequests w) /\ id r = id req) ->
  let w' := fst (processRequest env req approve w) in
  snd (processRequest env req approve w) = Ok tt /\
  (exists before x after,
     consentRequests w = before ++ x :: after /\
     id x = id req /\
     (forall y, In y before -> id y <> id req) /\
     consentRequests w' = before ++ after) /\
  sessionStore w' = Some (consentRequests w') /\
  waits w' = map_delete (id req) (waits w) /\
  settlements w' = settlements w ++ settledBy req (verdict env req approve w) w.
Proof.
  intros (r & Hin & Hid) w'. subst w'. rewrite processRequest_eq.
  destruct (beforePost_frame env req approve w) as (Hq & Hw & _ & _ & _ & Hse & _).
  destruct (findIndex (fun r => (id req =? id r)%Z)
              (consentRequests (beforePost env req approve w)))
    as [index|] eqn:Hfind.
  - destruct (findIndex_split _ _ _ Hfind)
      as (before & x & after & Hsplit & Hx & Hbefore & Hrem).
    apply Z.eqb_eq in Hx.
    assert (Hpost : forall resolveData rejectData,
               let s := match rejectData with
                        | Some e => Rejected (reviveError e)
                        | None => Resolved resolveData
                        end in
               let p := processRequestPost req resolveData rejectData
                          (beforePost env req approve w) in
               snd p = Ok tt /\
               (exists before x after,
                  consentRequests w = before ++ x :: after /\
                  id x = id req /\
                  (forall y, In y before -> id y <> id req) /\
                  consentRequests (fst p) = before ++ after) /\
               sessionStore (fst p) = Some (consentRequests (fst p)) /\
               waits (fst p) = map_delete (id req) (waits w) /\
               settlements (fst p) = settlements w ++ settledBy req s w).
    { intros resolveData rejectData s p.
      destruct (processRequestPost_found req resolveData rejectData _ _ Hfind)
        as (Hres & Hq' & Hst' & Hw' & Hse' & _).
      fold p in Hres, Hq', Hst', Hw', Hse'. fold s in Hse'.
      split; [exact Hres|]. split.
      - exists before, x, after. rewrite <- Hq. split; [exact Hsplit|].
        split; [now symmetry|]. split.
        + intros y Hy Heq. specialize (Hbefore y Hy). apply Z.eqb_neq in Hbefore.
          congruence.
        + now rewrite Hq', Hrem.
      - split; [exact Hst'|]. rewrite Hw', Hse', Hw, Hse. split; [reflexivity|].
        unfold settledBy. now rewrite Hw. }
    unfold verdict.
    destruct (snd (attempt env req approve w)) as [response|err]; apply Hpost.
  - exfalso. pose proof (proj1 (findIndex_none _ _) Hfind r) as Hr.
    rewrite Hq in Hr. specialize (Hr Hin). apply Z.eqb_neq in Hr. congruence.
Qed.

(** When the [try] block ends with a result or with a thrown error
    object: a [processRequest] on a request that is in the queue
    succeeds, takes the entry out of the queue and persists the queue;
    with a result the waiting promise is resolved with it, with a thrown
    error object (the approver said no, signing failed, the dispatcher
    failed) the promise is rejected; in a running service no entry with
    the id is left in the queue. *)
Lemma processRequest_removes_when_objects_thrown :
  (forall env req approve w,
     (exists r, In r (consentRequests w) /\ id r = id req) ->
     let w' := fst (processRequest env req approve w) in
     snd (processRequest env req approve w) = Ok tt /\
     (exists before x after,
        consentRequests w = before ++ x :: after /\
        id x = id req /\
        (forall y, In y before -> id y <> id req) /\
        consentRequests w' = before ++ after) /\
     sessionStore w' = Some (consentRequests w') /\
     (forall h, map_get (id req) (waits w) = Some h ->
        map_get (id req) (waits w') = None /\
        match snd (attempt env req approve w) with
        | Ok response => settlements w' = settlements w ++ [(h, Resolved response)]
        | Throw err =>
            settlements w'
            = settlements w ++ [(h, Rejected (reviveError (serializeError err)))]
        end)) /\
  (forall env req w,
     snd (attempt env req false w) = Throw userRejectedRequest) /\
  (forall ops env req approve r,
     In r (consentRequests
             (fst (processRequest env req approve (run ops (boot blank))))) ->
     id r <> id req).
Proof.
  split; [|split].
  - intros env req approve w Hex w'.
    destruct (processRequest_present env req approve w Hex)
      as (Hres & Hsplit & Hst & Hw & Hse).
    fold w' in Hsplit, Hst, Hw, Hse.
    split; [exact Hres|]. split; [exact Hsplit|]. split; [exact Hst|].
    intros h Hget. split.
    + rewrite Hw. unfold map_delete.
      rewrite (map_get_filter (fun k => negb (k =? id req)%Z)).
      now rewrite Z.eqb_refl.
    + unfold settledBy, verdict in Hse. rewrite Hget in Hse.
      destruct (snd (attempt env req approve w)); exact Hse.
  - intros env req w. reflexivity.
  - intros ops env req approve r Hin.
    assert (Hok : QueueOk (run ops (boot blank)))
      by apply QueueOk_run, QueueOk_boot_blank.
    exact (processRequest_removes_id env req approve _ (ids_distinct _ Hok) r Hin).
Qed.

Example processRequest_removes_example :
  let w := run [OpRequestConsent signingEnv (sampleRequest TRANSACTION) None true]
             (boot blank) in
  let req := withId (sampleRequest TRANSACTION) 0 in
  let failed := fst (processRequest (failingSendEnv (newError "nonce too low"))
                       req true w) in
  (exists r, In r (consentRequests w) /\ id r = id req) /\
  snd (processRequest (failingSendEnv (newError "nonce too low")) req true w)
  = Ok tt /\
  consentRequests failed = [] /\
  sessionStore failed = Some (consentRequests failed) /\
  settlements failed
  = [(0%nat, Rejected (reviveError (serializeError (newError "nonce too low"))))].
Proof.
  intros w req failed.
  assert (Hex : exists r, In r (consentRequests w) /\ id r = id req)
    by (exists req; split; [left|]; reflexivity).
  split; [exact Hex|].
  destruct (proj1 processRequest_removes_when_objects_thrown
              (failingSendEnv (newError "nonce too low")) req true w Hex)
    as (Hres & _ & Hst & Hsettle).
  split; [exact Hres|]. split; [vm_compute; reflexivity|]. split; [exact Hst|].
  destruct (Hsettle 0%nat) as [_ Hse]; [vm_compute; reflexivity|].
  exact Hse.
Defined.

(* ===================================================================== *)
(** * Watching an asset *)
(* ===================================================================== *)

Lemma find_app_single {A} (f : A -> bool) (l : list A) (x : A) :
  find f (l ++ [x])
  = match find f l with
    | Some y => Some y
    | None => if f x then Some x else None
    end.
Proof.
  induction l as [|a l IH]; simpl; [reflexivity|].
  destruct (f a); [reflexivity | exact IH].
Qed.

Lemma find_map_stable {A} (f : A -> bool) (g : A -> A) (l : list A) :
  (forall x, f (g x) = f x) ->
  find f (map g l) = option_map g (find f l).
Proof.
  intros Hfg. induction l as [|a l IH]; simpl; [reflexivity|].
  rewrite Hfg. destruct (f a); [reflexivity | exact IH].
Qed.

Lemma tokenMatches_created account tk i inf :
  tokenMatches account tk (mkToken i (acc_id account) tk SHOW inf) = true.
Proof.
  unfold tokenMatches. simpl. now rewrite Z.eqb_refl, String.eqb_refl.
Qed.

Lemma getToken_addToken account tk inf tbl :
  getToken account tk tbl = None ->
  getToken account tk (addToken account tk inf tbl)
  = Some (mkToken (freshTokenId tbl) (acc_id account) tk SHOW inf) /\
  List.length (filter (tokenMatches account tk) (addToken account tk inf tbl))
  = 1%nat.
Proof.
  intros Hnone. unfold getToken, addToken in *. split.
  - rewrite find_app_single, Hnone. now rewrite tokenMatches_created.
  - rewrite filter_app. simpl. rewrite tokenMatches_created.
    rewrite (filter_nothing _ tbl); [reflexivity|].
    intros x Hx. exact (find_none _ _ Hnone x Hx).
Qed.

Lemma getToken_setTokenVisibility account tk tbl existing :
  getToken account tk tbl = Some existing ->
  getToken account tk (setTokenVisibility (tok_id existing) SHOW tbl)
  = Some (mkToken (tok_id existing) (tok_account existing) (tok_token existing)
            SHOW (tok_info existing)).
Proof.
  intros Hsome. unfold getToken, setTokenVisibility in *.
  rewrite find_map_stable.
  - rewrite Hsome. simpl. now rewrite Z.eqb_refl.
  - intros x. destruct (tok_id x =? tok_id existing)%Z; reflexivity.
Qed.

Lemma processRequestIntermediate_watch env req signedTx txHash w network accounts :
  type req = WATCH_ASSET ->
  lookupTarget env req = Ok (network, accounts) ->
  processRequestIntermediate env req signedTx txHash w
  = dispatchWatchAsset req (firstAccount accounts) w.
Proof.
  intros Hty Hlookup. unfold processRequestIntermediate.
  now rewrite Hty, Hlookup.
Qed.

(** C7. The WATCH_ASSET dispatch for the account and the token of the
    request: with a visible entry it fails with the invalid-request error
    and changes nothing; with a hidden entry it makes the entry visible;
    with no entry it creates one. A second dispatch after a creating
    first one fails with the invalid-request error and leaves the single
    entry as it is. *)
Theorem C7_watch_asset_dispatch
    env req signedTx txHash w network accounts acc :
  type req = WATCH_ASSET ->
  lookupTarget env req = Ok (network, accounts) ->
  firstAccount accounts = Some acc ->
  let tk := token (payload req) in
  let out := processRequestIntermediate env req signedTx txHash w in
  (forall existing,
     getToken acc tk (tokens w) = Some existing ->
     tok_visible existing = SHOW ->
     out = (w, Throw (invalidRequest "Token already exists"))) /\
  (forall existing,
     getToken acc tk (tokens w) = Some existing ->
     tok_visible existing <> SHOW ->
     snd out = Ok RespUndefined /\
     tokens (fst out) = setTokenVisibility (tok_id existing) SHOW (tokens w) /\
     List.length (tokens (fst out)) = List.length (tokens w) /\
     exists shown,
       getToken acc tk (tokens (fst out)) = Some shown /\
       tok_visible shown = SHOW /\ tok_id shown = tok_id existing) /\
  (getToken acc tk (tokens w) = None ->
     snd out = Ok RespUndefined /\
     tokens (fst out)
     = tokens w ++ [mkToken (freshTokenId (tokens w)) (acc_id acc) tk SHOW
                      (info (payload req), balance (payload req))] /\
     processRequestIntermediate env req signedTx txHash (fst out)
     = (fst out, Throw (invalidRequest "Token already exists")) /\
     List.length (filter (tokenMatches acc tk) (tokens (fst out))) = 1%nat).
Proof.
  intros Hty Hlookup Hacc tk out.
  assert (Hout : forall w0, processRequestIntermediate env req signedTx txHash w0
                            = dispatchWatchAsset req (Some acc) w0).
  { intros w0. rewrite <- Hacc.
    now apply processRequestIntermediate_watch with (network := network). }
  subst out. rewrite Hout. unfold dispatchWatchAsset. fold tk.
  split; [|split].
  - intros existing Hget Hvis. now rewrite Hget, Hvis.
  - intros existing Hget Hvis. rewrite Hget.
    assert (Hflip : forall r : World * Res Response,
               r = (set_tokens (setTokenVisibility (tok_id existing) SHOW (tokens w)) w,
                    Ok RespUndefined) ->
               snd r = Ok RespUndefined /\
               tokens (fst r) = setTokenVisibility (tok_id existing) SHOW (tokens w) /\
               List.length (tokens (fst r)) = List.length (tokens w) /\
               exists shown,
                 getToken acc tk (tokens (fst r)) = Some shown /\
                 tok_visible shown = SHOW /\ tok_id shown = tok_id existing).
    { intros r ->. wsimpl. split; [reflexivity|]. split; [reflexivity|]. split.
      - unfold setTokenVisibility. apply length_map.
      - eexists. split; [now apply getToken_setTokenVisibility|].
        split; reflexivity. }
    destruct (tok_visible existing); [apply Hflip; reflexivity | congruence
                                     | apply Hflip; reflexivity].
  - intros Hnone. rewrite Hnone. wsimpl.
    destruct (getToken_addToken acc tk (info (payload req), balance (payload req))
                (tokens w) Hnone) as [Hget Hcount].
    split; [reflexivity|]. split; [reflexivity|]. split; [|exact Hcount].
    rewrite Hout. unfold dispatchWatchAsset. fold tk. wsimpl.
    now rewrite Hget.
Qed.

Lemma C7_witness :
  let req := withId (watchRequest "0xA0b8") 0 in
  let acc := mkAccount 7 1 in
  let first := processRequestIntermediate signingEnv req None None blank in
  getToken acc (token (payload req)) (tokens blank) = None /\
  snd first = Ok RespUndefined /\
  processRequestIntermediate signingEnv req None None (fst first)
  = (fst first, Throw (invalidRequest "Token already exists")) /\
  List.length (filter (tokenMatches acc (token (payload req))) (tokens (fst first)))
  = 1%nat.
Proof.
  intros req acc first. split; [reflexivity|].
  destruct (C7_watch_asset_dispatch signingEnv req None None blank
              (Some (mkNetwork 1 EVM)) (Some [acc]) acc
              eq_refl eq_refl eq_refl) as (_ & _ & Hcreate).
  destruct (Hcreate eq_refl) as (Hres & _ & Hagain & Hcount).
  split; [exact Hres|]. split; [exact Hagain | exact Hcount].
Defined.

(* ===================================================================== *)
(** * The failure notification *)
(* ===================================================================== *)

Lemma attempt_notifications env req approve w :
  notifications (fst (attempt env req approve w)) = notifications w.
Proof.
  destruct (attempt_frame env req approve w) as [tbl ->]. reflexivity.
Qed.

Lemma processRequestPost_notifications req resolveData rejectData w :
  notifications (fst (processRequestPost req resolveData rejectData w))
  = notifications w.
Proof.
  destruct (findIndex (fun r => (id req =? id r)%Z) (consentRequests w))
    as [index|] eqn:Hfind.
  - now destruct (processRequestPost_found req resolveData rejectData _ _ Hfind)
      as (_ & _ & _ & _ & _ & _ & _ & Hn & _).
  - now rewrite (processRequestPost_missing _ _ _ _ Hfind).
Qed.

Lemma processRequest_notifications env req approve w :
  notifications (fst (processRequest env req approve w))
  = notifications w ++
    match snd (attempt env req approve w) with
    | Ok _ => []
    | Throw err =>
        if shouldNotify req err
        then [("Failed transaction",
               ("Transaction encountered an error. (" ++ err_text err ++ ")")%string)]
        else []
    end.
Proof.
  rewrite processRequest_eq.
  assert (Hpost : forall resolveData rejectData,
             notifications
               (fst (processRequestPost req resolveData rejectData
                       (beforePost env req approve w)))
             = notifications (beforePost env req approve w))
    by (intros; apply processRequestPost_notifications).
  pose proof (attempt_notifications env req approve w) as Hatt.
  unfold beforePost in *.
  destruct (attempt env req approve w) as [w1 [response|err]]; simpl in *;
    rewrite Hpost.
  - now rewrite Hatt, app_nil_r.
  - destruct (shouldNotify req err); wsimpl; now rewrite Hatt, ?app_nil_r.
Qed.

(* ===================================================================== *)
(** * Requests nobody waits for *)
(* ===================================================================== *)

Lemma map_get_set_ne k k' h m :
  k <> k' -> map_get k (map_set k' h m) = map_get k m.
Proof.
  intros Hne. unfold map_get. induction m as [|a m IH]; simpl.
  - destruct (k' =? k)%Z eqn:Hk; [apply Z.eqb_eq in Hk; congruence | reflexivity].
  - destruct (fst a =? k')%Z eqn:Ha; simpl.
    + apply Z.eqb_eq in Ha.
      destruct (k' =? k)%Z eqn:Hk; [apply Z.eqb_eq in Hk; congruence|].
      destruct (fst a =? k)%Z eqn:Hak; [apply Z.eqb_eq in Hak; congruence|].
      reflexivity.
    + destruct (fst a =? k)%Z; [reflexivity | exact IH].
Qed.

Lemma map_get_delete_None k k' m :
  map_get k m = None -> map_get k (map_delete k' m) = None.
Proof.
  intros Hnone. unfold map_delete.
  rewrite (map_get_filter (fun x => negb (x =? k')%Z)).
  now destruct (negb (k =? k')%Z).
Qed.

Lemma processRequest_waits env req approve w k :
  map_get k (waits w) = None ->
  map_get k (waits (fst (processRequest env req approve w))) = None.
Proof.
  intros Hnone. rewrite processRequest_eq.
  destruct (beforePost_frame env req approve w) as (_ & Hw & _).
  assert (Hpost : forall resolveData rejectData,
             map_get k (waits (fst (processRequestPost req resolveData rejectData
                                      (beforePost env req approve w)))) = None).
  { intros resolveData rejectData.
    destruct (findIndex (fun r => (id req =? id r)%Z)
                (consentRequests (beforePost env req approve w)))
      as [index|] eqn:Hfind.
    - destruct (processRequestPost_found req resolveData rejectData _ _ Hfind)
        as (_ & _ & _ & Hw' & _).
      rewrite Hw', Hw. now apply map_get_delete_None.
    - rewrite (processRequestPost_missing _ _ _ _ Hfind). simpl. now rewrite Hw. }
  destruct (snd (attempt env req approve w)); apply Hpost.
Qed.

Lemma no_handle_step o w k :
  isRestart o = false ->
  (k < nextId w)%Z -> map_get k (waits w) = None ->
  (k < nextId (step o w))%Z /\ map_get k (waits (step o w)) = None.
Proof.
  intros Hr Hlt Hnone. split.
  - destruct (issuedBy_step o w Hr) as [[_ ->]|[_ ->]]; lia.
  - destruct o as [env request ctx waitCompleted|env req approve|ty|];
      simpl; try discriminate.
    + destruct (snd (requestConsent env request ctx waitCompleted w))
        as [a|e] eqn:Hres.
      * assert (Hgate : admissionGate env request = Ok tt).
        { unfold requestConsent in Hres.
          destruct (admissionGate env request) as [[]|e];
            [reflexivity|discriminate]. }
        destruct (requestConsent_fields env request ctx waitCompleted w Hgate)
          as (_ & _ & _ & Hw & _).
        rewrite Hw. destruct waitCompleted; [|assumption].
        rewrite map_get_set_ne; [assumption | lia].
      * now destruct (requestConsent_rejected _ _ _ _ _ _ Hres) as [_ ->].
    + now apply processRequest_waits.
    + unfold clearRequests. wsimpl.
      rewrite (map_get_filter
                 (fun x => negb (set_has (map id (removedOf ty (consentRequests w))) x))).
      now destruct (negb (set_has (map id (removedOf ty (consentRequests w))) k)).
Qed.

Lemma no_handle_run ops w k :
  forallb (fun o => negb (isRestart o)) ops = true ->
  (k < nextId w)%Z -> map_get k (waits w) = None ->
  map_get k (waits (run ops w)) = None.
Proof.
  revert w. induction ops as [|o ops IH]; intros w Hno Hlt Hnone; [assumption|].
  simpl in *. apply andb_true_iff in Hno. destruct Hno as [Ho Hno].
  apply negb_true_iff in Ho.
  destruct (no_handle_step o w k Ho Hlt Hnone) as [Hlt' Hnone'].
  now apply IH.
Qed.

Lemma processRequest_unwaited env req approve w :
  map_get (id req) (waits w) = None ->
  settlements (fst (processRequest env req approve w)) = settlements w.
Proof.
  intros Hnone. rewrite processRequest_eq.
  destruct (beforePost_frame env req approve w) as (_ & Hw & _ & _ & _ & Hse & _).
  assert (Hpost : forall resolveData rejectData,
             settlements (fst (processRequestPost req resolveData rejectData
                                 (beforePost env req approve w)))
             = settlements w).
  { intros resolveData rejectData.
    destruct (findIndex (fun r => (id req =? id r)%Z)
                (consentRequests (beforePost env req approve w)))
      as [index|] eqn:Hfind.
    - destruct (processRequestPost_found req resolveData rejectData _ _ Hfind)
        as (_ & _ & _ & _ & Hse' & _).
      rewrite Hse', Hse. unfold settledBy. rewrite Hw, Hnone. apply app_nil_r.
    - rewrite (processRequestPost_missing _ _ _ _ Hfind). exact Hse. }
  destruct (snd (attempt env req approve w)); apply Hpost.
Qed.

(** C9. A [requestConsent] with [waitCompleted = false] that passes the
    gate queues and persists the request under the next id, registers no
    promise and returns at once; as long as the service runs, [waits] has
    no entry for the id, so that a later [processRequest] for it invokes
    no callback and a [clearRequests] rejects only promises registered
    under other ids. *)
Theorem C9_unwaited_request_has_no_handle :
  forall ops env request ctx,
    let w := run ops (boot blank) in
    let req := withId request (nextId w) in
    let out := requestConsent env request ctx false w in
    admissionGate env request = Ok tt ->
    snd out = Ok (Returned req) /\
    In req (consentRequests (fst out)) /\
    sessionStore (fst out) = Some (consentRequests (fst out)) /\
    nextId (fst out) = (nextId w + 1)%Z /\
    waits (fst out) = waits w /\
    promiseCount (fst out) = promiseCount w /\
    settlements (fst out) = settlements w /\
    forall later,
      forallb (fun o => negb (isRestart o)) later = true ->
      let w2 := run later (fst out) in
      map_get (id req) (waits w2) = None /\
      (forall env' approve' req',
         id req' = id req ->
         settlements (fst (processRequest env' req' approve' w2)) = settlements w2) /\
      (forall ty,
         exists hit,
           settlements (clearRequests ty w2)
           = settlements w2 ++
             map (fun e => (snd e, Rejected userRejectedRequest)) hit /\
           forall e, In e hit -> In e (waits w2) /\ fst e <> id req).
Proof.
  intros ops env request ctx w req out Hgate.
  assert (Hok : QueueOk w) by apply QueueOk_run, QueueOk_boot_blank.
  destruct (requestConsent_fields env request ctx false w Hgate)
    as (Hq & Hn & Hst & Hw & Hpc & Hse & _).
  fold out in Hq, Hn, Hst, Hw, Hpc, Hse. fold req in Hq.
  assert (Hres : snd out = Ok (Returned req)).
  { subst out. unfold requestConsent. now rewrite Hgate. }
  split; [exact Hres|].
  split; [rewrite Hq; apply enqueue_In; now left|].
  split; [exact Hst|]. split; [exact Hn|]. split; [exact Hw|].
  split; [exact Hpc|]. split; [exact Hse|].
  intros later Hno w2.
  assert (Hnone0 : map_get (id req) (waits (fst out)) = None).
  { rewrite Hw. apply map_get_None. intros Hin. apply in_map_iff in Hin.
    destruct Hin as (e & He & Hin). pose proof (keys_below _ Hok e Hin) as Hlt.
    simpl in He. lia. }
  assert (Hnone : map_get (id req) (waits w2) = None).
  { apply no_handle_run; [assumption | | assumption]. rewrite Hn. simpl. lia. }
  split; [exact Hnone|]. split.
  - intros env' approve' req' Hid. apply processRequest_unwaited.
    now rewrite Hid.
  - intros ty.
    exists (filter (fun e => set_has (map id (removedOf ty (consentRequests w2))) (fst e))
              (waits w2)).
    split; [unfold clearRequests; wsimpl; reflexivity|].
    intros e He. apply filter_In in He. destruct He as [He _].
    split; [assumption|]. intros Hkey. apply map_get_None in Hnone.
    apply Hnone. rewrite <- Hkey. now apply in_map.
Qed.

Lemma C9_witness :
  let w := run [OpRequestConsent signingEnv (sampleRequest TRANSACTION) None true]
             (boot blank) in
  let req := withId (sampleRequest SIGN_MSG) 1 in
  let out := requestConsent signingEnv (sampleRequest SIGN_MSG) None false w in
  let later := [OpRequestConsent signingEnv (sampleRequest SIGN_MSG) None true] in
  admissionGate signingEnv (sampleRequest SIGN_MSG) = Ok tt /\
  snd out = Ok (Returned req) /\
  waits (fst out) = waits w /\
  map_get (id req) (waits (run later (fst out))) = None /\
  settlements (fst (processRequest signingEnv req true (run later (fst out))))
  = settlements (run later (fst out)).
Proof.
  intros w req out later.
  assert (Hgate : admissionGate signingEnv (sampleRequest SIGN_MSG) = Ok tt)
    by reflexivity.
  split; [exact Hgate|].
  destruct (C9_unwaited_request_has_no_handle
              [OpRequestConsent signingEnv (sampleRequest TRANSACTION) None true]
              signingEnv (sampleRequest SIGN_MSG) None Hgate)
    as (Hres & _ & _ & _ & Hw & _ & _ & Hlater).
  split; [exact Hres|]. split; [exact Hw|].
  destruct (Hlater later eq_refl) as (Hnone & Hproc & _).
  split; [exact Hnone|].
  exact (Hproc signingEnv true req eq_refl).
Defined.

(* ===================================================================== *)
(** * The order of the queue *)
(* ===================================================================== *)

Lemma subseq_refl {A} (l : list A) : subseq l l.
Proof. induction l; [apply subseq_nil | now apply subseq_take]. Qed.

Lemma subseq_nil_l {A} (l : list A) : subseq [] l.
Proof. induction l; [apply subseq_nil | now apply subseq_skip]. Qed.

Lemma subseq_trans {A} (s m l : list A) :
  subseq s m -> subseq m l -> subseq s l.
Proof.
  intros Hsm Hml. revert s Hsm.
  induction Hml as [|x m l Hml IH|x m l Hml IH]; intros s Hsm.
  - assumption.
  - constructor. now apply IH.
  - inversion Hsm; subst.
    + apply subseq_skip. now apply IH.
    + apply subseq_take. now apply IH.
Qed.

Lemma subseq_In {A} (s l : list A) x : subseq s l -> In x s -> In x l.
Proof.
  induction 1 as [|y s l H IH|y s l H IH]; simpl; intros Hin.
  - assumption.
  - right. now apply IH.
  - destruct Hin as [->|Hin]; [now left | right; now apply IH].
Qed.

Lemma subseq_filter {A} (f : A -> bool) (l : list A) : subseq (filter f l) l.
Proof.
  induction l as [|a l IH]; simpl; [apply subseq_nil|].
  destruct (f a); [now apply subseq_take | now apply subseq_skip].
Qed.

Lemma subseq_app {A} (s1 l1 s2 l2 : list A) :
  subseq s1 l1 -> subseq s2 l2 -> subseq (s1 ++ s2) (l1 ++ l2).
Proof.
  induction 1 as [|x s l H IH|x s l H IH]; simpl; intros H2.
  - assumption.
  - apply subseq_skip. now apply IH.
  - apply subseq_take. now apply IH.
Qed.

Lemma subseq_remove_middle {A} (before after : list A) x :
  subseq (before ++ after) (before ++ x :: after).
Proof.
  apply subseq_app; [apply subseq_refl | apply subseq_skip, subseq_refl].
Qed.

(** A selection from a list with [r] put in either avoids [r] or goes
    through it. *)
Lemma subseq_insert {A} (s l1 l2 : list A) r :
  subseq s (l1 ++ r :: l2) ->
  subseq s (l1 ++ l2) \/
  exists s1 s2, s = s1 ++ r :: s2 /\ subseq s1 l1 /\ subseq s2 l2.
Proof.
  revert s. induction l1 as [|a l1 IH]; simpl; intros s H.
  - inversion H; subst.
    + now left.
    + right. exists [], s0. repeat split; [apply subseq_nil | assumption].
  - inversion H; subst.
    + destruct (IH _ H2) as [Hq|(s1 & s2 & -> & H1 & H2')].
      * left. now apply subseq_skip.
      * right. exists s1, s2. repeat split; [now apply subseq_skip | assumption].
    + destruct (IH _ H2) as [Hq|(s1 & s2 & -> & H1 & H2')].
      * left. now apply subseq_take.
      * right. exists (a :: s1), s2.
        repeat split; [now apply subseq_take | assumption].
Qed.

Lemma subseq_snoc {A} (s l : list A) x :
  subseq s (l ++ [x]) ->
  subseq s l \/ exists s', s = s' ++ [x] /\ subseq s' l.
Proof.
  intros H. destruct (subseq_insert _ _ _ _ H) as [Hq|(s1 & s2 & -> & H1 & H2)].
  - left. now rewrite app_nil_r in Hq.
  - right. inversion H2; subst. exists s1. split; [reflexivity | assumption].
Qed.

Lemma classic_type_present request q :
  (exists r, In r q /\ type r = type request) \/
  (forall r, In r q -> type r <> type request).
Proof.
  induction q as [|a q IH].
  - right. intros r [].
  - destruct (ConsentType_eq_dec (type a) (type request)) as [Heq|Hne].
    + left. exists a. split; [now left | assumption].
    + destruct IH as [(r & Hin & Hr)|Hno].
      * left. exists r. split; [now right | assumption].
      * right. intros r [<-|Hin]; [assumption | now apply Hno].
Qed.

(** Where [addRequest] puts a request, in one statement. *)
Lemma enqueue_shape request q :
  exists L R,
    q = L ++ R /\ enqueue request q = L ++ request :: R /\
    (forall y, In y R -> type y <> type request) /\
    ((R = [] /\ forall y, In y L -> type y <> type request) \/
     exists before x, L = before ++ [x] /\ type x = type request).
Proof.
  destruct (classic_type_present request q) as [Hex|Hno].
  - destruct (enqueue_present request q Hex)
      as (before & x & after & Hq & Hx & Hafter & Henq).
    exists (before ++ [x]), after. rewrite <- !app_assoc. simpl.
    repeat split; try assumption. right. now exists before, x.
  - exists q, []. rewrite app_nil_r. rewrite (enqueue_absent request q Hno).
    repeat split; try reflexivity; [intros y [] | left; split; [reflexivity | exact Hno]].
Qed.

Lemma grouped_subseq q q' : grouped q -> subseq q' q -> grouped q'.
Proof.
  intros Hg Hsub a b c Hs. apply (Hg a b c).
  exact (subseq_trans _ _ _ Hs Hsub).
Qed.

Lemma orderedWithinType_subseq q q' :
  orderedWithinType q -> subseq q' q -> orderedWithinType q'.
Proof.
  intros Ho Hsub a b Hs. apply (Ho a b).
  exact (subseq_trans _ _ _ Hs Hsub).
Qed.

Lemma subseq_single {A} (l : list A) x : In x l -> subseq [x] l.
Proof.
  induction l as [|a l IH]; simpl; [intros []|].
  intros [->|Hin].
  - apply subseq_take, subseq_nil_l.
  - apply subseq_skip. now apply IH.
Qed.

Lemma grouped_enqueue request q : grouped q -> grouped (enqueue request q).
Proof.
  intros Hg.
  destruct (enqueue_shape request q) as (L & R & Hq & -> & HR & Hshape).
  intros a b c Hs Hac.
  destruct (subseq_insert _ _ _ _ Hs) as [Hold|(s1 & s2 & Heq & H1 & H2)].
  - apply (Hg a b c); [now rewrite Hq | assumption].
  - destruct s1 as [|a0 [|b0 [|c0 s1]]]; simpl in Heq.
    + (* the new request is the first of the three *)
      injection Heq as Ha Hs2. subst a s2.
      exfalso. apply (HR c); [|now symmetry].
      apply (subseq_In _ _ _ H2). right. now left.
    + (* it is the second *)
      injection Heq as Ha Hb Hs2. subst a0 b s2.
      assert (Hc : In c R) by (apply (subseq_In _ _ _ H2); now left).
      exfalso. destruct Hshape as [[HRnil _]|(before & x & HL & Hx)].
      * rewrite HRnil in Hc. destruct Hc.
      * subst L. destruct (subseq_snoc _ _ _ H1) as [Hbefore|(s' & Hs' & _)].
        -- assert (Hsel : subseq [a; x; c] q).
           { rewrite Hq, <- app_assoc.
             apply (subseq_app [a] before ([x] ++ [c]) ([x] ++ R)); [assumption|].
             apply subseq_app; [apply subseq_refl | now apply subseq_single]. }
           pose proof (Hg _ _ _ Hsel Hac) as Hxa.
           apply (HR c Hc). congruence.
        -- destruct s' as [|y s']; simpl in Hs'; [|destruct s'; discriminate].
           injection Hs' as Hax. subst a. apply (HR c Hc). congruence.
    + (* it is the third *)
      injection Heq as Ha Hb Hc Hs2. subst a0 b0 c s2.
      destruct Hshape as [[_ HL]|(before & x & HL & Hx)].
      * exfalso. apply (HL a); [|assumption].
        apply (subseq_In _ _ _ H1). now left.
      * subst L. destruct (subseq_snoc _ _ _ H1) as [Hbefore|(s' & Hs' & _)].
        -- apply (Hg a b x); [|congruence].
           rewrite Hq, <- app_assoc.
           apply (subseq_app [a; b] before [x] ([x] ++ R)); [assumption|].
           apply subseq_take, subseq_nil_l.
        -- destruct s' as [|y [|z s']]; simpl in Hs'; try discriminate.
           ++ injection Hs' as Hy Hbx. subst y b. congruence.
           ++ injection Hs' as _ _ Hs'. destruct s'; discriminate.
    + injection Heq as _ _ _ Hrest. destruct s1; discriminate.
Qed.

Lemma orderedWithinType_enqueue request q :
  orderedWithinType q ->
  (forall y, In y q -> (id y < id request)%Z) ->
  orderedWithinType (enqueue request q).
Proof.
  intros Ho Hnew.
  destruct (enqueue_shape request q) as (L & R & Hq & -> & HR & _).
  intros a b Hs Hab.
  destruct (subseq_insert _ _ _ _ Hs) as [Hold|(s1 & s2 & Heq & H1 & H2)].
  - apply (Ho a b); [now rewrite Hq | assumption].
  - destruct s1 as [|a0 [|b0 s1]]; simpl in Heq.
    + injection Heq as Ha Hs2. subst a s2.
      exfalso. apply (HR b); [|now symmetry].
      apply (subseq_In _ _ _ H2). now left.
    + injection Heq as Ha Hb Hs2. subst a0 b s2.
      apply Hnew. rewrite Hq. apply in_or_app. left.
      apply (subseq_In _ _ _ H1). now left.
    + injection Heq as _ _ Hrest. destruct s1; discriminate.
Qed.

(** [processRequest] leaves the queue as it is or takes one entry out. *)
Lemma processRequest_queue env req approve w :
  subseq (consentRequests (fst (processRequest env req approve w)))
    (consentRequests w).
Proof.
  rewrite processRequest_eq.
  destruct (beforePost_frame env req approve w) as (Hq & _).
  assert (Hpost : forall resolveData rejectData,
             subseq (consentRequests
                       (fst (processRequestPost req resolveData rejectData
                               (beforePost env req approve w))))
               (consentRequests w)).
  { intros resolveData rejectData.
    destruct (findIndex (fun r => (id req =? id r)%Z)
                (consentRequests (beforePost env req approve w)))
      as [index|] eqn:Hfind.
    - destruct (processRequestPost_found req resolveData rejectData _ _ Hfind)
        as (_ & Hq' & _).
      destruct (findIndex_split _ _ _ Hfind)
        as (before & x & after & Hsplit & _ & _ & Hrem).
      rewrite Hq', Hrem, <- Hq, Hsplit. apply subseq_remove_middle.
    - rewrite (processRequestPost_missing _ _ _ _ Hfind). simpl.
      rewrite Hq. apply subseq_refl. }
  destruct (snd (attempt env req approve w)); apply Hpost.
Qed.

Lemma clearRequests_queue_subseq ty w :
  subseq (consentRequests (clearRequests ty w)) (consentRequests w).
Proof. unfold clearRequests. wsimpl. apply subseq_filter. Qed.

(** Induction over the runs of a started service. *)
Lemma run_invariant (P : World -> Prop) :
  P (boot blank) ->
  (forall o w, QueueOk w -> HandlesOk w -> P w -> P (step o w)) ->
  forall ops, P (run ops (boot blank)).
Proof.
  intros Hstart Hstep ops.
  assert (Hall : forall w, QueueOk w -> HandlesOk w -> P w ->
                           QueueOk (run ops w) /\ HandlesOk (run ops w) /\
                           P (run ops w)).
  { induction ops as [|o ops IH]; intros w Hq Hh Hp; [tauto|].
    simpl. apply IH.
    - now apply QueueOk_step.
    - now apply HandlesOk_step.
    - now apply Hstep. }
  apply Hall; [apply QueueOk_boot_blank | | assumption].
  apply HandlesOk_boot, HandlesOk_blank.
Qed.

Lemma boot_queue w : QueueOk w -> consentRequests (boot w) = consentRequests w.
Proof.
  intros Hq. destruct (boot_fields w) as (_ & _ & _ & _ & _ & Hboot & _).
  now rewrite Hboot, (stored _ Hq).
Qed.

Lemma requestConsent_cases env request ctx waitCompleted w :
  (exists e, admissionGate env request = Throw e /\
             requestConsent env request ctx waitCompleted w = (w, Throw e)) \/
  (admissionGate env request = Ok tt /\
   exists a, snd (requestConsent env request ctx waitCompleted w) = Ok a).
Proof.
  unfold requestConsent. destruct (admissionGate env request) as [[]|e].
  - right. split; [reflexivity|]. destruct waitCompleted; eexists; reflexivity.
  - left. now exists e.
Qed.

Lemma queue_order_step o w :
  QueueOk w ->
  grouped (consentRequests w) /\ orderedWithinType (consentRequests w) ->
  grouped (consentRequests (step o w)) /\
  orderedWithinType (consentRequests (step o w)).
Proof.
  intros Hq [Hg Ho].
  destruct o as [env request ctx waitCompleted|env req approve|ty|]; simpl.
  - destruct (requestConsent_cases env request ctx waitCompleted w)
      as [(e & _ & ->)|(Hgate & _)]; [now split|].
    destruct (requestConsent_fields env request ctx waitCompleted w Hgate)
      as (-> & _).
    split; [now apply grouped_enqueue|].
    apply orderedWithinType_enqueue; [assumption|].
    intros y Hy. simpl. exact (ids_below _ Hq y Hy).
  - split.
    + exact (grouped_subseq _ _ Hg (processRequest_queue env req approve w)).
    + exact (orderedWithinType_subseq _ _ Ho (processRequest_queue env req approve w)).
  - split.
    + exact (grouped_subseq _ _ Hg (clearRequests_queue_subseq ty w)).
    + exact (orderedWithinType_subseq _ _ Ho (clearRequests_queue_subseq ty w)).
  - now rewrite (boot_queue w Hq).
Qed.

(** X1. In every run of the service the requests of one type stand
    together in the queue: between two requests of a type there is no
    request of another type. *)
Theorem X1_queue_grouped_by_type :
  forall ops, grouped (consentRequests (run ops (boot blank))).
Proof.
  intros ops.
  apply (run_invariant
           (fun w => grouped (consentRequests w) /\
                     orderedWithinType (consentRequests w))).
  - split; [intros a b c Hs | intros a b Hs]; inversion Hs.
  - intros o w Hq _ Hp. now apply queue_order_step.
Qed.

(** X2. In every run of the service, restarts included, the requests of
    one type stand in the queue in the order in which they were admitted:
    of two queued requests of a type the earlier one has the smaller
    id. *)
Theorem X2_queue_ordered_within_type :
  forall ops, orderedWithinType (consentRequests (run ops (boot blank))).
Proof.
  intros ops.
  apply (run_invariant
           (fun w => grouped (consentRequests w) /\
                     orderedWithinType (consentRequests w))).
  - split; [intros a b c Hs | intros a b Hs]; inversion Hs.
  - intros o w Hq _ Hp. now apply queue_order_step.
Qed.

(* ===================================================================== *)
(** * The badge, the store and restarts *)
(* ===================================================================== *)

Lemma requestConsent_badge env request ctx waitCompleted w :
  admissionGate env request = Ok tt ->
  badge (fst (requestConsent env request ctx waitCompleted w))
  = badgeOf (consentRequests (fst (requestConsent env request ctx waitCompleted w))).
Proof.
  intros Hgate. unfold requestConsent. rewrite Hgate.
  destruct waitCompleted; wsimpl; reflexivity.
Qed.

Lemma processRequestPost_badge req resolveData rejectData w index :
  findIndex (fun r => (id req =? id r)%Z) (consentRequests w) = Some index ->
  badge (fst (processRequestPost req resolveData rejectData w))
  = badgeOf (consentRequests (fst (processRequestPost req resolveData rejectData w))) /\
  windowsOpened (fst (processRequestPost req resolveData rejectData w))
  = windowsOpened w.
Proof.
  intros Hfound. unfold processRequestPost. rewrite Hfound.
  destruct rejectData as [e|];
    destruct (map_get (id req) (waits w)) as [h|];
    wsimpl; split; reflexivity.
Qed.

Lemma processRequest_badge env req approve w :
  badge w = badgeOf (consentRequests w) ->
  badge (fst (processRequest env req approve w))
  = badgeOf (consentRequests (fst (processRequest env req approve w))).
Proof.
  intros Hb. rewrite processRequest_eq.
  destruct (beforePost_frame env req approve w) as (Hq & _ & _ & _ & _ & _ & Hbadge).
  assert (Hpost : forall resolveData rejectData,
             let p := processRequestPost req resolveData rejectData
                        (beforePost env req approve w) in
             badge (fst p) = badgeOf (consentRequests (fst p))).
  { intros resolveData rejectData p. subst p.
    destruct (findIndex (fun r => (id req =? id r)%Z)
                (consentRequests (beforePost env req approve w)))
      as [index|] eqn:Hfind.
    - now destruct (processRequestPost_badge req resolveData rejectData _ _ Hfind).
    - rewrite (processRequestPost_missing _ _ _ _ Hfind). simpl.
      now rewrite Hbadge, Hq. }
  destruct (snd (attempt env req approve w)); apply Hpost.
Qed.

Lemma boot_badge w :
  badge (boot w) = match sessionStore w with
                   | Some (r :: rest) => badgeOf (r :: rest)
                   | _ => badge w
                   end.
Proof.
  unfold boot. destruct (sessionStore w) as [[|r rest]|]; wsimpl; reflexivity.
Qed.

Lemma badge_step o w :
  QueueOk w -> badge w = badgeOf (consentRequests w) ->
  badge (step o w) = badgeOf (consentRequests (step o w)).
Proof.
  intros Hq Hb.
  destruct o as [env request ctx waitCompleted|env req approve|ty|]; simpl.
  - destruct (requestConsent_cases env request ctx waitCompleted w)
      as [(e & _ & ->)|(Hgate & _)]; [assumption|].
    now apply requestConsent_badge.
  - now apply processRequest_badge.
  - unfold clearRequests. wsimpl. reflexivity.
  - rewrite boot_badge, (boot_queue w Hq), (stored _ Hq).
    destruct (consentRequests w); [assumption | reflexivity].
Qed.

Lemma badge_run ops :
  badge (run ops (boot blank)) = badgeOf (consentRequests (run ops (boot blank))).
Proof.
  apply (run_invariant (fun w => badge w = badgeOf (consentRequests w)));
    [reflexivity|].
  intros o w Hq _ Hb. now apply badge_step.
Qed.

(** X3. In every run of the service the badge shows the length of the
    queue, and the empty text when the queue is empty. *)
Theorem X3_badge_shows_queue_length :
  forall ops,
    badge (run ops (boot blank))
    = badgeOf (consentRequests (run ops (boot blank))).
Proof.
  intros ops.
  apply (run_invariant (fun w => badge w = badgeOf (consentRequests w))).
  - reflexivity.
  - intros o w Hq _ Hb. now apply badge_step.
Qed.

Lemma boot_idempotent w : boot (boot w) = boot w.
Proof.
  destruct w as [q m n s b pc se no wo tk]. unfold boot. simpl.
  destruct s as [[|r rest]|]; reflexivity.
Qed.

Lemma nonneg_step o w :
  QueueOk w ->
  (0 <= nextId w)%Z /\ (forall r, In r (consentRequests w) -> (0 <= id r)%Z) ->
  (0 <= nextId (step o w))%Z /\
  (forall r, In r (consentRequests (step o w)) -> (0 <= id r)%Z).
Proof.
  intros Hq [Hn Hids].
  destruct o as [env request ctx waitCompleted|env req approve|ty|].
  - simpl. destruct (requestConsent_cases env request ctx waitCompleted w)
      as [(e & _ & ->)|(Hgate & _)]; [now split|].
    destruct (requestConsent_fields env request ctx waitCompleted w Hgate)
      as (-> & -> & _).
    split; [lia|]. intros r Hin. apply enqueue_In in Hin.
    destruct Hin as [->|Hin]; [simpl; lia | now apply Hids].
  - split.
    + destruct (issuedBy_step (OpProcessRequest env req approve) w eq_refl)
        as [[_ ->]|[_ ->]]; lia.
    + intros r Hin. apply Hids.
      exact (subseq_In _ _ _ (processRequest_queue env req approve w) Hin).
  - split.
    + destruct (issuedBy_step (OpClearRequests ty) w eq_refl)
        as [[_ ->]|[_ ->]]; lia.
    + intros r Hin. apply Hids.
      exact (subseq_In _ _ _ (clearRequests_queue_subseq ty w) Hin).
  - simpl. rewrite (boot_queue w Hq). split; [|assumption].
    destruct (boot_fields w) as (_ & _ & _ & _ & _ & _ & _ & ->).
    rewrite (stored _ Hq). destruct (consentRequests w) as [|r rest]; [lia|].
    assert (Hin : In (lastId r rest) (map id (r :: rest)))
      by (unfold lastId; simpl; apply fold_max_In).
    apply in_map_iff in Hin. destruct Hin as (x & Hx & Hin).
    specialize (Hids x Hin). lia.
Qed.

Lemma nonneg_run ops :
  (0 <= nextId (run ops (boot blank)))%Z /\
  (forall r, In r (consentRequests (run ops (boot blank))) -> (0 <= id r)%Z).
Proof.
  apply (run_invariant
           (fun w => (0 <= nextId w)%Z /\
                     forall r, In r (consentRequests w) -> (0 <= id r)%Z)).
  - split; [simpl; lia | intros r []].
  - intros o w Hq _ Hp. now apply nonneg_step.
Qed.

(** X4. In every run of the service the session store holds the queue.
    A restart therefore restores the queue as it was and leaves store and
    badge alone; it empties the registry, it does not move the id counter
    forward, and a second restart changes nothing. *)
Theorem X4_restart_restores_queue :
  forall ops,
    let w := run ops (boot blank) in
    sessionStore w = Some (consentRequests w) /\
    consentRequests (boot w) = consentRequests w /\
    sessionStore (boot w) = sessionStore w /\
    badge (boot w) = badge w /\
    waits (boot w) = [] /\
    (nextId (boot w) <= nextId w)%Z /\
    boot (boot w) = boot w.
Proof.
  intros ops w.
  assert (Hq : QueueOk w) by apply QueueOk_run, QueueOk_boot_blank.
  pose proof (badge_run ops) as Hb. fold w in Hb.
  destruct (nonneg_run ops) as [Hn _]. fold w in Hn.
  destruct (boot_fields w) as (Hw & _ & _ & _ & _ & _ & Hst & Hnext).
  split; [exact (stored _ Hq)|].
  split; [exact (boot_queue w Hq)|].
  split; [now rewrite Hst, (boot_queue w Hq), (stored _ Hq)|].
  split.
  { rewrite boot_badge, (stored _ Hq), Hb.
    now destruct (consentRequests w). }
  split; [exact Hw|]. split; [|apply boot_idempotent].
  rewrite Hnext, (stored _ Hq).
  destruct (consentRequests w) as [|r rest] eqn:Hqueue; [exact Hn|].
  assert (Hin : In (lastId r rest) (map id (r :: rest)))
    by (unfold lastId; simpl; apply fold_max_In).
  apply in_map_iff in Hin. destruct Hin as (x & Hx & Hin).
  rewrite <- Hqueue in Hin. pose proof (ids_below _ Hq x Hin). lia.
Qed.

(** X6. In every run of the service no two queued requests share an id,
    and every queued id is at least 0 and below the id counter. *)
Theorem X6_queued_ids_distinct_and_bounded :
  forall ops,
    let w := run ops (boot blank) in
    NoDup (map id (consentRequests w)) /\
    forall r, In r (consentRequests w) -> (0 <= id r < nextId w)%Z.
Proof.
  intros ops w.
  assert (Hq : QueueOk w) by apply QueueOk_run, QueueOk_boot_blank.
  split; [exact (ids_distinct _ Hq)|].
  intros r Hin. split.
  - exact (proj2 (nonneg_run ops) r Hin).
  - exact (ids_below _ Hq r Hin).
Qed.

(* ===================================================================== *)
(** * Promises and their requests *)
(* ===================================================================== *)

(** What a step appends to the settlements comes from [waits]. *)
Lemma step_settlements o w :
  exists extra,
    settlements (step o w) = settlements w ++ extra /\
    forall e, In e extra -> In (fst e) (map snd (waits w)).
Proof.
  destruct o as [env request ctx waitCompleted|env req approve|ty|]; simpl.
  - exists []. rewrite app_nil_r. split; [|intros e []].
    destruct (requestConsent_cases env request ctx waitCompleted w)
      as [(e & _ & ->)|(Hgate & _)]; [reflexivity|].
    now destruct (requestConsent_fields env request ctx waitCompleted w Hgate)
      as (_ & _ & _ & _ & _ & -> & _).
  - rewrite processRequest_eq.
    destruct (beforePost_frame env req approve w) as (_ & Hw & _ & _ & _ & Hse & _).
    assert (Hpost : forall resolveData rejectData,
               exists extra,
                 settlements (fst (processRequestPost req resolveData rejectData
                                     (beforePost env req approve w)))
                 = settlements w ++ extra /\
                 forall e, In e extra -> In (fst e) (map snd (waits w))).
    { intros resolveData rejectData.
      destruct (findIndex (fun r => (id req =? id r)%Z)
                  (consentRequests (beforePost env req approve w)))
        as [index|] eqn:Hfind.
      - destruct (processRequestPost_found req resolveData rejectData _ _ Hfind)
          as (_ & _ & _ & _ & Hse' & _).
        rewrite Hse', Hse. eexists. split; [reflexivity|].
        unfold settledBy. rewrite Hw.
        destruct (map_get (id req) (waits w)) as [h|] eqn:Hget; [|intros e []].
        intros e [<-|[]]. simpl.
        exact (in_map snd _ _ (map_get_In _ _ _ Hget)).
      - rewrite (processRequestPost_missing _ _ _ _ Hfind). simpl.
        exists []. rewrite app_nil_r. split; [exact Hse | intros e []]. }
    destruct (snd (attempt env req approve w)); apply Hpost.
  - unfold clearRequests. wsimpl. eexists. split; [reflexivity|].
    intros e He. apply in_map_iff in He. destruct He as (x & <- & Hx).
    apply filter_In in Hx. simpl. apply in_map. tauto.
  - exists []. rewrite app_nil_r. split; [|intros e []].
    now destruct (boot_fields w) as (_ & -> & _).
Qed.

(** The promises a step leaves in [waits] were there or are new. *)
Lemma step_waits o w e :
  In e (waits (step o w)) ->
  In e (waits w) \/ snd e = promiseCount w.
Proof.
  destruct o as [env request ctx waitCompleted|env req approve|ty|]; simpl.
  - destruct (requestConsent_cases env request ctx waitCompleted w)
      as [(err & _ & ->)|(Hgate & _)]; [now left|].
    destruct (requestConsent_fields env request ctx waitCompleted w Hgate)
      as (_ & _ & _ & -> & _).
    destruct waitCompleted; [|now left].
    intros Hin. destruct (map_set_In _ _ _ _ Hin) as [->|Hold];
      [now right | now left].
  - rewrite processRequest_eq.
    destruct (beforePost_frame env req approve w) as (_ & Hw & _).
    assert (Hpost : forall resolveData rejectData,
               In e (waits (fst (processRequestPost req resolveData rejectData
                                   (beforePost env req approve w)))) ->
               In e (waits w)).
    { intros resolveData rejectData.
      destruct (findIndex (fun r => (id req =? id r)%Z)
                  (consentRequests (beforePost env req approve w)))
        as [index|] eqn:Hfind.
      - destruct (processRequestPost_found req resolveData rejectData _ _ Hfind)
          as (_ & _ & _ & -> & _).
        rewrite Hw. intros Hin. apply map_delete_In in Hin. tauto.
      - rewrite (processRequestPost_missing _ _ _ _ Hfind). simpl.
        now rewrite Hw. }
    intros Hin. left. revert Hin.
    destruct (snd (attempt env req approve w)); apply Hpost.
  - unfold clearRequests. wsimpl. intros Hin. apply filter_In in Hin. tauto.
  - destruct (boot_fields w) as (-> & _). intros [].
Qed.

Lemma step_promiseCount o w : (promiseCount w <= promiseCount (step o w))%nat.
Proof.
  destruct o as [env request ctx waitCompleted|env req approve|ty|]; simpl.
  - destruct (requestConsent_cases env request ctx waitCompleted w)
      as [(err & _ & ->)|(Hgate & _)]; [simpl; lia|].
    destruct (requestConsent_fields env request ctx waitCompleted w Hgate)
      as (_ & _ & _ & _ & -> & _).
    destruct waitCompleted; lia.
  - rewrite processRequest_eq.
    destruct (beforePost_frame env req approve w) as (_ & _ & _ & _ & Hpc & _).
    assert (Hpost : forall resolveData rejectData,
               promiseCount (fst (processRequestPost req resolveData rejectData
                                    (beforePost env req approve w)))
               = promiseCount w).
    { intros resolveData rejectData.
      destruct (findIndex (fun r => (id req =? id r)%Z)
                  (consentRequests (beforePost env req approve w)))
        as [index|] eqn:Hfind.
      - destruct (processRequestPost_found req resolveData rejectData _ _ Hfind)
          as (_ & _ & _ & _ & _ & _ & -> & _). exact Hpc.
      - rewrite (processRequestPost_missing _ _ _ _ Hfind). exact Hpc. }
    destruct (snd (attempt env req approve w)); rewrite Hpost; lia.
  - unfold clearRequests. wsimpl. lia.
  - destruct (boot_fields w) as (_ & _ & -> & _). lia.
Qed.

Lemma timesSettled_app h (l extra : list (Handle * Settlement)) :
  (forall e, In e extra -> fst e <> h) ->
  List.length (filter (fun e => Nat.eqb (fst e) h) (l ++ extra))
  = List.length (filter (fun e => Nat.eqb (fst e) h) l).
Proof.
  intros Hother. rewrite filter_app, length_app.
  rewrite (filter_nothing _ extra); [simpl; lia|].
  intros e He. apply Nat.eqb_neq. now apply Hother.
Qed.

Lemma old_promises_untouched ops w (n : nat) h :
  (h < n)%nat -> (n <= promiseCount w)%nat ->
  (forall e, In e (waits w) -> (n <= snd e)%nat) ->
  timesSettled h (run ops w) = timesSettled h w.
Proof.
  intros Hh. revert w. induction ops as [|o ops IH]; intros w Hpc Hwaits;
    [reflexivity|].
  simpl. rewrite IH.
  - destruct (step_settlements o w) as (extra & Hse & Hextra).
    unfold timesSettled. rewrite Hse. apply timesSettled_app.
    intros e He Heq. specialize (Hextra e He). apply in_map_iff in Hextra.
    destruct Hextra as (x & Hx & Hin). specialize (Hwaits x Hin). lia.
  - pose proof (step_promiseCount o w). lia.
  - intros e He. destruct (step_waits o w e He) as [Hold|Hnew].
    + now apply Hwaits.
    + lia.
Qed.

(** X5. The promises made before a restart are out of reach after it:
    whatever the service does after the restart, the callbacks of a
    promise created before are not invoked again, so a promise that was
    pending at the restart stays pending. *)
Theorem X5_restart_abandons_promises :
  forall w ops h,
    (h < promiseCount w)%nat ->
    timesSettled h (run ops (boot w)) = timesSettled h w.
Proof.
  intros w ops h Hh.
  destruct (boot_fields w) as (Hw & Hse & Hpc & _).
  rewrite (old_promises_untouched ops (boot w) (promiseCount w) h Hh).
  - unfold timesSettled. now rewrite Hse.
  - rewrite Hpc. lia.
  - rewrite Hw. intros e [].
Qed.

Lemma X5_witness :
  let w := run [OpRequestConsent signingEnv (sampleRequest SIGN_MSG) None true]
             (boot blank) in
  let ops := [OpProcessRequest signingEnv (withId (sampleRequest SIGN_MSG) 0) true;
              OpClearRequests None] in
  (0 < promiseCount w)%nat /\
  map_get 0%Z (waits w) = Some 0%nat /\
  timesSettled 0 w = 0%nat /\
  timesSettled 0 (run ops (boot w)) = timesSettled 0 w /\
  consentRequests (run ops (boot w)) = [].
Proof.
  intros w ops.
  assert (Hlt : (0 < promiseCount w)%nat) by (vm_compute; lia).
  split; [exact Hlt|]. split; [vm_compute; reflexivity|].
  split; [vm_compute; reflexivity|]. split.
  - exact (X5_restart_abandons_promises w ops 0%nat Hlt).
  - vm_compute; reflexivity.
Defined.

Lemma map_set_keeps k h m e :
  In e m -> fst e <> k -> In e (map_set k h m).
Proof.
  induction m as [|a m IH]; simpl; [intros []|].
  intros [->|Hin] Hne.
  - destruct (fst e =? k)%Z eqn:Hk; [apply Z.eqb_eq in Hk; contradiction|].
    now left.
  - destruct (fst a =? k)%Z; right; [assumption | now apply IH].
Qed.

Lemma map_set_has k h m : In (k, h) (map_set k h m).
Proof.
  induction m as [|a m IH]; simpl; [now left|].
  destruct (fst a =? k)%Z; [now left | now right].
Qed.

Lemma map_get_of_In m e :
  NoDup (map fst m) -> In e m -> map_get (fst e) m = Some (snd e).
Proof.
  intros Hnd Hin.
  destruct (map_get (fst e) m) as [h|] eqn:Hget.
  - pose proof (map_get_In _ _ _ Hget) as Hin'.
    assert (Heq : (fst e, h) = e)
      by (apply (NoDup_map_inj fst m); auto).
    rewrite <- Heq. reflexivity.
  - apply map_get_None in Hget. exfalso. apply Hget. now apply in_map.
Qed.

Lemma kept_step o w :
  isRestart o = false -> QueueOk w ->
  (forall h, (h < promiseCount w)%nat ->
             In h (map snd (waits w)) \/ In h (map fst (settlements w))) ->
  forall h, (h < promiseCount (step o w))%nat ->
            In h (map snd (waits (step o w))) \/
            In h (map fst (settlements (step o w))).
Proof.
  intros Hr Hq Hold.
  destruct o as [env request ctx waitCompleted|env req approve|ty|];
    simpl; try discriminate.
  - destruct (requestConsent_cases env request ctx waitCompleted w)
      as [(err & _ & ->)|(Hgate & _)]; [exact Hold|].
    destruct (requestConsent_fields env request ctx waitCompleted w Hgate)
      as (_ & _ & _ & -> & -> & -> & _).
    destruct waitCompleted; [|exact Hold].
    intros h Hh. destruct (Nat.eq_dec h (promiseCount w)) as [->|Hne].
    + left. exact (in_map snd _ _ (map_set_has (nextId w) (promiseCount w) (waits w))).
    + destruct (Hold h) as [Hin|Hin]; [lia | | now right].
      left. apply in_map_iff in Hin. destruct Hin as (e & He & Hin).
      apply in_map_iff. exists e. split; [assumption|].
      apply map_set_keeps; [assumption|].
      pose proof (keys_below _ Hq e Hin). lia.
  - rewrite processRequest_eq.
    destruct (beforePost_frame env req approve w) as (_ & Hw & _ & _ & Hpc & Hse & _).
    assert (Hpost : forall resolveData rejectData h,
               let p := processRequestPost req resolveData rejectData
                          (beforePost env req approve w) in
               (h < promiseCount (fst p))%nat ->
               In h (map snd (waits (fst p))) \/
               In h (map fst (settlements (fst p)))).
    { intros resolveData rejectData h p. subst p.
      destruct (findIndex (fun r => (id req =? id r)%Z)
                  (consentRequests (beforePost env req approve w)))
        as [index|] eqn:Hfind.
      - destruct (processRequestPost_found req resolveData rejectData _ _ Hfind)
          as (_ & _ & _ & -> & -> & _ & -> & _).
        rewrite Hpc, Hw, Hse. intros Hh.
        destruct (Hold h Hh) as [Hin|Hin];
          [|right; rewrite map_app; apply in_or_app; now left].
        apply in_map_iff in Hin. destruct Hin as (e & He & Hin).
        destruct (Z.eq_dec (fst e) (id req)) as [Hkey|Hkey].
        + right. rewrite map_app. apply in_or_app. right.
          unfold settledBy. rewrite Hw, <- Hkey.
          rewrite (map_get_of_In _ _ (keys_distinct _ Hq) Hin). simpl.
          now left.
        + left. apply in_map_iff. exists e. split; [assumption|].
          apply map_delete_In. tauto.
      - rewrite (processRequestPost_missing _ _ _ _ Hfind). simpl.
        rewrite Hpc, Hw, Hse. apply Hold. }
    destruct (snd (attempt env req approve w)); apply Hpost.
  - unfold clearRequests. wsimpl. intros h Hh.
    destruct (Hold h Hh) as [Hin|Hin];
      [|right; rewrite map_app; apply in_or_app; now left].
    apply in_map_iff in Hin. destruct Hin as (e & He & Hin).
    destruct (set_has (map id (removedOf ty (consentRequests w))) (fst e)) eqn:Hhit.
    + right. rewrite map_app, map_map. simpl. apply in_or_app. right.
      apply in_map_iff. exists e. split; [assumption|]. apply filter_In. tauto.
    + left. apply in_map_iff. exists e. split; [assumption|].
      apply filter_In. split; [assumption | now rewrite Hhit].
Qed.

(* ===================================================================== *)
(** * Decisions and their effects *)
(* ===================================================================== *)

Lemma processRequestPost_frame req resolveData rejectData w :
  tokens (fst (processRequestPost req resolveData rejectData w)) = tokens w /\
  windowsOpened (fst (processRequestPost req resolveData rejectData w))
  = windowsOpened w.
Proof.
  destruct (findIndex (fun r => (id req =? id r)%Z) (consentRequests w))
    as [index|] eqn:Hfind.
  - destruct (processRequestPost_found req resolveData rejectData _ _ Hfind)
      as (_ & _ & _ & _ & _ & _ & _ & _ & Htk).
    destruct (processRequestPost_badge req resolveData rejectData _ _ Hfind)
      as [_ Hwo].
    now split.
  - rewrite (processRequestPost_missing _ _ _ _ Hfind). now split.
Qed.

Lemma attempt_disapproved env req w :
  attempt env req false w = (w, Throw userRejectedRequest).
Proof. reflexivity. Qed.

Lemma processRequest_disapproved env req w :
  processRequest env req false w
  = processRequestPost req RespUndefined
      (Some (serializeError userRejectedRequest)) w.
Proof.
  unfold processRequest. rewrite attempt_disapproved. unfold shouldNotify.
  replace (isUserRejection userRejectedRequest) with true by reflexivity.
  now rewrite andb_false_r.
Qed.

(** X10. A disapproval does not reach any collaborator: the outcome of
    [processRequest(req, false)] is the same whatever the collaborators
    would do, the token table and the notifications stay as they are, and
    a promise waiting for a queued request is rejected with an [Error]
    that carries message and code of the user-rejected error. *)
Theorem X10_disapproval_skips_collaborators :
  forall env env' req w,
    processRequest env req false w = processRequest env' req false w /\
    tokens (fst (processRequest env req false w)) = tokens w /\
    notifications (fst (processRequest env req false w)) = notifications w /\
    forall h,
      map_get (id req) (waits w) = Some h ->
      (exists r, In r (consentRequests w) /\ id r = id req) ->
      settlements (fst (processRequest env req false w))
      = settlements w ++
        [(h, Rejected (mkError true (Some "User rejected the request.")
                         (Some 4001%Z) "Error: User rejected the request."))].
Proof.
  intros env env' req w. rewrite !processRequest_disapproved.
  split; [reflexivity|].
  split; [apply processRequestPost_frame|].
  split; [apply processRequestPost_notifications|].
  intros h Hget (r & Hin & Hid).
  destruct (findIndex (fun r => (id req =? id r)%Z) (consentRequests w))
    as [index|] eqn:Hfind.
  - destruct (processRequestPost_found req RespUndefined
                (Some (serializeError userRejectedRequest)) _ _ Hfind)
      as (_ & _ & _ & _ & -> & _).
    unfold settledBy. now rewrite Hget.
  - exfalso. pose proof (proj1 (findIndex_none _ _) Hfind r Hin) as Hr.
    simpl in Hr. apply Z.eqb_neq in Hr. congruence.
Qed.

Lemma X10_witness :
  let w := run [OpRequestConsent signingEnv (sampleRequest TRANSACTION) None true]
             (boot blank) in
  let req := withId (sampleRequest TRANSACTION) 0 in
  map_get (id req) (waits w) = Some 0%nat /\
  (exists r, In r (consentRequests w) /\ id r = id req) /\
  settlements (fst (processRequest watchOnlyEnv req false w))
  = settlements w ++
    [(0%nat, Rejected (mkError true (Some "User rejected the request.")
                         (Some 4001%Z) "Error: User rejected the request."))].
Proof.
  intros w req.
  assert (Hget : map_get (id req) (waits w) = Some 0%nat)
    by (vm_compute; reflexivity).
  assert (Hex : exists r, In r (consentRequests w) /\ id r = id req)
    by (exists req; split; [left|]; reflexivity).
  split; [exact Hget|]. split; [exact Hex|].
  exact (proj2 (proj2 (proj2 (X10_disapproval_skips_collaborators
                                watchOnlyEnv signingEnv req w))) 0%nat Hget Hex).
Defined.



(* ===================================================================== *)
(** * Admission and the approval window *)
(* ===================================================================== *)

Lemma requestConsent_admits env request ctx waitCompleted w :
  admissionGate env request = Ok tt ->
  exists a, snd (requestConsent env request ctx waitCompleted w) = Ok a.
Proof.
  intros Hgate. unfold requestConsent. rewrite Hgate.
  destruct waitCompleted; eexists; reflexivity.
Qed.

Lemma requestConsent_refuses env request ctx waitCompleted w e :
  admissionGate env request = Throw e ->
  requestConsent env request ctx waitCompleted w = (w, Throw e).
Proof. intros Hgate. unfold requestConsent. now rewrite Hgate. Qed.

(** X13. The gate at the head of [requestConsent], case by case.
    A request whose type needs no signer is admitted without any lookup.
    For TRANSACTION, SIGN_MSG and SIGN_TYPED_DATA: a list of accounts
    fails the first assertion; for a single account, a lookup that finds
    no account or no wallet fails an assertion, a wallet that cannot
    sign gives the user-rejected error, and a wallet that can sign
    admits the request; a request that names no account is handed to the
    wallet store as it is, and is refused with whatever that lookup
    throws, or with an assertion error when it finds nothing. Every
    refusal leaves the world as it was; every admission makes the queue
    one longer. *)
Theorem X13_admission_gate_cases :
  forall env request ctx waitCompleted w,
    let out := requestConsent env request ctx waitCompleted w in
    (needsSigner (new_type request) = false -> exists a, snd out = Ok a) /\
    (needsSigner (new_type request) = true ->
     (forall l, new_accountId request = AccMany l ->
        out = (w, Throw assertionError)) /\
     (forall a, new_accountId request = AccOne a ->
        match getChainAccount env a with
        | None => out = (w, Throw assertionError)
        | Some account =>
            match getWallet env (acc_masterId account) with
            | None => out = (w, Throw assertionError)
            | Some wallet =>
                if canWalletSign env (wal_type wallet)
                then exists a, snd out = Ok a
                else out = (w, Throw userRejectedRequest)
            end
        end) /\
     (new_accountId request = AccNone ->
        match getChainAccountOfUndefined env with
        | Throw e => out = (w, Throw e)
        | Ok None => out = (w, Throw assertionError)
        | Ok (Some _) => True
        end)) /\
    (forall a, snd out = Ok a ->
       List.length (consentRequests (fst out))
       = S (List.length (consentRequests w))).
Proof.
  intros env request ctx waitCompleted w out. subst out. split; [|split].
  - intros Hneeds. apply requestConsent_admits.
    unfold admissionGate. now rewrite Hneeds.
  - intros Hneeds. split; [|split].
    + intros l Hacc. apply requestConsent_refuses.
      unfold admissionGate. now rewrite Hneeds, Hacc.
    + intros a Hacc.
      destruct (getChainAccount env a) as [account|] eqn:Haccount.
      * destruct (getWallet env (acc_masterId account)) as [wallet|] eqn:Hwallet.
        -- destruct (canWalletSign env (wal_type wallet)) eqn:Hsign.
           ++ apply requestConsent_admits. unfold admissionGate.
              rewrite Hneeds, Hacc. simpl. rewrite Haccount. simpl.
              rewrite Hwallet. simpl. now rewrite Hsign.
           ++ apply requestConsent_refuses. unfold admissionGate.
              rewrite Hneeds, Hacc. simpl. rewrite Haccount. simpl.
              rewrite Hwallet. simpl. now rewrite Hsign.
        -- apply requestConsent_refuses. unfold admissionGate.
           rewrite Hneeds, Hacc. simpl. rewrite Haccount. simpl.
           now rewrite Hwallet.
      * apply requestConsent_refuses. unfold admissionGate.
        rewrite Hneeds, Hacc. simpl. now rewrite Haccount.
    + intros Hacc.
      destruct (getChainAccountOfUndefined env) as [[account|]|e] eqn:Hfound;
        [exact I| |]; apply requestConsent_refuses; unfold admissionGate;
        rewrite Hneeds, Hacc, Hfound; reflexivity.
  - intros a Hok.
    destruct (requestConsent_cases env request ctx waitCompleted w)
      as [(e & _ & Hrc)|(Hgate & _)]; [rewrite Hrc in Hok; discriminate|].
    destruct (requestConsent_fields env request ctx waitCompleted w Hgate)
      as (-> & _).
    rewrite (Permutation_length (enqueue_perm _ _)). reflexivity.
Qed.

Lemma X13_witness :
  let w := run [OpRequestConsent signingEnv (sampleRequest SIGN_MSG) None true]
             (boot blank) in
  let out := requestConsent watchOnlyEnv (sampleRequest WATCH_ASSET) None false w in
  let refused := requestConsent watchOnlyEnv (sampleRequest SIGN_MSG) None false w in
  (exists a, snd out = Ok a) /\
  List.length (consentRequests (fst out)) = S (List.length (consentRequests w)) /\
  refused = (w, Throw userRejectedRequest).
Proof.
  intros w out refused.
  assert (Hok : snd out = Ok (Returned (withId (sampleRequest WATCH_ASSET) 1)))
    by reflexivity.
  split; [|split].
  - exact (proj1 (X13_admission_gate_cases watchOnlyEnv
                    (sampleRequest WATCH_ASSET) None false w) eq_refl).
  - exact (proj2 (proj2 (X13_admission_gate_cases watchOnlyEnv
                           (sampleRequest WATCH_ASSET) None false w)) _ Hok).
  - exact (proj1 (proj2 (proj1 (proj2 (X13_admission_gate_cases watchOnlyEnv
                    (sampleRequest SIGN_MSG) None false w)) eq_refl))
             7%Z eq_refl).
Defined.

Lemma beforePost_windows env req approve w :
  windowsOpened (beforePost env req approve w) = windowsOpened w.
Proof.
  unfold beforePost. destruct (attempt_frame env req approve w) as [tbl Htbl].
  destruct (attempt env req approve w) as [w1 [response|err]];
    simpl in Htbl; subst w1; [|destruct (shouldNotify req err)]; reflexivity.
Qed.

Lemma windows_step o w :
  windowsOpened (step o w)
  = (windowsOpened w + (if opensWindow o then 1 else 0))%nat.
Proof.
  destruct o as [env request ctx waitCompleted|env req approve|ty|]; simpl.
  - unfold requestConsent.
    destruct (admissionGate env request) as [[]|e].
    + destruct waitCompleted; wsimpl; unfold popupCount;
        destruct ctx as [[[|]]|]; simpl; lia.
    + destruct ctx as [[[|]]|]; simpl; lia.
  - rewrite processRequest_eq.
    destruct (snd (attempt env req approve w));
      rewrite (proj2 (processRequestPost_frame _ _ _ _)), beforePost_windows; lia.
  - unfold clearRequests. wsimpl. lia.
  - unfold boot. destruct (sessionStore w) as [[|r rest]|]; wsimpl; lia.
Qed.

(** X14. The approval window is asked for once for every request that
    is admitted from a caller with a context that is not internal, and on
    no other occasion: not for a refused request, not for an internal
    caller or one without context, not by [processRequest],
    [clearRequests] or a restart. *)
Theorem X14_window_opened_per_admitted_external_request :
  forall ops w,
    windowsOpened (run ops w)
    = (windowsOpened w + List.length (filter opensWindow ops))%nat.
Proof.
  induction ops as [|o ops IH]; intros w; simpl; [lia|].
  rewrite IH, windows_step. destruct (opensWindow o); simpl; lia.
Qed.

(* ===================================================================== *)
(** * The dispatcher *)
(* ===================================================================== *)

Lemma processRequestSignTx_found env req net accounts :
  lookupTarget env req = Ok (Some net, accounts) ->
  processRequestSignTx env req
  = match formatTxPayload env (Some net) (payload req) with
    | Throw e => Throw e
    | Ok pl =>
        match pl_signedTx pl, pl_txHash pl with
        | None, None =>
            match signTransaction env net (firstAccount accounts) (txParams pl) with
            | Ok signed => Ok (Some signed, None)
            | Throw e => Throw e
            end
        | signedTx, txHash =>
            if isEVM (net_kind net) then Ok (signedTx, txHash)
            else Throw assertionError
        end
    end.
Proof.
  intros Hlookup. unfold processRequestSignTx. rewrite Hlookup. simpl.
  destruct (formatTxPayload env (Some net) (payload req)) as [pl|e]; simpl;
    [|reflexivity].
  destruct (pl_signedTx pl), (pl_txHash pl); simpl; unfold assert;
    try reflexivity; destruct (isEVM (net_kind net)); reflexivity.
Qed.

Lemma processRequestIntermediate_transaction
    env req signedTx txHash w network accounts :
  type req = TRANSACTION ->
  lookupTarget env req = Ok (network, accounts) ->
  processRequestIntermediate env req signedTx txHash w
  = (w, dispatchTransaction env req network (firstAccount accounts)
          signedTx txHash).
Proof.
  intros Hty Hlookup. unfold processRequestIntermediate.
  now rewrite Hty, Hlookup.
Qed.

Lemma attempt_transaction env req w :
  type req = TRANSACTION ->
  attempt env req true w
  = match processRequestSignTx env req with
    | Throw e => (w, Throw e)
    | Ok signed => processRequestIntermediate env req (fst signed) (snd signed) w
    end.
Proof. intros Hty. unfold attempt. now rewrite Hty. Qed.

(** What [case TRANSACTION] can give back. *)
Lemma dispatchTransaction_result env req network account signedTx txHash response :
  dispatchTransaction env req network account signedTx txHash = Ok response ->
  (exists net signed r,
     network = Some net /\ signedTx = Some signed /\
     sendTransaction env net signed = Ok r /\ response = RespData r) \/
  (exists net r,
     network = Some net /\ net_kind net = EVM /\ signedTx = None /\
     pollTransaction env net txHash = Ok r /\ response = RespData r) \/
  (exists net,
     network = Some net /\ net_kind net = EVM /\ signedTx = None /\
     response = RespHash txHash).
Proof.
  unfold dispatchTransaction.
  destruct (formatTxPayload env network (payload req)) as [pl|e]; simpl;
    [|discriminate].
  destruct network as [net|]; [|destruct signedTx; discriminate].
  destruct signedTx as [signed|]; simpl.
  - destruct (sendTransaction env net signed) as [r|e] eqn:Hsend; simpl;
      [|discriminate].
    intros H. left. exists net, signed, r. repeat split; try assumption.
    destruct (net_kind net); simpl in H.
    + destruct (evmAddPendingTx env account (txParams pl) r); simpl in H;
        [now injection H as <- | discriminate].
    + destruct (aptosAddPendingTx env account (Some r) (populatedParams pl));
        simpl in H; [now injection H as <- | discriminate].
    + now injection H as <-.
  - unfold assert. destruct (net_kind net) eqn:Hkind; simpl; try discriminate.
    destruct (pollTransaction env net txHash) as [r|e] eqn:Hpoll; simpl.
    + destruct (evmAddPendingTx env account (txParams pl) r); simpl;
        [|discriminate].
      intros H. injection H as <-. right. left. exists net, r. now repeat split.
    + intros H. injection H as <-. right. right. exists net. now repeat split.
Qed.

(** X15. An approved TRANSACTION that succeeds resolves with the
    response of a broadcast or of the poll, or, on an EVM network only,
    with the bare [{hash: txHash}]; never with [undefined]. *)
Theorem X15_transaction_result_shape :
  forall env req w response,
    type req = TRANSACTION ->
    snd (attempt env req true w) = Ok response ->
    response <> RespUndefined /\
    forall txHash,
      response = RespHash txHash ->
      exists net accounts,
        lookupTarget env req = Ok (Some net, accounts) /\ net_kind net = EVM.
Proof.
  intros env req w response Hty Hok.
  rewrite (attempt_transaction env req w Hty) in Hok.
  destruct (processRequestSignTx env req) as [signed|e]; [|discriminate].
  destruct (lookupTarget env req) as [[network accounts]|e] eqn:Hlookup.
  - rewrite (processRequestIntermediate_transaction _ _ _ _ _ _ _ Hty Hlookup)
      in Hok.
    simpl in Hok.
    destruct (dispatchTransaction_result _ _ _ _ _ _ _ Hok)
      as [(net & s & r & -> & _ & _ & ->)
         |[(net & r & -> & _ & _ & _ & ->)|(net & -> & Hkind & _ & ->)]].
    + split; [discriminate | intros txHash H; discriminate].
    + split; [discriminate | intros txHash H; discriminate].
    + split; [discriminate|]. intros txHash _. now exists net, accounts.
  - unfold processRequestIntermediate in Hok. rewrite Hty, Hlookup in Hok.
    discriminate.
Qed.

Lemma X15_witness :
  let req := withId (sampleRequest TRANSACTION) 0 in
  snd (attempt hashOnlyEnv req true blank) = Ok (RespHash (Some "0xabc")) /\
  RespHash (Some "0xabc") <> RespUndefined /\
  exists net accounts,
    lookupTarget hashOnlyEnv req = Ok (Some net, accounts) /\ net_kind net = EVM.
Proof.
  intros req.
  assert (Hok : snd (attempt hashOnlyEnv req true blank)
                = Ok (RespHash (Some "0xabc"))) by (vm_compute; reflexivity).
  split; [exact Hok|].
  destruct (X15_transaction_result_shape hashOnlyEnv req blank _ eq_refl Hok)
    as [Hdef Hhash].
  split; [exact Hdef|]. exact (Hhash (Some "0xabc") eq_refl).
Defined.

(** X16. On a network that is not an EVM network an approved TRANSACTION
    succeeds only as a transaction that the provider signed and then
    broadcast: the payload carried neither a signed transaction nor a
    hash, and the result is the response of the broadcast. *)
Theorem X16_non_evm_transaction_signed_then_sent :
  forall env req w net accounts response,
    type req = TRANSACTION ->
    lookupTarget env req = Ok (Some net, accounts) ->
    net_kind net <> EVM ->
    snd (attempt env req true w) = Ok response ->
    exists pl signed r,
      formatTxPayload env (Some net) (payload req) = Ok pl /\
      pl_signedTx pl = None /\ pl_txHash pl = None /\
      signTransaction env net (firstAccount accounts) (txParams pl) = Ok signed /\
      sendTransaction env net signed = Ok r /\
      response = RespData r.
Proof.
  intros env req w net accounts response Hty Hlookup Hkind Hok.
  assert (Hnot : isEVM (net_kind net) = false)
    by (destruct (net_kind net); [congruence | reflexivity | reflexivity]).
  rewrite (attempt_transaction env req w Hty) in Hok.
  rewrite (processRequestSignTx_found env req net accounts Hlookup) in Hok.
  destruct (formatTxPayload env (Some net) (payload req)) as [pl|e] eqn:Hfmt;
    [|discriminate].
  destruct (pl_signedTx pl) eqn:Hs, (pl_txHash pl) eqn:Hh;
    try (rewrite Hnot in Hok; discriminate).
  destruct (signTransaction env net (firstAccount accounts) (txParams pl))
    as [signed|e] eqn:Hsign; [|discriminate].
  rewrite (processRequestIntermediate_transaction _ _ _ _ _ _ _ Hty Hlookup)
    in Hok.
  simpl in Hok.
  destruct (dispatchTransaction_result _ _ _ _ _ _ _ Hok)
    as [(net' & s & r & Hnet & Hsig & Hsend & ->)
       |[(net' & r & Hnet & Hevm & _)|(net' & Hnet & Hevm & _)]].
  - injection Hnet as <-. injection Hsig as <-.
    exists pl, signed, r. now repeat split.
  - injection Hnet as <-. congruence.
  - injection Hnet as <-. congruence.
Qed.

Lemma X16_witness :
  let req := withId (sampleRequest TRANSACTION) 0 in
  lookupTarget aptosEnv req
  = Ok (Some (mkNetwork 1 APTOS), Some [mkAccount 7 1]) /\
  snd (attempt aptosEnv req true blank) = Ok (RespData "sent:signed:") /\
  exists pl signed r,
    formatTxPayload aptosEnv (Some (mkNetwork 1 APTOS)) (payload req) = Ok pl /\
    pl_signedTx pl = None /\ pl_txHash pl = None /\
    signTransaction aptosEnv (mkNetwork 1 APTOS)
      (firstAccount (Some [mkAccount 7 1])) (txParams pl) = Ok signed /\
    sendTransaction aptosEnv (mkNetwork 1 APTOS) signed = Ok r /\
    RespData "sent:signed:" = RespData r.
Proof.
  intros req.
  assert (Hlookup : lookupTarget aptosEnv req
                    = Ok (Some (mkNetwork 1 APTOS), Some [mkAccount 7 1]))
    by reflexivity.
  assert (Hok : snd (attempt aptosEnv req true blank) = Ok (RespData "sent:signed:"))
    by (vm_compute; reflexivity).
  split; [exact Hlookup|]. split; [exact Hok|].
  apply (X16_non_evm_transaction_signed_then_sent aptosEnv req blank
           (mkNetwork 1 APTOS) (Some [mkAccount 7 1]) _ eq_refl Hlookup);
    [discriminate | exact Hok].
Defined.

(** X17. A TRANSACTION whose payload carries the hash of a transaction
    that was sent already, on an EVM network, is looked up, not sent.
    When the look-up throws, the error is swallowed: the request
    succeeds all the same, resolves with [{hash: txHash}], and no pending
    transaction is recorded. When the look-up returns, it returns the
    transaction, which is recorded and is the result. (While the
    transaction is not found the look-up goes on polling: it has no
    third answer.) *)
Theorem X17_failed_poll_is_not_a_failure :
  forall env req w net accounts pl txHash,
    type req = TRANSACTION ->
    lookupTarget env req = Ok (Some net, accounts) ->
    net_kind net = EVM ->
    formatTxPayload env (Some net) (payload req) = Ok pl ->
    pl_signedTx pl = None -> pl_txHash pl = Some txHash ->
    (forall e,
       pollTransaction env net (Some txHash) = Throw e ->
       attempt env req true w = (w, Ok (RespHash (Some txHash)))) /\
    (forall r,
       pollTransaction env net (Some txHash) = Ok r ->
       attempt env req true w
       = (w, match evmAddPendingTx env (firstAccount accounts) (txParams pl) r with
             | Ok _ => Ok (RespData r)
             | Throw e => Throw e
             end)).
Proof.
  intros env req w net accounts pl txHash Hty Hlookup Hkind Hfmt Hs Hh.
  split; intros x Hpoll;
    rewrite (attempt_transaction env req w Hty);
    rewrite (processRequestSignTx_found env req net accounts Hlookup);
    rewrite Hfmt, Hs, Hh, Hkind; simpl;
    rewrite (processRequestIntermediate_transaction _ _ _ _ _ _ _ Hty Hlookup);
    unfold dispatchTransaction; rewrite Hfmt; simpl; rewrite Hkind; simpl;
    rewrite Hpoll; simpl; [reflexivity|].
  now destruct (evmAddPendingTx env (firstAccount accounts) (txParams pl) x).
Qed.

Lemma X17_witness :
  let req := withId (sampleRequest TRANSACTION) 0 in
  pollTransaction hashOnlyEnv (mkNetwork 1 EVM) (Some "0xabc")
  = Throw (newError "timeout") /\
  attempt hashOnlyEnv req true blank = (blank, Ok (RespHash (Some "0xabc"))).
Proof.
  intros req.
  assert (Hpoll : pollTransaction hashOnlyEnv (mkNetwork 1 EVM) (Some "0xabc")
                  = Throw (newError "timeout")) by reflexivity.
  split; [exact Hpoll|].
  exact (proj1 (X17_failed_poll_is_not_a_failure hashOnlyEnv req blank
                  (mkNetwork 1 EVM) (Some [mkAccount 7 1])
                  (mkTxPayload "" "" None (Some "0xabc")) "0xabc"
                  eq_refl eq_refl eq_refl eq_refl eq_refl eq_refl)
           _ Hpoll).
Defined.

Lemma attempt_lookup_fails env req w e :
  type req <> UNLOCK ->
  lookupTarget env req = Throw e ->
  attempt env req true w = (w, Throw e).
Proof.
  intros Hty Hlookup. unfold attempt.
  destruct (ConsentType_eqb (type req) TRANSACTION) eqn:Htx.
  - unfold processRequestSignTx. now rewrite Hlookup.
  - simpl. unfold processRequestIntermediate. rewrite Hlookup.
    destruct (type req); try reflexivity. congruence.
Qed.

Lemma processRequest_lookup_fails env req w index h :
  type req <> UNLOCK ->
  lookupTarget env req = Throw assertionError ->
  findIndex (fun r => (id req =? id r)%Z) (consentRequests w) = Some index ->
  map_get (id req) (waits w) = Some h ->
  let out := processRequest env req true w in
  snd out = Ok tt /\
  consentRequests (fst out) = splice_remove index (consentRequests w) /\
  settlements (fst out)
  = settlements w ++ [(h, Rejected (reviveError (serializeError assertionError)))] /\
  tokens (fst out) = tokens w /\
  notifications (fst out)
  = notifications w ++
    (if ConsentType_eqb (type req) TRANSACTION
     then [("Failed transaction",
            ("Transaction encountered an error. ("
             ++ err_text assertionError ++ ")")%string)]
     else []).
Proof.
  intros Hty Hlookup Hfind Hget out. subst out.
  unfold processRequest. rewrite (attempt_lookup_fails env req w _ Hty Hlookup).
  unfold shouldNotify.
  assert (Hno : isUserRejection assertionError = false) by reflexivity.
  rewrite Hno, andb_true_r.
  destruct (ConsentType_eqb (type req) TRANSACTION).
  - destruct (processRequestPost_found req RespUndefined
                (Some (serializeError assertionError))
                (showNotification "Failed transaction"
                   ("Transaction encountered an error. ("
                    ++ err_text assertionError ++ ")")%string w) index Hfind)
      as (Hres & Hq & _ & _ & Hse & _ & _ & Hno' & Htk).
    unfold settledBy in Hse. wsimpl. rewrite Hget in Hse.
    repeat split; assumption.
  - destruct (processRequestPost_found req RespUndefined
                (Some (serializeError assertionError)) w index Hfind)
      as (Hres & Hq & _ & _ & Hse & _ & _ & Hno' & Htk).
    unfold settledBy in Hse. rewrite Hget in Hse. rewrite app_nil_r.
    repeat split; assumption.
Qed.

(** X18. Approving a request that names a network the registry does not
    know, or, its network if any being found, accounts of which the
    wallet store knows none, fails with an assertion error before a
    provider or another service is called, whatever the type of the
    request but UNLOCK. The request is then settled like any failure: the
    waiting promise is rejected with an [Error] that carries the message
    of the assertion, the entry leaves the queue, the token table is as
    before, and for a TRANSACTION the failure notification is shown.
    UNLOCK looks nothing up and resolves with [undefined]. *)
Theorem X18_unknown_network_or_account :
  (forall env req n,
     networkId req = Some n -> getNetwork env n = None ->
     lookupTarget env req = Throw assertionError) /\
  (forall env req ids,
     (networkId req = None \/
      exists n net, networkId req = Some n /\ getNetwork env n = Some net /\
                    getProvider env net = Ok tt) ->
     (accountId req = AccMany ids \/
      exists a, accountId req = AccOne a /\ ids = [a]) ->
     getChainAccounts env ids = Ok [] ->
     lookupTarget env req = Throw assertionError) /\
  (forall env req w,
     type req <> UNLOCK ->
     lookupTarget env req = Throw assertionError ->
     attempt env req true w = (w, Throw assertionError) /\
     forall index h,
       findIndex (fun r => (id req =? id r)%Z) (consentRequests w) = Some index ->
       map_get (id req) (waits w) = Some h ->
       let out := processRequest env req true w in
       snd out = Ok tt /\
       consentRequests (fst out) = splice_remove index (consentRequests w) /\
       settlements (fst out)
       = settlements w
         ++ [(h, Rejected (newError "The expression evaluated to a falsy value"))] /\
       tokens (fst out) = tokens w /\
       notifications (fst out)
       = notifications w ++
         (if ConsentType_eqb (type req) TRANSACTION
          then [("Failed transaction",
                 ("Transaction encountered an error. ("
                  ++ err_text assertionError ++ ")")%string)]
          else [])) /\
  (forall env req w,
     type req = UNLOCK ->
     attempt env req true w = (w, Ok RespUndefined)).
Proof.
  split; [|split; [|split]].
  - intros env req n Hnet Hnone. unfold lookupTarget. now rewrite Hnet, Hnone.
  - intros env req ids Hnet Hacc Hempty. unfold lookupTarget, lookupAccounts.
    destruct Hnet as [->|(n & net & -> & -> & Hprov)]; simpl;
      rewrite ?Hprov; simpl;
      destruct Hacc as [->|(a & -> & ->)]; now rewrite Hempty.
  - intros env req w Hty Hlookup.
    split; [now apply attempt_lookup_fails|].
    intros index h Hfind Hget.
    exact (processRequest_lookup_fails env req w index h Hty Hlookup Hfind Hget).
  - intros env req w Hty. unfold attempt, processRequestIntermediate.
    now rewrite Hty.
Qed.

Lemma X18_witness :
  let req := withId (sampleRequest SWITCH_NETWORK) 0 in
  let lone := withId (sampleRequest SIGN_MSG) 0 in
  let w := run [OpRequestConsent signingEnv (sampleRequest SIGN_MSG) None true]
             (boot blank) in
  lookupTarget noNetworkEnv req = Throw assertionError /\
  lookupTarget noAccountsEnv lone = Throw assertionError /\
  attempt noAccountsEnv lone true w = (w, Throw assertionError) /\
  consentRequests (fst (processRequest noAccountsEnv lone true w)) = [] /\
  settlements (fst (processRequest noAccountsEnv lone true w))
  = [(0%nat, Rejected (newError "The expression evaluated to a falsy value"))] /\
  attempt noNetworkEnv (withId (sampleRequest UNLOCK) 0) true blank
  = (blank, Ok RespUndefined).
Proof.
  intros req lone w.
  assert (Hnet : lookupTarget noNetworkEnv req = Throw assertionError).
  { apply (proj1 X18_unknown_network_or_account noNetworkEnv req 1%Z);
      reflexivity. }
  assert (Hacc : lookupTarget noAccountsEnv lone = Throw assertionError).
  { apply (proj1 (proj2 X18_unknown_network_or_account) noAccountsEnv lone [7%Z]).
    - right. exists 1%Z, (mkNetwork 1 EVM). repeat split; reflexivity.
    - right. exists 7%Z. split; reflexivity.
    - reflexivity. }
  split; [exact Hnet|]. split; [exact Hacc|].
  destruct (proj1 (proj2 (proj2 X18_unknown_network_or_account))
              noAccountsEnv lone w) as [Hatt Hsettle];
    [discriminate | exact Hacc |].
  split; [exact Hatt|].
  destruct (Hsettle 0%nat 0%nat) as (_ & Hq & Hse & _);
    [vm_compute; reflexivity | vm_compute; reflexivity |].
  split; [exact Hq|]. split; [exact Hse|].
  apply (proj2 (proj2 (proj2 X18_unknown_network_or_account))). reflexivity.
Defined.

(* ===================================================================== *)
(** * A request from admission to decision *)
(* ===================================================================== *)

Lemma findIndex_app_first {A} (f : A -> bool) (L R : list A) x :
  (forall y, In y L -> f y = false) -> f x = true ->
  findIndex f (L ++ x :: R) = Some (List.length L).
Proof.
  induction L as [|a L IH]; simpl; intros HL Hx.
  - now rewrite Hx.
  - rewrite (HL a (or_introl eq_refl)), IH; [reflexivity | | assumption].
    intros y Hy. apply HL. now right.
Qed.

Lemma splice_remove_middle {A} (L R : list A) x :
  splice_remove (List.length L) (L ++ x :: R) = L ++ R.
Proof.
  induction L as [|a L IH]; [reflexivity|].
  change (splice_remove (List.length (a :: L)) ((a :: L) ++ x :: R))
    with (a :: splice_remove (List.length L) (L ++ x :: R)).
  now rewrite IH.
Qed.

Lemma map_get_set_eq k h m : map_get k (map_set k h m) = Some h.
Proof.
  unfold map_get. induction m as [|a m IH]; simpl.
  - now rewrite Z.eqb_refl.
  - destruct (fst a =? k)%Z eqn:Hk; simpl.
    + now rewrite Z.eqb_refl.
    + now rewrite Hk.
Qed.

Lemma map_delete_set_fresh k h m :
  ~ In k (map fst m) -> map_delete k (map_set k h m) = m.
Proof.
  unfold map_delete. induction m as [|a m IH]; simpl; intros Hfresh.
  - now rewrite Z.eqb_refl.
  - destruct (fst a =? k)%Z eqn:Hk.
    + apply Z.eqb_eq in Hk. tauto.
    + simpl. rewrite Hk. simpl. rewrite IH; [reflexivity | tauto].
Qed.

Lemma splice_remove_filter req q index :
  NoDup (map id q) ->
  findIndex (fun r => (id req =? id r)%Z) q = Some index ->
  splice_remove index q = filter (fun r => negb (id req =? id r)%Z) q.
Proof.
  intros Hnd Hfind.
  destruct (findIndex_split _ _ _ Hfind)
    as (before & x & after & -> & Hx & Hbefore & ->).
  rewrite filter_app. simpl. rewrite Hx. simpl.
  rewrite (filter_all _ before), (filter_all _ after); [reflexivity | |].
  - intros y Hy. apply negb_true_iff, Z.eqb_neq. intros Heq.
    apply Z.eqb_eq in Hx. rewrite map_app in Hnd. simpl in Hnd.
    apply NoDup_remove_2 in Hnd. apply Hnd. apply in_or_app. right.
    rewrite <- Hx, Heq. now apply in_map.
  - intros y Hy. now rewrite (Hbefore y Hy).
Qed.

Lemma filter_comm {A} (f g : A -> bool) (l : list A) :
  filter f (filter g l) = filter g (filter f l).
Proof.
  induction l as [|a l IH]; simpl; [reflexivity|].
  destruct (f a) eqn:Hf, (g a) eqn:Hg; simpl; rewrite ?Hf, ?Hg, IH; reflexivity.
Qed.

(* ===================================================================== *)
(** * Decisions that end with any thrown value *)
(* ===================================================================== *)

Lemma processRequestPostAny_eq req resolveData v w :
  processRequestPostAny req resolveData v w
  = if unsearchable v then
      match findIndex (fun r => (id req =? id r)%Z) (consentRequests w) with
      | None => (w, Throw (notFoundError (id req)))
      | Some _ => (set_waits (map_delete (id req) (waits w)) w,
                   Throw inOperatorError)
      end
    else processRequestPost req resolveData
           (match v with VObject e => Some e | _ => None end) w.
Proof.
  unfold processRequestPostAny, processRequestPost.
  destruct (findIndex (fun r => (id req =? id r)%Z) (consentRequests w));
    destruct v as [e|s|[|]| |]; simpl; try reflexivity;
    destruct (String.eqb s ""); reflexivity.
Qed.

Lemma noteFailure_frame text w :
  consentRequests (noteFailure text w) = consentRequests w /\
  waits (noteFailure text w) = waits w.
Proof.
  unfold noteFailure.
  destruct (negb (includes "User rejected the request" text)); split; reflexivity.
Qed.

Lemma noted_frame req tried w :
  let w1 := noted req tried w in
  consentRequests w1 = consentRequests w /\
  waits w1 = waits w /\
  nextId w1 = nextId w /\
  sessionStore w1 = sessionStore w /\
  promiseCount w1 = promiseCount w /\
  settlements w1 = settlements w /\
  badge w1 = badge w /\
  tokens w1 = tokens w /\
  windowsOpened w1 = windowsOpened w /\
  notifications w1 = notifications w ++ failureNote req tried.
Proof.
  unfold noted, failureNote, noteFailure.
  destruct tried as [response|err];
    [rewrite app_nil_r; repeat split; reflexivity|].
  destruct (ConsentType_eqb (type req) TRANSACTION);
    [|rewrite app_nil_r; repeat split; reflexivity].
  destruct (thrownText err) as [text|];
    [|rewrite app_nil_r; repeat split; reflexivity].
  destruct (includes "User rejected the request" text); simpl;
    rewrite ?app_nil_r; repeat split; reflexivity.
Qed.

Lemma unsearchable_serializeThrown err :
  unsearchable (serializeThrown err) = unsearchable err.
Proof. now destruct err. Qed.

(** [processRequest] from its [catch] on, path by path. *)
Lemma processRequestAfterTry_eq req tried w :
  processRequestAfterTry req tried w
  = if catchThrows req tried then (w, Throw typeError)
    else if endsUnsearchable tried then
      match findIndex (fun r => (id req =? id r)%Z) (consentRequests w) with
      | None => (noted req tried w, Throw (notFoundError (id req)))
      | Some _ => (set_waits (map_delete (id req) (waits w)) (noted req tried w),
                   Throw inOperatorError)
      end
    else processRequestPost req (resolveOf tried) (rejectOf tried)
           (noted req tried w).
Proof.
  destruct tried as [response|err].
  - simpl. now rewrite processRequestPostAny_eq.
  - unfold processRequestAfterTry, catchThrows, endsUnsearchable, noted,
      resolveOf, rejectOf.
    destruct (ConsentType_eqb (type req) TRANSACTION); simpl.
    + destruct (thrownText err) as [text|] eqn:Htext; [|reflexivity].
      rewrite processRequestPostAny_eq, unsearchable_serializeThrown.
      destruct (noteFailure_frame text w) as [-> ->].
      destruct err; simpl; try reflexivity; discriminate.
    + rewrite processRequestPostAny_eq, unsearchable_serializeThrown.
      now destruct err.
Qed.

(** [processRequest] is [processRequestAfterTry] at the end of the
    [try] block, for collaborators that throw error objects. *)
Lemma processRequest_afterTry env req approve w :
  processRequest env req approve w
  = processRequestAfterTry req (triedOf (snd (attempt env req approve w)))
      (fst (attempt env req approve w)).
Proof.
  unfold processRequest.
  destruct (attempt env req approve w) as [w1 [response|err]]; simpl.
  - now rewrite processRequestPostAny_eq.
  - unfold shouldNotify, isUserRejection, noteFailure.
    destruct (ConsentType_eqb (type req) TRANSACTION); simpl;
      rewrite processRequestPostAny_eq; simpl; [|reflexivity].
    now destruct (includes "User rejected the request" (err_text err)).
Qed.

Lemma processRequest_decide env req approve w :
  processRequest env req approve w
  = decide req (triedOf (snd (attempt env req approve w)))
      (tokens (fst (attempt env req approve w))) w.
Proof.
  rewrite processRequest_afterTry. unfold decide.
  destruct (attempt_frame env req approve w) as [tbl ->]. reflexivity.
Qed.

Lemma step_processRequest_occur env req approve w :
  step (OpProcessRequest env req approve) w
  = occur (Decision req (triedOf (snd (attempt env req approve w)))
             (tokens (fst (attempt env req approve w)))) w.
Proof. simpl. now rewrite processRequest_decide. Qed.

(** The four ways a decision can go. *)
Lemma decide_cases req tried tbl w :
  let out := decide req tried tbl w in
  (snd out = Throw typeError /\ catchThrows req tried = true /\
   fst out = set_tokens tbl w) \/
  (snd out = Throw (notFoundError (id req)) /\ catchThrows req tried = false /\
   findIndex (fun r => (id req =? id r)%Z) (consentRequests w) = None /\
   fst out = noted req tried (set_tokens tbl w)) \/
  (exists index,
     snd out = Throw inOperatorError /\ catchThrows req tried = false /\
     endsUnsearchable tried = true /\
     findIndex (fun r => (id req =? id r)%Z) (consentRequests w) = Some index /\
     fst out = set_waits (map_delete (id req) (waits w))
                 (noted req tried (set_tokens tbl w))) \/
  (exists index,
     snd out = Ok tt /\ catchThrows req tried = false /\
     endsUnsearchable tried = false /\
     findIndex (fun r => (id req =? id r)%Z) (consentRequests w) = Some index /\
     consentRequests (fst out) = splice_remove index (consentRequests w) /\
     sessionStore (fst out) = Some (consentRequests (fst out)) /\
     badge (fst out) = badgeOf (consentRequests (fst out)) /\
     waits (fst out) = map_delete (id req) (waits w) /\
     settlements (fst out) = settlements w ++ settledBy req (settlementOf tried) w /\
     nextId (fst out) = nextId w /\
     promiseCount (fst out) = promiseCount w /\
     notifications (fst out) = notifications w ++ failureNote req tried /\
     tokens (fst out) = tbl /\
     windowsOpened (fst out) = windowsOpened w).
Proof.
  intros out. subst out. unfold decide. rewrite processRequestAfterTry_eq.
  destruct (noted_frame req tried (set_tokens tbl w))
    as (Hq & Hw & Hn & Hst & Hpc & Hse & Hb & Htk & Hwo & Hno).
  cbn [set_tokens consentRequests waits nextId sessionStore promiseCount
       settlements badge tokens windowsOpened notifications] in *.
  destruct (catchThrows req tried) eqn:Hcatch; [left; now repeat split|].
  right.
  destruct (findIndex (fun r => (id req =? id r)%Z) (consentRequests w))
    as [index|] eqn:Hfind.
  - right. destruct (endsUnsearchable tried) eqn:Hun.
    + left. exists index. now repeat split.
    + right. exists index.
      assert (Hfind' : findIndex (fun r => (id req =? id r)%Z)
                         (consentRequests (noted req tried (set_tokens tbl w)))
                       = Some index) by now rewrite Hq.
      destruct (processRequestPost_found req (resolveOf tried) (rejectOf tried)
                  _ _ Hfind')
        as (Hres & Hq' & Hst' & Hw' & Hse' & Hn' & Hpc' & Hno' & Htk').
      destruct (processRequestPost_badge req (resolveOf tried) (rejectOf tried)
                  _ _ Hfind') as [Hb' Hwo'].
      rewrite Hq in Hq'. rewrite Hw in Hw'. rewrite Hse in Hse'.
      rewrite Hn in Hn'. rewrite Hpc in Hpc'. rewrite Hno in Hno'.
      rewrite Htk in Htk'. rewrite Hwo in Hwo'.
      repeat split; try assumption.
      rewrite Hse'. unfold settledBy. rewrite Hw. f_equal.
      destruct (map_get (id req) (waits w)); [|reflexivity].
      destruct tried as [response|[e|s|b| |]]; reflexivity.
  - left.
    assert (Hfind' : findIndex (fun r => (id req =? id r)%Z)
                       (consentRequests (noted req tried (set_tokens tbl w)))
                     = None) by now rewrite Hq.
    rewrite (processRequestPost_missing _ _ _ _ Hfind').
    destruct (endsUnsearchable tried); now repeat split.
Qed.

(* --------------------------------------------------------------------- *)
(** ** The invariants along a history *)

Lemma HandlesOk_drop w w' k :
  HandlesOk w ->
  waits w' = map_delete k (waits w) ->
  settlements w' = settlements w ->
  promiseCount w' = promiseCount w ->
  HandlesOk w'.
Proof.
  intros [Hd Hk Hs Ho Hu] Hw Hse Hpc.
  constructor; rewrite ?Hw, ?Hse, ?Hpc; try assumption.
  - now apply NoDup_map_filter.
  - intros e He. apply map_delete_In in He. now apply Hk.
  - intros e He. apply map_delete_In in He. now apply Hu.
Qed.

Lemma HandlesOk_decide req tried tbl w :
  HandlesOk w -> HandlesOk (fst (decide req tried tbl w)).
Proof.
  intros Hok.
  destruct (noted_frame req tried (set_tokens tbl w))
    as (_ & Hw & _ & _ & Hpc & Hse & _).
  destruct (decide_cases req tried tbl w)
    as [(_ & _ & ->)
       |[(_ & _ & _ & ->)
        |[(index & _ & _ & _ & _ & ->)
         |(index & _ & _ & _ & _ & _ & _ & _ & Hw' & Hse' & _ & Hpc' & _)]]].
  - eapply HandlesOk_frame; [exact Hok | reflexivity..].
  - eapply HandlesOk_frame; [exact Hok | exact Hw | exact Hse | exact Hpc].
  - eapply (HandlesOk_drop w _ (id req)); [exact Hok | reflexivity | exact Hse
                                           | exact Hpc].
  - eapply HandlesOk_settle; [exact Hok | exact Hw' | exact Hse' | exact Hpc'].
Qed.

Lemma QueueOk_decide req tried tbl w :
  QueueOk w -> QueueOk (fst (decide req tried tbl w)).
Proof.
  intros Hok.
  destruct (noted_frame req tried (set_tokens tbl w))
    as (Hq & Hw & Hn & Hst & _).
  destruct (decide_cases req tried tbl w)
    as [(_ & _ & ->)
       |[(_ & _ & _ & ->)
        |[(index & _ & _ & _ & _ & ->)
         |(index & _ & _ & _ & Hfind & Hq' & Hst' & _ & Hw' & _ & Hn' & _)]]].
  - eapply QueueOk_frame; [exact Hok | reflexivity..].
  - eapply QueueOk_frame; [exact Hok | exact Hq | exact Hw | exact Hn | exact Hst].
  - destruct Hok as [Hi Hk Hd Hkd Hst0].
    constructor; cbn [set_waits consentRequests waits nextId sessionStore];
      rewrite ?Hq, ?Hn, ?Hst; try assumption.
    + intros e Hin. apply map_delete_In in Hin. now apply Hk.
    + now apply NoDup_map_filter.
  - destruct (findIndex_split _ _ _ Hfind)
      as (before & x & after & Hsplit & _ & _ & Hrem).
    destruct Hok as [Hi Hk Hd Hkd Hst0].
    constructor; rewrite ?Hq', ?Hw', ?Hn', ?Hrem.
    + intros r Hin. apply Hi. rewrite Hsplit.
      apply in_app_or in Hin. apply in_or_app. simpl. tauto.
    + intros e Hin. apply map_delete_In in Hin. now apply Hk.
    + rewrite Hsplit, map_app in Hd. simpl in Hd.
      apply NoDup_remove_1 in Hd. now rewrite map_app.
    + now apply NoDup_map_filter.
    + now rewrite Hst', Hq', Hrem.
Qed.

Lemma QueueOk_occur ev w : QueueOk w -> QueueOk (occur ev w).
Proof.
  destruct ev as [o|req tried tbl]; simpl.
  - apply QueueOk_step.
  - apply QueueOk_decide.
Qed.

Lemma HandlesOk_occur ev w : HandlesOk w -> HandlesOk (occur ev w).
Proof.
  destruct ev as [o|req tried tbl]; simpl.
  - apply HandlesOk_step.
  - apply HandlesOk_decide.
Qed.

Lemma history_invariant (P : World -> Prop) (allowed : Event -> bool) :
  (forall ev w, allowed ev = true -> QueueOk w -> HandlesOk w -> P w ->
                P (occur ev w)) ->
  forall evs w, forallb allowed evs = true ->
                QueueOk w -> HandlesOk w -> P w ->
                QueueOk (history evs w) /\ HandlesOk (history evs w) /\
                P (history evs w).
Proof.
  intros Hstep evs. induction evs as [|ev evs IH]; intros w Hall Hq Hh Hp;
    [split; [|split]; assumption|].
  simpl in *. apply andb_true_iff in Hall. destruct Hall as [Hev Hall].
  apply IH; try assumption.
  - now apply QueueOk_occur.
  - now apply HandlesOk_occur.
  - now apply Hstep.
Qed.

Lemma history_ok evs :
  QueueOk (history evs (boot blank)) /\ HandlesOk (history evs (boot blank)).
Proof.
  destruct (history_invariant (fun _ => True) (fun _ => true)
              (fun _ _ _ _ _ _ => I) evs (boot blank)) as (Hq & Hh & _).
  - clear. induction evs; [reflexivity | assumption].
  - apply QueueOk_boot_blank.
  - apply HandlesOk_boot, HandlesOk_blank.
  - exact I.
  - now split.
Qed.

(** A run is a history of calls. *)
Lemma history_calls ops w : history (map Call ops) w = run ops w.
Proof.
  revert w. induction ops as [|o ops IH]; intros w; [reflexivity|].
  simpl. apply IH.
Qed.

(* --------------------------------------------------------------------- *)
(** ** A failure that is not an error object *)

Lemma map_get_delete_same k m : map_get k (map_delete k m) = None.
Proof.
  unfold map_delete.
  rewrite (map_get_filter (fun x => negb (x =? k)%Z)).
  now rewrite Z.eqb_refl.
Qed.

(** C6. A failure inside [processRequest] is not always a rejection with
    the entry removed. When the [try] block ends with a thrown string
    that is not empty (a collaborator may throw any value), the entry of
    [waits] is deleted, ['message' in rejectData] then throws a
    [TypeError], and neither [reject] nor [splice] is reached: the call
    fails, the request stays in the queue and in the store, and the
    promise is out of the registry without having been settled. When it
    ends with a thrown [undefined], a request of another type than
    TRANSACTION is removed but its promise is resolved, not rejected;
    for a TRANSACTION the [catch] throws on [err.toString()] and nothing
    is settled or removed. With a thrown error object [processRequest]
    is [processRequestAfterTry], and the promise is rejected and the
    entry removed. *)
Theorem C6_thrown_primitive_keeps_entry :
  (forall req s w index h,
     s <> "" ->
     findIndex (fun r => (id req =? id r)%Z) (consentRequests w) = Some index ->
     map_get (id req) (waits w) = Some h ->
     let out := processRequestAfterTry req (Raised (VString s)) w in
     snd out = Throw inOperatorError /\
     consentRequests (fst out) = consentRequests w /\
     sessionStore (fst out) = sessionStore w /\
     map_get (id req) (waits (fst out)) = None /\
     settlements (fst out) = settlements w) /\
  (forall req w index h,
     type req <> TRANSACTION ->
     findIndex (fun r => (id req =? id r)%Z) (consentRequests w) = Some index ->
     map_get (id req) (waits w) = Some h ->
     let out := processRequestAfterTry req (Raised VUndefined) w in
     snd out = Ok tt /\
     consentRequests (fst out) = splice_remove index (consentRequests w) /\
     settlements (fst out) = settlements w ++ [(h, Resolved RespUndefined)]) /\
  (forall req w,
     type req = TRANSACTION ->
     processRequestAfterTry req (Raised VUndefined) w = (w, Throw typeError)) /\
  (forall env req approve w,
     processRequest env req approve w
     = processRequestAfterTry req (triedOf (snd (attempt env req approve w)))
         (fst (attempt env req approve w))).
Proof.
  split; [|split; [|split]].
  - intros req s w index h Hs Hfind Hget out. subst out.
    assert (Hun : endsUnsearchable (Raised (VString s)) = true).
    { simpl. apply negb_true_iff, String.eqb_neq. exact Hs. }
    assert (Hcatch : catchThrows req (Raised (VString s)) = false)
      by (simpl; apply andb_false_r).
    rewrite processRequestAfterTry_eq, Hcatch, Hun, Hfind.
    destruct (noted_frame req (Raised (VString s)) w)
      as (Hq & Hw & _ & Hst & _ & Hse & _).
    cbn [fst snd set_waits consentRequests waits sessionStore settlements].
    repeat split; try assumption.
    apply map_get_delete_same.
  - intros req w index h Hty Hfind Hget out. subst out.
    apply ConsentType_eqb_neq in Hty.
    unfold processRequestAfterTry. rewrite Hty. simpl.
    rewrite processRequestPostAny_eq. simpl.
    destruct (processRequestPost_found req RespUndefined None w index Hfind)
      as (Hres & Hq & _ & _ & Hse & _).
    unfold settledBy in Hse. rewrite Hget in Hse. now repeat split.
  - intros req w Hty. unfold processRequestAfterTry. rewrite Hty. reflexivity.
  - exact processRequest_afterTry.
Qed.

Lemma C6_witness :
  let w := run [OpRequestConsent signingEnv (sampleRequest SIGN_MSG) None true]
             (boot blank) in
  let req := withId (sampleRequest SIGN_MSG) 0 in
  let out := processRequestAfterTry req (Raised (VString "boom")) w in
  map_get (id req) (waits w) = Some 0%nat /\
  snd out = Throw inOperatorError /\
  consentRequests (fst out) = [req] /\
  sessionStore (fst out) = Some [req] /\
  map_get (id req) (waits (fst out)) = None /\
  settlements (fst out) = [].
Proof.
  intros w req out.
  assert (Hget : map_get (id req) (waits w) = Some 0%nat)
    by (vm_compute; reflexivity).
  split; [exact Hget|].
  assert (Hne : "boom" <> "") by discriminate.
  assert (Hfind : findIndex (fun r => (id req =? id r)%Z) (consentRequests w)
                  = Some 0%nat) by (vm_compute; reflexivity).
  exact (proj1 C6_thrown_primitive_keeps_entry req "boom" w 0%nat 0%nat
           Hne Hfind Hget).
Defined.

(* --------------------------------------------------------------------- *)
(** ** The failure notification *)

Lemma decide_notifications req tried tbl w :
  notifications (fst (decide req tried tbl w))
  = notifications w ++ (if catchThrows req tried then [] else failureNote req tried).
Proof.
  destruct (noted_frame req tried (set_tokens tbl w))
    as (_ & _ & _ & _ & _ & _ & _ & _ & _ & Hno).
  destruct (decide_cases req tried tbl w)
    as [(_ & -> & ->)
       |[(_ & -> & _ & ->)
        |[(index & _ & -> & _ & _ & ->)
         |(index & _ & -> & _ & _ & _ & _ & _ & _ & _ & _ & _ & Hno' & _)]]].
  - simpl. now rewrite app_nil_r.
  - exact Hno.
  - exact Hno.
  - exact Hno'.
Qed.

Lemma processRequestAfterTry_notifications req tried w :
  notifications (fst (processRequestAfterTry req tried w))
  = notifications w ++ (if catchThrows req tried then [] else failureNote req tried).
Proof.
  pose proof (decide_notifications req tried (tokens w) w) as H.
  unfold decide in H.
  replace (set_tokens (tokens w) w) with w in H by now destruct w.
  exact H.
Qed.

(** The two ways in which the test of the [catch] departs from the kind
    of the failure: a user rejection that is worded otherwise is
    notified, and a failure that is no user rejection but quotes the
    words is not. *)
Lemma C8_counterexample :
  let w := run [OpRequestConsent signingEnv (sampleRequest TRANSACTION) None true]
             (boot blank) in
  let req := withId (sampleRequest TRANSACTION) 0 in
  type req = TRANSACTION /\
  (isUserRejectionKind userDeniedSignature = true /\
   snd (attempt (failingSendEnv userDeniedSignature) req true w)
   = Throw userDeniedSignature /\
   notifications (fst (processRequest (failingSendEnv userDeniedSignature)
                         req true w))
   = [("Failed transaction",
       ("Transaction encountered an error. ("
        ++ err_text userDeniedSignature ++ ")")%string)]) /\
  (isUserRejectionKind quotedRejection = false /\
   snd (attempt (failingSendEnv quotedRejection) req true w)
   = Throw quotedRejection /\
   notifications (fst (processRequest (failingSendEnv quotedRejection) req true w))
   = []).
Proof. vm_compute. repeat split; reflexivity. Qed.

(** C8. When the [try] block of [processRequest] fails with a value that
    has a text (every thrown value but [null] and [undefined]), the
    failure notification is shown exactly when the request is a
    TRANSACTION and the text of the thrown value, [err.toString()], does
    not contain the words [User rejected the request]. The user-rejected
    error of the service contains them, so a disapproval shows nothing.
    Failures of the other request types, whatever is thrown, and
    successes show nothing. For collaborators that throw error objects
    this is the rule by which [processRequest] notifies. *)
Theorem C8_notification_by_error_text :
  (forall req err text w,
     thrownText err = Some text ->
     let w' := fst (processRequestAfterTry req (Raised err) w) in
     let note := ("Failed transaction",
                  ("Transaction encountered an error. (" ++ text ++ ")")%string) in
     (type req = TRANSACTION /\
      includes "User rejected the request" text = false ->
      notifications w' = notifications w ++ [note]) /\
     (~ (type req = TRANSACTION /\
         includes "User rejected the request" text = false) ->
      notifications w' = notifications w)) /\
  (forall req err w,
     type req <> TRANSACTION ->
     notifications (fst (processRequestAfterTry req (Raised err) w))
     = notifications w) /\
  (forall req response w,
     notifications (fst (processRequestAfterTry req (Done response) w))
     = notifications w) /\
  (forall env req approve w err,
     snd (attempt env req approve w) = Throw err ->
     let w' := fst (processRequest env req approve w) in
     let note := ("Failed transaction",
                  ("Transaction encountered an error. (" ++ err_text err ++ ")")%string) in
     (type req = TRANSACTION /\ isUserRejection err = false ->
      notifications w' = notifications w ++ [note]) /\
     (~ (type req = TRANSACTION /\ isUserRejection err = false) ->
      notifications w' = notifications w)) /\
  (forall env req approve w response,
     snd (attempt env req approve w) = Ok response ->
     notifications (fst (processRequest env req approve w)) = notifications w) /\
  (forall env req w,
     notifications (fst (processRequest env req false w)) = notifications w) /\
  isUserRejection userRejectedRequest = true.
Proof.
  split; [|split; [|split; [|split; [|split; [|split]]]]].
  - intros req err text w Htext w' note. subst w'.
    rewrite processRequestAfterTry_notifications.
    unfold catchThrows, failureNote. rewrite Htext, andb_false_r. split.
    + intros [Hty Hinc]. now rewrite Hty, Hinc.
    + intros Hnot.
      destruct (ConsentType_eqb (type req) TRANSACTION) eqn:Hty;
        [|now rewrite app_nil_r].
      destruct (includes "User rejected the request" text) eqn:Hinc;
        [now rewrite app_nil_r|].
      exfalso. apply Hnot. split; [now apply ConsentType_eqb_eq | reflexivity].
  - intros req err w Hty. apply ConsentType_eqb_neq in Hty.
    rewrite processRequestAfterTry_notifications.
    unfold catchThrows, failureNote. rewrite Hty. apply app_nil_r.
  - intros req response w. rewrite processRequestAfterTry_notifications.
    apply app_nil_r.
  - intros env req approve w err Hthrow w' note. subst w'.
    rewrite processRequest_notifications, Hthrow. unfold shouldNotify. split.
    + intros [Hty Hrej]. now rewrite Hty, Hrej.
    + intros Hnot.
      destruct (ConsentType_eqb (type req) TRANSACTION) eqn:Hty;
        [|simpl; now rewrite app_nil_r].
      destruct (isUserRejection err) eqn:Hrej; [simpl; now rewrite app_nil_r|].
      exfalso. apply Hnot. split; [now apply ConsentType_eqb_eq | reflexivity].
  - intros env req approve w response Hok.
    rewrite processRequest_notifications, Hok. apply app_nil_r.
  - intros env req w. rewrite processRequest_notifications.
    change (snd (attempt env req false w)) with (@Throw Response userRejectedRequest).
    unfold shouldNotify.
    replace (isUserRejection userRejectedRequest) with true by reflexivity.
    rewrite andb_false_r. apply app_nil_r.
  - reflexivity.
Qed.

Lemma C8_witness :
  let w := run [OpRequestConsent signingEnv (sampleRequest TRANSACTION) None true]
             (boot blank) in
  let req := withId (sampleRequest TRANSACTION) 0 in
  let err := newError "nonce too low" in
  (thrownText (VString "insufficient funds") = Some "insufficient funds" /\
   (type req = TRANSACTION /\
    includes "User rejected the request" "insufficient funds" = false) /\
   notifications (fst (processRequestAfterTry req
                         (Raised (VString "insufficient funds")) w))
   = notifications w ++
     [("Failed transaction",
       "Transaction encountered an error. (insufficient funds)")]) /\
  (snd (attempt (failingSendEnv err) req true w) = Throw err /\
   (type req = TRANSACTION /\ isUserRejection err = false) /\
   notifications (fst (processRequest (failingSendEnv err) req true w))
   = notifications w ++
     [("Failed transaction",
       ("Transaction encountered an error. (" ++ err_text err ++ ")")%string)]).
Proof.
  intros w req err. split.
  - assert (Htext : thrownText (VString "insufficient funds")
                    = Some "insufficient funds") by reflexivity.
    assert (Hcond : type req = TRANSACTION /\
                    includes "User rejected the request" "insufficient funds"
                    = false) by (split; vm_compute; reflexivity).
    split; [exact Htext|]. split; [exact Hcond|].
    exact (proj1 (proj1 C8_notification_by_error_text req
                    (VString "insufficient funds") "insufficient funds" w Htext)
             Hcond).
  - assert (Hthrow : snd (attempt (failingSendEnv err) req true w) = Throw err)
      by (vm_compute; reflexivity).
    assert (Hcond : type req = TRANSACTION /\ isUserRejection err = false)
      by (split; vm_compute; reflexivity).
    split; [exact Hthrow|]. split; [exact Hcond|].
    exact (proj1 (proj1 (proj2 (proj2 (proj2 C8_notification_by_error_text)))
                    (failingSendEnv err) req true w err Hthrow) Hcond).
Defined.

(* --------------------------------------------------------------------- *)
(** ** A call that overtakes an admission *)

(** Run without another call in between, the two halves are
    [requestConsent]. *)
Lemma requestConsent_phases env request ctx waitCompleted w :
  requestConsent env request ctx waitCompleted w
  = match requestConsentQueue env request w with
    | (w1, Ok req) =>
        (fst (requestConsentRegister req ctx waitCompleted w1),
         Ok (snd (requestConsentRegister req ctx waitCompleted w1)))
    | (w1, Throw e) => (w1, Throw e)
    end.
Proof.
  unfold requestConsent, requestConsentQueue, requestConsentRegister.
  destruct (admissionGate env request); [|reflexivity].
  destruct waitCompleted; reflexivity.
Qed.

Lemma requestConsentQueue_fields env request w :
  admissionGate env request = Ok tt ->
  let w1 := fst (requestConsentQueue env request w) in
  snd (requestConsentQueue env request w) = Ok (withId request (nextId w)) /\
  consentRequests w1 = enqueue (withId request (nextId w)) (consentRequests w) /\
  nextId w1 = (nextId w + 1)%Z /\
  sessionStore w1 = Some (consentRequests w1) /\
  waits w1 = waits w /\
  promiseCount w1 = promiseCount w /\
  settlements w1 = settlements w.
Proof.
  intros Hgate. unfold requestConsentQueue. rewrite Hgate.
  wsimpl. repeat split; reflexivity.
Qed.

Lemma requestConsentRegister_fields req ctx w1 :
  let w2 := fst (requestConsentRegister req ctx true w1) in
  snd (requestConsentRegister req ctx true w1) = Awaiting req (promiseCount w1) /\
  waits w2 = map_set (id req) (promiseCount w1) (waits w1) /\
  promiseCount w2 = S (promiseCount w1) /\
  consentRequests w2 = consentRequests w1 /\
  nextId w2 = nextId w1 /\
  sessionStore w2 = sessionStore w1 /\
  settlements w2 = settlements w1.
Proof. unfold requestConsentRegister. wsimpl. repeat split; reflexivity. Qed.

Lemma QueueOk_queued env request w :
  admissionGate env request = Ok tt ->
  QueueOk w -> QueueOk (fst (requestConsentQueue env request w)).
Proof.
  intros Hgate Hok.
  destruct (requestConsentQueue_fields env request w Hgate)
    as (_ & Hq & Hn & Hst & Hw & _).
  destruct (requestConsent_fields env request None false w Hgate)
    as (Hq' & Hn' & Hst' & Hw' & _).
  apply (QueueOk_frame (fst (requestConsent env request None false w))).
  - now apply QueueOk_requestConsent.
  - now rewrite Hq, Hq'.
  - now rewrite Hw, Hw'.
  - now rewrite Hn, Hn'.
  - now rewrite Hst, Hst', Hq, Hq'.
Qed.

Lemma QueueOk_registered req ctx w1 :
  (id req < nextId w1)%Z ->
  QueueOk w1 -> QueueOk (fst (requestConsentRegister req ctx true w1)).
Proof.
  intros Hlt [Hi Hk Hd Hkd Hst].
  destruct (requestConsentRegister_fields req ctx w1)
    as (_ & Hw & _ & Hq & Hn & Hs & _).
  constructor; rewrite ?Hw, ?Hq, ?Hn, ?Hs; try assumption.
  - intros e Hin. apply (in_map fst) in Hin. apply map_set_keys in Hin.
    destruct Hin as [->|Hin]; [assumption|].
    apply in_map_iff in Hin. destruct Hin as (x & <- & Hx). now apply Hk.
  - now apply map_set_keys_NoDup.
Qed.

Lemma map_get_delete_ne k k' m :
  k <> k' -> map_get k (map_delete k' m) = map_get k m.
Proof.
  intros Hne. unfold map_delete.
  rewrite (map_get_filter (fun x => negb (x =? k')%Z)).
  destruct (k =? k')%Z eqn:Hk; [apply Z.eqb_eq in Hk; contradiction|reflexivity].
Qed.

Lemma findIndex_found_id req q index :
  findIndex (fun r => (id req =? id r)%Z) q = Some index ->
  exists x, In x q /\ id x = id req.
Proof.
  intros Hfind.
  destruct (findIndex_split _ _ _ Hfind) as (before & x & after & -> & Hx & _).
  exists x. split; [apply in_or_app; right; now left|].
  apply Z.eqb_eq in Hx. now symmetry.
Qed.

Lemma splice_remove_In {A} (f : A -> bool) (l : list A) index r :
  findIndex f l = Some index -> In r (splice_remove index l) -> In r l.
Proof.
  intros Hfind.
  destruct (findIndex_split _ _ _ Hfind) as (before & x & after & -> & _ & _ & ->).
  intros Hin. apply in_app_or in Hin. apply in_or_app. simpl. tauto.
Qed.

Lemma orphaned_decide req tried tbl w k h :
  orphaned k h w -> orphaned k h (fst (decide req tried tbl w)).
Proof.
  intros [Hget Hgone]. unfold orphaned.
  destruct (noted_frame req tried (set_tokens tbl w)) as (Hq & Hw & _).
  destruct (decide_cases req tried tbl w)
    as [(_ & _ & ->)
       |[(_ & _ & _ & ->)
        |[(index & _ & _ & _ & Hfind & ->)
         |(index & _ & _ & _ & Hfind & Hq' & _ & _ & Hw' & _)]]].
  - now split.
  - rewrite Hq, Hw. now split.
  - cbn [set_waits waits consentRequests]. rewrite Hq. split; [|assumption].
    destruct (findIndex_found_id _ _ _ Hfind) as (x & Hx & Hid).
    rewrite map_get_delete_ne; [assumption|].
    intros ->. now apply (Hgone x Hx).
  - rewrite Hq', Hw'. split.
    + destruct (findIndex_found_id _ _ _ Hfind) as (x & Hx & Hid).
      rewrite map_get_delete_ne; [assumption|].
      intros ->. now apply (Hgone x Hx).
    + intros r Hin. apply Hgone. eapply splice_remove_In; eassumption.
Qed.

Lemma orphaned_occur ev w k h :
  isRestartEvent ev = false -> QueueOk w ->
  orphaned k h w -> orphaned k h (occur ev w).
Proof.
  intros Hr Hok Horph.
  destruct ev as [[env request ctx waitCompleted|env req approve|ty|]|req tried tbl];
    try discriminate.
  - simpl. destruct Horph as [Hget Hgone].
    destruct (requestConsent_cases env request ctx waitCompleted w)
      as [(e & _ & ->)|(Hgate & _)]; [now split|].
    destruct (requestConsent_fields env request ctx waitCompleted w Hgate)
      as (Hq & _ & _ & Hw & _).
    assert (Hlt : (k < nextId w)%Z)
      by exact (keys_below _ Hok _ (map_get_In _ _ _ Hget)).
    split.
    + rewrite Hw. destruct waitCompleted; [|assumption].
      rewrite map_get_set_ne; [assumption | lia].
    + rewrite Hq. intros r Hin. apply enqueue_In in Hin.
      destruct Hin as [->|Hin]; [simpl; lia | now apply Hgone].
  - change (occur (Call (OpProcessRequest env req approve)) w)
      with (step (OpProcessRequest env req approve) w).
    rewrite step_processRequest_occur. now apply orphaned_decide.
  - simpl. destruct Horph as [Hget Hgone]. unfold clearRequests.
    split; wsimpl.
    + rewrite (map_get_filter
                 (fun x => negb (set_has (map id (removedOf ty (consentRequests w))) x))).
      destruct (set_has (map id (removedOf ty (consentRequests w))) k) eqn:Hhas;
        [|assumption].
      exfalso. apply set_has_In, in_map_iff in Hhas.
      destruct Hhas as (r & Hid & Hin). apply removedOf_In in Hin.
      now apply (Hgone r (proj1 Hin)).
    + intros r Hin. apply filter_In in Hin. now apply Hgone.
  - simpl. now apply orphaned_decide.
Qed.

(** X7. [requestConsent] registers its promise only after the write of
    the session store, and other calls may run in between. When
    [clearRequests] follows the queueing of a request and takes it out
    (it is called without a type or with the type of the request), the
    promise is then registered for a request that is no longer queued.
    Nothing the service does before its next restart settles this
    promise or takes it out of [waits]: its caller waits for ever. With
    no call in between, the two halves are [requestConsent]. *)
Theorem X7_cleared_during_admission :
  forall evs env request ctx ty later,
    admissionGate env request = Ok tt ->
    ty = None \/ ty = Some (new_type request) ->
    forallb (fun ev => negb (isRestartEvent ev)) later = true ->
    let w := history evs (boot blank) in
    let req := withId request (nextId w) in
    let queued := requestConsentQueue env request w in
    let cleared := clearRequests ty (fst queued) in
    let registered := requestConsentRegister req ctx true cleared in
    let w' := history later (fst registered) in
    requestConsent env request ctx true w
    = (fst (requestConsentRegister req ctx true (fst queued)),
       Ok (snd (requestConsentRegister req ctx true (fst queued)))) /\
    snd queued = Ok req /\
    In req (consentRequests (fst queued)) /\
    snd registered = Awaiting req (promiseCount w) /\
    map_get (id req) (waits w') = Some (promiseCount w) /\
    (forall r, In r (consentRequests w') -> id r <> id req) /\
    timesSettled (promiseCount w) w' = 0%nat.
Proof.
  intros evs env request ctx ty later Hgate Hty Hlater
         w req queued cleared registered w'.
  destruct (history_ok evs) as [Hq Hh]. fold w in Hq, Hh.
  destruct (requestConsentQueue_fields env request w Hgate)
    as (Hres & Hqueue & Hn & _ & Hw & Hpc & Hse).
  fold queued in Hres, Hqueue, Hn, Hw, Hpc, Hse. fold req in Hres, Hqueue.
  assert (Hin : In req (consentRequests (fst queued)))
    by (rewrite Hqueue; apply enqueue_In; now left).
  assert (Hq1 : QueueOk (fst queued)) by now apply QueueOk_queued.
  assert (Hh1 : HandlesOk (fst queued))
    by (eapply HandlesOk_frame; eassumption).
  assert (Hq2 : QueueOk cleared) by now apply QueueOk_clear.
  assert (Hh2 : HandlesOk cleared) by now apply HandlesOk_clear.
  assert (Hn2 : nextId cleared = (nextId w + 1)%Z)
    by (subst cleared; unfold clearRequests; wsimpl; exact Hn).
  assert (Hpc2 : promiseCount cleared = promiseCount w)
    by (subst cleared; unfold clearRequests; wsimpl; exact Hpc).
  assert (Hgone : forall r, In r (consentRequests cleared) -> id r <> id req).
  { subst cleared. unfold clearRequests. wsimpl. intros r Hr Hid.
    apply filter_In in Hr. destruct Hr as [_ Hkeep].
    apply negb_true_iff in Hkeep.
    assert (Hhas : set_has (map id (removedOf ty (consentRequests (fst queued))))
                     (id r) = true).
    { apply set_has_In. rewrite Hid. apply in_map. apply removedOf_In.
      split; [exact Hin|]. destruct Hty as [->| ->]; [exact I | reflexivity]. }
    congruence. }
  destruct (requestConsentRegister_fields req ctx cleared)
    as (Hres3 & Hw3 & Hpc3 & Hq3 & Hn3 & Hst3 & Hse3).
  fold registered in Hres3, Hw3, Hpc3, Hq3, Hn3, Hst3, Hse3.
  assert (Hq3' : QueueOk (fst registered)).
  { apply QueueOk_registered; [|exact Hq2]. rewrite Hn2. simpl. lia. }
  assert (Hh3 : HandlesOk (fst registered)).
  { eapply HandlesOk_register; [exact Hh2 | exact Hw3 | exact Hpc3 | exact Hse3]. }
  assert (Horph : orphaned (id req) (promiseCount w) (fst registered)).
  { split.
    - rewrite Hw3, Hpc2. apply map_get_set_eq.
    - now rewrite Hq3. }
  destruct (history_invariant (orphaned (id req) (promiseCount w))
              (fun ev => negb (isRestartEvent ev))) with
    (evs := later) (w := fst registered) as (_ & Hh' & [Hget' Hgone']);
    try assumption.
  { intros ev w0 Hev Hq0 _ Hp. apply negb_true_iff in Hev.
    now apply orphaned_occur. }
  fold w' in Hh', Hget', Hgone'.
  split.
  { rewrite requestConsent_phases. fold w queued.
    rewrite (surjective_pairing queued), Hres. reflexivity. }
  split; [exact Hres|]. split; [exact Hin|].
  split; [now rewrite Hres3, Hpc2|].
  split; [exact Hget'|]. split; [exact Hgone'|].
  unfold timesSettled. apply unsettled_count.
  exact (waiting_unsettled _ Hh' _ (map_get_In _ _ _ Hget')).
Qed.

Lemma X7_witness :
  let request := sampleRequest SIGN_MSG in
  let req := withId request 0 in
  let queued := requestConsentQueue signingEnv request (boot blank) in
  let cleared := clearRequests None (fst queued) in
  let registered := requestConsentRegister req None true cleared in
  let later := [Call (OpProcessRequest signingEnv req true);
                Call (OpClearRequests None);
                Call (OpRequestConsent signingEnv request None true);
                Decision req (Raised (VString "boom")) []] in
  let w' := history later (fst registered) in
  admissionGate signingEnv request = Ok tt /\
  consentRequests (fst queued) = [req] /\
  consentRequests cleared = [] /\
  waits (fst registered) = [(0%Z, 0%nat)] /\
  map_get 0%Z (waits w') = Some 0%nat /\
  (forall r, In r (consentRequests w') -> id r <> 0%Z) /\
  timesSettled 0 w' = 0%nat.
Proof.
  intros request req queued cleared registered later w'.
  assert (Hgate : admissionGate signingEnv request = Ok tt) by reflexivity.
  split; [exact Hgate|]. split; [reflexivity|]. split; [reflexivity|].
  split; [reflexivity|].
  destruct (X7_cleared_during_admission [] signingEnv request None None later
              Hgate (or_introl eq_refl) eq_refl)
    as (_ & _ & _ & _ & Hget & Hgone & Hnever).
  split; [exact Hget|]. split; [exact Hgone | exact Hnever].
Defined.

(* --------------------------------------------------------------------- *)
(** ** Clearing everything *)

(** X8. [clearRequests()] without a type, in any state of the service:
    the queue, the persisted queue and the badge are empty afterwards;
    the promises rejected with the user-rejected error are exactly the
    waiting promises whose request is queued, in the order of
    registration, and a promise registered for a request that is not in
    the queue stays in [waits], not settled. When every waiting promise
    has its request in the queue, the registry is empty afterwards and
    every waiting promise was rejected. *)
Theorem X8_clear_all_rejects_queued_promises :
  forall w,
    let w' := clearRequests None w in
    let queued := fun e : Z * Handle =>
                    set_has (map id (consentRequests w)) (fst e) in
    consentRequests w' = [] /\
    sessionStore w' = Some [] /\
    badge w' = None /\
    waits w' = filter (fun e => negb (queued e)) (waits w) /\
    settlements w'
    = settlements w ++
      map (fun e => (snd e, Rejected userRejectedRequest))
        (filter queued (waits w)) /\
    ((forall e, In e (waits w) -> In (fst e) (map id (consentRequests w))) ->
     waits w' = [] /\
     settlements w'
     = settlements w ++
       map (fun e => (snd e, Rejected userRejectedRequest)) (waits w)).
Proof.
  intros w w' queued.
  assert (Hqueue : consentRequests w' = []).
  { subst w'. unfold clearRequests. wsimpl. apply filter_nothing.
    intros r Hr. apply negb_false_iff, set_has_In. now apply in_map. }
  split; [exact Hqueue|].
  split; [subst w'; unfold clearRequests in *; wsimpl; now rewrite Hqueue|].
  split; [subst w'; unfold clearRequests in *; wsimpl; now rewrite Hqueue|].
  assert (Hwaits : waits w' = filter (fun e => negb (queued e)) (waits w))
    by (subst w'; unfold clearRequests; wsimpl; reflexivity).
  assert (Hsettled : settlements w'
                     = settlements w ++
                       map (fun e => (snd e, Rejected userRejectedRequest))
                         (filter queued (waits w)))
    by (subst w'; unfold clearRequests; wsimpl; reflexivity).
  split; [exact Hwaits|]. split; [exact Hsettled|].
  intros Hall.
  assert (Hhit : forall e, In e (waits w) -> queued e = true)
    by (intros e He; apply set_has_In; now apply Hall).
  rewrite Hwaits, Hsettled. split.
  - apply filter_nothing. intros e He. now rewrite (Hhit e He).
  - now rewrite (filter_all queued (waits w) Hhit).
Qed.

Lemma X8_witness :
  let w := run [OpRequestConsent signingEnv (sampleRequest SIGN_MSG) None true;
                OpRequestConsent signingEnv (sampleRequest TRANSACTION) None true]
             (boot blank) in
  (forall e, In e (waits w) -> In (fst e) (map id (consentRequests w))) /\
  waits (clearRequests None w) = [] /\
  settlements (clearRequests None w)
  = [(0%nat, Rejected userRejectedRequest); (1%nat, Rejected userRejectedRequest)].
Proof.
  intros w.
  assert (Hall : forall e, In e (waits w) -> In (fst e) (map id (consentRequests w))).
  { assert (Hwaits : waits w = [(0%Z, 0%nat); (1%Z, 1%nat)])
      by (vm_compute; reflexivity).
    assert (Hids : map id (consentRequests w) = [0%Z; 1%Z])
      by (vm_compute; reflexivity).
    rewrite Hwaits, Hids. intros e [<-|[<-|[]]]; simpl; auto. }
  split; [exact Hall|].
  destruct (X8_clear_all_rejects_queued_promises w)
    as (_ & _ & _ & _ & _ & Hlast).
  destruct (Hlast Hall) as [Hw Hse].
  split; [exact Hw|]. rewrite Hse. vm_compute. reflexivity.
Defined.

(* --------------------------------------------------------------------- *)
(** ** No promise is dropped, but for a thrown value that is no object *)

Lemma accounted_decide req tried tbl w :
  endsUnsearchable tried = false -> QueueOk w ->
  accounted w -> accounted (fst (decide req tried tbl w)).
Proof.
  intros Hsearch Hq Hold. unfold accounted.
  destruct (noted_frame req tried (set_tokens tbl w))
    as (_ & Hw & _ & _ & Hpc & Hse & _).
  destruct (decide_cases req tried tbl w)
    as [(_ & _ & ->)
       |[(_ & _ & _ & ->)
        |[(index & _ & _ & Hun & _)
         |(index & _ & _ & _ & _ & _ & _ & _ & Hw' & Hse' & _ & Hpc' & _)]]].
  - exact Hold.
  - rewrite Hw, Hpc, Hse. exact Hold.
  - congruence.
  - rewrite Hw', Hse', Hpc'. intros h Hh.
    destruct (Hold h Hh) as [Hin|Hin];
      [|right; rewrite map_app; apply in_or_app; now left].
    apply in_map_iff in Hin. destruct Hin as (e & He & Hin).
    destruct (Z.eq_dec (fst e) (id req)) as [Hkey|Hkey].
    + right. rewrite map_app. apply in_or_app. right.
      unfold settledBy. rewrite <- Hkey.
      rewrite (map_get_of_In _ _ (keys_distinct _ Hq) Hin). simpl.
      now left.
    + left. apply in_map_iff. exists e. split; [assumption|].
      apply map_delete_In. tauto.
Qed.

Lemma accounted_occur ev w :
  keepsPromises ev = true -> QueueOk w ->
  accounted w -> accounted (occur ev w).
Proof.
  unfold keepsPromises. intros Hev Hq Hold.
  apply andb_true_iff in Hev. destruct Hev as [Hr Hun].
  apply negb_true_iff in Hr. apply negb_true_iff in Hun.
  destruct ev as [o|req tried tbl]; simpl in *.
  - exact (kept_step o w Hr Hq Hold).
  - now apply accounted_decide.
Qed.

(** X9. While the service runs without a restart, a promise leaves
    [waits] without being settled in one way only: by a decision whose
    [try] block ends with a thrown value that is no object and is
    truthy, on which ['message' in rejectData] throws. In a history
    without such a decision every promise created so far is either still
    in [waits] and not settled, or out of [waits] and settled exactly
    once; this includes decisions that end with a thrown error object,
    with a falsy thrown value, or in a [catch] that throws. *)
Theorem X9_promise_dropped_only_by_thrown_primitive :
  forall evs h,
    forallb keepsPromises evs = true ->
    let w := history evs (boot blank) in
    (h < promiseCount w)%nat ->
    (In h (map snd (waits w)) /\ timesSettled h w = 0%nat) \/
    (~ In h (map snd (waits w)) /\ timesSettled h w = 1%nat).
Proof.
  intros evs h Hall w Hh.
  destruct (history_invariant accounted keepsPromises) with
    (evs := evs) (w := boot blank) as (_ & Hok & Hkept); try assumption.
  - intros ev w0 Hev Hq0 _ Hp. now apply accounted_occur.
  - apply QueueOk_boot_blank.
  - apply HandlesOk_boot, HandlesOk_blank.
  - intros h0 Hh0. simpl in Hh0. lia.
  - fold w in Hok, Hkept.
    assert (Hwaiting : forall h, In h (map snd (waits w)) ->
                                 ~ In h (map fst (settlements w))).
    { intros h0 Hin. apply in_map_iff in Hin. destruct Hin as (e & <- & Hin).
      exact (waiting_unsettled _ Hok e Hin). }
    destruct (Hkept h Hh) as [Hin|Hin].
    + left. split; [assumption|]. unfold timesSettled. apply unsettled_count.
      now apply Hwaiting.
    + right. split; [intros Hw; exact (Hwaiting h Hw Hin)|].
      apply in_map_iff in Hin. destruct Hin as ([h' s] & Hfst & Hin).
      simpl in Hfst. subst h'. unfold timesSettled. apply Nat.le_antisymm.
      * apply settled_at_most_once, (settled_once _ Hok).
      * eapply settled_count. exact Hin.
Qed.

Lemma X9_witness :
  let evs := [Call (OpRequestConsent signingEnv (sampleRequest SIGN_MSG) None true);
              Call (OpRequestConsent signingEnv (sampleRequest TRANSACTION) None true);
              Decision (withId (sampleRequest SIGN_MSG) 0) (Raised VUndefined) [];
              Decision (withId (sampleRequest TRANSACTION) 1) (Raised VNull) []] in
  let w := history evs (boot blank) in
  forallb keepsPromises evs = true /\
  (1 < promiseCount w)%nat /\
  timesSettled 0 w = 1%nat /\
  ((In 1%nat (map snd (waits w)) /\ timesSettled 1 w = 0%nat) \/
   (~ In 1%nat (map snd (waits w)) /\ timesSettled 1 w = 1%nat)).
Proof.
  intros evs w.
  assert (Hall : forallb keepsPromises evs = true) by reflexivity.
  assert (Hlt : (1 < promiseCount w)%nat) by (vm_compute; lia).
  split; [exact Hall|]. split; [exact Hlt|].
  split; [vm_compute; reflexivity|].
  exact (X9_promise_dropped_only_by_thrown_primitive evs 1%nat Hall Hlt).
Defined.

(* --------------------------------------------------------------------- *)
(** ** A decision on a request that is not queued *)

Lemma catchThrows_triedOf req r : catchThrows req (triedOf r) = false.
Proof. destruct r as [response|e]; simpl; [reflexivity | apply andb_false_r]. Qed.

Lemma endsUnsearchable_triedOf r : endsUnsearchable (triedOf r) = false.
Proof. now destruct r. Qed.

Lemma not_queued_findIndex req q :
  (forall r, In r q -> id r <> id req) ->
  findIndex (fun r => (id req =? id r)%Z) q = None.
Proof.
  intros Habsent. apply findIndex_none. intros y Hy. apply Z.eqb_neq.
  intros Heq. now apply (Habsent y Hy).
Qed.

(** X11. [processRequest] looks for the request only after its [try]
    block and its [catch]. For an id that is not in the queue the call
    fails, and queue, registry and settlements stay as they are, but the
    attempt has run: the token table is the one the attempt left, and
    the failure notification of a failed TRANSACTION is shown. The error
    of the call is the not-found error, unless the request is a
    TRANSACTION whose attempt threw [null] or [undefined]: then the
    [catch] throws a [TypeError] on [err.toString()] before the request
    is looked for, and no notification is shown. Collaborators that
    throw error objects always lead to the not-found error. *)
Theorem X11_stale_decision_still_dispatches :
  (forall req tried tbl w,
     (forall r, In r (consentRequests w) -> id r <> id req) ->
     let out := decide req tried tbl w in
     (catchThrows req tried = false ->
      out = (noted req tried (set_tokens tbl w),
             Throw (notFoundError (id req)))) /\
     (catchThrows req tried = true ->
      out = (set_tokens tbl w, Throw typeError)) /\
     consentRequests (fst out) = consentRequests w /\
     waits (fst out) = waits w /\
     settlements (fst out) = settlements w /\
     tokens (fst out) = tbl /\
     notifications (fst out)
     = notifications w ++
       (if catchThrows req tried then [] else failureNote req tried)) /\
  (forall env req approve w,
     (forall r, In r (consentRequests w) -> id r <> id req) ->
     snd (processRequest env req approve w) = Throw (notFoundError (id req)) /\
     tokens (fst (processRequest env req approve w))
     = tokens (fst (attempt env req approve w))).
Proof.
  assert (Hfirst : forall req tried tbl w,
     (forall r, In r (consentRequests w) -> id r <> id req) ->
     let out := decide req tried tbl w in
     (catchThrows req tried = false ->
      out = (noted req tried (set_tokens tbl w),
             Throw (notFoundError (id req)))) /\
     (catchThrows req tried = true ->
      out = (set_tokens tbl w, Throw typeError)) /\
     consentRequests (fst out) = consentRequests w /\
     waits (fst out) = waits w /\
     settlements (fst out) = settlements w /\
     tokens (fst out) = tbl /\
     notifications (fst out)
     = notifications w ++
       (if catchThrows req tried then [] else failureNote req tried)).
  { intros req tried tbl w Habsent out. subst out.
    pose proof (not_queued_findIndex req _ Habsent) as Hnone.
    pose proof (decide_notifications req tried tbl w) as Hnote.
    destruct (noted_frame req tried (set_tokens tbl w))
      as (Hq & Hw & _ & _ & _ & Hse & _ & Htk & _).
    rewrite (surjective_pairing (decide req tried tbl w)).
    destruct (decide_cases req tried tbl w)
      as [(Hres & Hcatch & Hfst)
         |[(Hres & Hcatch & _ & Hfst)
          |[(index & _ & _ & _ & Hfind & _)
           |(index & _ & _ & _ & Hfind & _)]]];
      try congruence.
    - rewrite Hres, Hfst, Hcatch in *.
      split; [discriminate|]. split; [reflexivity|].
      cbn [fst]. repeat split; try reflexivity. exact Hnote.
    - rewrite Hres, Hfst, Hcatch in *.
      split; [reflexivity|]. split; [discriminate|].
      cbn [fst]. repeat split; try assumption. }
  split; [exact Hfirst|].
  intros env req approve w Habsent.
  rewrite processRequest_decide.
  destruct (Hfirst req (triedOf (snd (attempt env req approve w)))
              (tokens (fst (attempt env req approve w))) w Habsent)
    as (Hout & _ & _ & _ & _ & Htk & _).
  rewrite (Hout (catchThrows_triedOf _ _)) in *. split; [reflexivity|].
  exact Htk.
Qed.

Lemma X11_witness :
  let err := newError "nonce too low" in
  let req := withId (sampleRequest TRANSACTION) 5 in
  let out := processRequest (failingSendEnv err) req true (boot blank) in
  let thrown := decide req (Raised VNull) [] (boot blank) in
  (forall r, In r (consentRequests (boot blank)) -> id r <> id req) /\
  snd out = Throw (notFoundError 5) /\
  notifications (fst out)
  = [("Failed transaction",
      "Transaction encountered an error. (Error: nonce too low)")] /\
  thrown = (set_tokens [] (boot blank), Throw typeError).
Proof.
  intros err req out thrown.
  assert (Habsent : forall r, In r (consentRequests (boot blank)) -> id r <> id req)
    by (intros r []).
  split; [exact Habsent|].
  split; [exact (proj1 (proj2 X11_stale_decision_still_dispatches
                          (failingSendEnv err) req true (boot blank) Habsent))|].
  split; [vm_compute; reflexivity|].
  exact (proj1 (proj2 (proj1 X11_stale_decision_still_dispatches
                         req (Raised VNull) [] (boot blank) Habsent))
           eq_refl).
Defined.

(* --------------------------------------------------------------------- *)
(** ** From admission to decision *)

(** X19. In every history of the service, a request that is admitted
    with a waiting caller and then decided at once. When the [try] block
    ends with a result, a thrown error object or a thrown falsy value
    (and the [catch] does not throw), queue, store and registry are as
    before the admission, the promise that the admission registered is
    settled with the outcome, and the id counter has moved on by one.
    When it ends with a thrown truthy value that is no object, the call
    fails, the request stays queued, and the promise is gone from the
    registry without being settled. When the [catch] itself throws (a
    TRANSACTION whose attempt threw [null] or [undefined]), the request
    stays queued and the promise stays registered, not settled. *)
Theorem X19_admit_then_decide :
  forall evs env request ctx tried tbl,
    let w := history evs (boot blank) in
    let req := withId request (nextId w) in
    let out := requestConsent env request ctx true w in
    let decided := decide req tried tbl (fst out) in
    admissionGate env request = Ok tt ->
    snd out = Ok (Awaiting req (promiseCount w)) /\
    (catchThrows req tried = false -> endsUnsearchable tried = false ->
     snd decided = Ok tt /\
     consentRequests (fst decided) = consentRequests w /\
     sessionStore (fst decided) = sessionStore w /\
     waits (fst decided) = waits w /\
     settlements (fst decided)
     = settlements w ++ [(promiseCount w, settlementOf tried)] /\
     nextId (fst decided) = (nextId w + 1)%Z) /\
    (catchThrows req tried = false -> endsUnsearchable tried = true ->
     snd decided = Throw inOperatorError /\
     In req (consentRequests (fst decided)) /\
     waits (fst decided) = waits w /\
     settlements (fst decided) = settlements w) /\
    (catchThrows req tried = true ->
     snd decided = Throw typeError /\
     In req (consentRequests (fst decided)) /\
     map_get (id req) (waits (fst decided)) = Some (promiseCount w) /\
     settlements (fst decided) = settlements w).
Proof.
  intros evs env request ctx tried tbl w req out decided Hgate.
  assert (Hq : QueueOk w) by apply history_ok.
  destruct (requestConsent_fields env request ctx true w Hgate)
    as (Hqueue & Hn & _ & Hw & _ & Hse & _).
  fold out in Hqueue, Hn, Hw, Hse. fold req in Hqueue.
  assert (Hres : snd out = Ok (Awaiting req (promiseCount w))).
  { subst out. unfold requestConsent. rewrite Hgate. wsimpl. reflexivity. }
  split; [exact Hres|].
  destruct (enqueue_shape req (consentRequests w)) as (L & R & Hsplit & Henq & _).
  assert (Hfresh : forall y, In y (consentRequests w) -> (id req =? id y)%Z = false).
  { intros y Hy. apply Z.eqb_neq. pose proof (ids_below _ Hq y Hy).
    simpl. lia. }
  assert (Hfind : findIndex (fun r => (id req =? id r)%Z)
                    (consentRequests (fst out)) = Some (List.length L)).
  { rewrite Hqueue, Henq. apply findIndex_app_first.
    - intros y Hy. apply Hfresh. rewrite Hsplit. apply in_or_app. now left.
    - apply Z.eqb_refl. }
  assert (Hkey : ~ In (nextId w) (map fst (waits w))).
  { intros Hin. apply in_map_iff in Hin. destruct Hin as (e & He & Hin).
    pose proof (keys_below _ Hq e Hin). lia. }
  assert (Hin : In req (consentRequests (fst out)))
    by (rewrite Hqueue; apply enqueue_In; now left).
  assert (Hget : map_get (id req) (waits (fst out)) = Some (promiseCount w)).
  { rewrite Hw. change (id req) with (nextId w). apply map_get_set_eq. }
  destruct (noted_frame req tried (set_tokens tbl (fst out)))
    as (Hnq & Hnw & _ & _ & _ & Hnse & _).
  cbn [set_tokens consentRequests waits settlements] in Hnq, Hnw, Hnse.
  destruct (decide_cases req tried tbl (fst out))
    as [(Hd & Hcatch & Hfst)
       |[(_ & _ & Hnone & _)
        |[(index & Hd & Hcatch & Hun & _ & Hfst)
         |(index & Hd & Hcatch & Hun & Hfind' & Hq' & Hst' & _ & Hw' & Hse'
           & Hn' & _)]]];
    try fold decided in Hd; try fold decided in Hfst; try congruence.
  - split; [congruence|]. split; [congruence|]. intros _.
    rewrite Hfst. cbn [set_tokens consentRequests waits settlements].
    now repeat split.
  - split; [congruence|]. split; [|congruence]. intros _ _.
    rewrite Hfst. cbn [set_waits consentRequests waits settlements].
    rewrite Hnq, Hnse. split; [exact Hd|]. split; [exact Hin|].
    split; [|exact Hse].
    rewrite Hw. change (id req) with (nextId w).
    now apply map_delete_set_fresh.
  - fold decided in Hq', Hst', Hw', Hse', Hn'.
    split; [|split; congruence]. intros _ _.
    assert (Hback : consentRequests (fst decided) = consentRequests w).
    { rewrite Hq'. rewrite Hfind in Hfind'. injection Hfind' as <-.
      rewrite Hqueue, Henq, splice_remove_middle. now symmetry. }
    split; [exact Hd|]. split; [exact Hback|].
    split; [now rewrite Hst', Hback, (stored _ Hq)|].
    split; [rewrite Hw', Hw; change (id req) with (nextId w);
            now apply map_delete_set_fresh|].
    split; [|now rewrite Hn', Hn].
    rewrite Hse', Hse. unfold settledBy. now rewrite Hget.
Qed.

Lemma X19_witness :
  let evs := [Call (OpRequestConsent signingEnv (sampleRequest SIGN_MSG) None true);
              Call (OpRequestConsent signingEnv (sampleRequest TRANSACTION) None false)] in
  let w := history evs (boot blank) in
  let req := withId (sampleRequest SIGN_MSG) 2 in
  let out := requestConsent signingEnv (sampleRequest SIGN_MSG) None true w in
  let settled := decide req (Done (RespData "sig:")) [] (fst out) in
  let dropped := decide req (Raised (VString "boom")) [] (fst out) in
  admissionGate signingEnv (sampleRequest SIGN_MSG) = Ok tt /\
  (consentRequests (fst settled) = consentRequests w /\
   waits (fst settled) = waits w /\
   settlements (fst settled)
   = settlements w ++ [(1%nat, Resolved (RespData "sig:"))]) /\
  (snd dropped = Throw inOperatorError /\
   In req (consentRequests (fst dropped)) /\
   waits (fst dropped) = waits w /\
   settlements (fst dropped) = settlements w).
Proof.
  intros evs w req out settled dropped.
  assert (Hgate : admissionGate signingEnv (sampleRequest SIGN_MSG) = Ok tt)
    by reflexivity.
  split; [exact Hgate|]. split.
  - destruct (X19_admit_then_decide evs signingEnv (sampleRequest SIGN_MSG) None
                (Done (RespData "sig:")) [] Hgate)
      as (_ & Hok & _).
    destruct (Hok eq_refl eq_refl) as (_ & Hq & _ & Hw & Hse & _).
    split; [exact Hq|]. split; [exact Hw | exact Hse].
  - destruct (X19_admit_then_decide evs signingEnv (sampleRequest SIGN_MSG) None
                (Raised (VString "boom")) [] Hgate)
      as (_ & _ & Hdrop & _).
    exact (Hdrop eq_refl eq_refl).
Defined.

(* --------------------------------------------------------------------- *)
(** ** Two decisions *)

Lemma set_has_filter_ids k1 k2 q :
  set_has (map id (filter (fun r => negb (k1 =? id r)%Z) q)) k2
  = negb (k1 =? k2)%Z && set_has (map id q) k2.
Proof.
  unfold set_has. induction q as [|a q IH]; simpl.
  - now rewrite andb_false_r.
  - destruct (k1 =? id a)%Z eqn:Ha; simpl; rewrite IH.
    + apply Z.eqb_eq in Ha. subst k1.
      destruct (id a =? k2)%Z; reflexivity.
    + destruct (id a =? k2)%Z eqn:Hk; simpl; [|reflexivity].
      apply Z.eqb_eq in Hk. subst k2. now rewrite Ha.
Qed.

Lemma decide_by_id req tried tbl w :
  NoDup (map id (consentRequests w)) ->
  reachesSettlement req tried = true ->
  consentRequests (fst (decide req tried tbl w))
  = filter (fun r => negb (id req =? id r)%Z) (consentRequests w) /\
  waits (fst (decide req tried tbl w))
  = (if set_has (map id (consentRequests w)) (id req)
     then map_delete (id req) (waits w) else waits w).
Proof.
  intros Hnd Hreach. unfold reachesSettlement in Hreach.
  apply andb_true_iff in Hreach. destruct Hreach as [Hcatch Hun].
  apply negb_true_iff in Hcatch. apply negb_true_iff in Hun.
  destruct (noted_frame req tried (set_tokens tbl w)) as (Hq & Hw & _).
  destruct (decide_cases req tried tbl w)
    as [(_ & Hc & _)
       |[(_ & _ & Hnone & ->)
        |[(index & _ & _ & Hu & _)
         |(index & _ & _ & _ & Hfind & Hq' & _ & _ & Hw' & _)]]];
    try congruence.
  - rewrite Hq, Hw. cbn [set_tokens consentRequests waits].
    pose proof (proj1 (findIndex_none _ _) Hnone) as Hall. split.
    + symmetry. apply filter_all. intros y Hy. now rewrite (Hall y Hy).
    + destruct (set_has (map id (consentRequests w)) (id req)) eqn:Hhas;
        [|reflexivity].
      exfalso. apply set_has_In, in_map_iff in Hhas.
      destruct Hhas as (r & Hid & Hin). specialize (Hall r Hin). simpl in Hall.
      apply Z.eqb_neq in Hall. congruence.
  - rewrite Hq', Hw'. split.
    + exact (splice_remove_filter req _ index Hnd Hfind).
    + destruct (findIndex_found_id _ _ _ Hfind) as (x & Hx & Hid).
      assert (Hhas : set_has (map id (consentRequests w)) (id req) = true)
        by (apply set_has_In; rewrite <- Hid; now apply in_map).
      now rewrite Hhas.
Qed.

(** X20. A decision that reaches the settlement (its [catch] does not
    throw and the thrown value, if any, is an object or falsy) takes out
    of the queue exactly the request with the id, and out of the
    registry the promise under the id if the id is queued; it touches
    the registry not at all when the id is not queued. Two such
    decisions commute: in either order they leave the same queue and the
    same registry. Ids in the queue are taken to be distinct, as they
    are in a running service. *)
Theorem X20_decisions_commute :
  forall w req1 tried1 tbl1 req2 tried2 tbl2,
    NoDup (map id (consentRequests w)) ->
    reachesSettlement req1 tried1 = true ->
    reachesSettlement req2 tried2 = true ->
    let d1 := occur (Decision req1 tried1 tbl1) in
    let d2 := occur (Decision req2 tried2 tbl2) in
    consentRequests (d1 w)
    = filter (fun r => negb (id req1 =? id r)%Z) (consentRequests w) /\
    waits (d1 w)
    = (if set_has (map id (consentRequests w)) (id req1)
       then map_delete (id req1) (waits w) else waits w) /\
    consentRequests (d2 (d1 w)) = consentRequests (d1 (d2 w)) /\
    waits (d2 (d1 w)) = waits (d1 (d2 w)).
Proof.
  intros w req1 tried1 tbl1 req2 tried2 tbl2 Hnd H1 H2 d1 d2.
  subst d1 d2. cbn [occur].
  fold (decide req1 tried1 tbl1 w). fold (decide req2 tried2 tbl2 w).
  destruct (decide_by_id req1 tried1 tbl1 w Hnd H1) as [Hq1 Hw1].
  destruct (decide_by_id req2 tried2 tbl2 w Hnd H2) as [Hq2 Hw2].
  assert (Hnd1 : NoDup (map id (consentRequests (fst (decide req1 tried1 tbl1 w)))))
    by (rewrite Hq1; now apply NoDup_map_filter).
  assert (Hnd2 : NoDup (map id (consentRequests (fst (decide req2 tried2 tbl2 w)))))
    by (rewrite Hq2; now apply NoDup_map_filter).
  fold (decide req2 tried2 tbl2 (fst (decide req1 tried1 tbl1 w))).
  fold (decide req1 tried1 tbl1 (fst (decide req2 tried2 tbl2 w))).
  destruct (decide_by_id req2 tried2 tbl2 _ Hnd1 H2) as [Hq21 Hw21].
  destruct (decide_by_id req1 tried1 tbl1 _ Hnd2 H1) as [Hq12 Hw12].
  split; [exact Hq1|]. split; [exact Hw1|]. split.
  - rewrite Hq21, Hq12, Hq1, Hq2. apply filter_comm.
  - rewrite Hw21, Hw12, Hq1, Hq2, Hw1, Hw2, !set_has_filter_ids.
    rewrite (Z.eqb_sym (id req2) (id req1)).
    destruct (id req1 =? id req2)%Z eqn:Hsame; simpl.
    + apply Z.eqb_eq in Hsame. rewrite Hsame. reflexivity.
    + destruct (set_has (map id (consentRequests w)) (id req1)),
               (set_has (map id (consentRequests w)) (id req2));
        try reflexivity.
      unfold map_delete. apply filter_comm.
Qed.

Lemma X20_witness :
  let w := run [OpRequestConsent signingEnv (sampleRequest SIGN_MSG) None true;
                OpRequestConsent signingEnv (sampleRequest TRANSACTION) None true]
             (boot blank) in
  let req1 := withId (sampleRequest SIGN_MSG) 0 in
  let req2 := withId (sampleRequest TRANSACTION) 1 in
  let d1 := occur (Decision req1 (Raised (VObject userRejectedRequest)) []) in
  let d2 := occur (Decision req2 (Done (RespData "0xhash")) []) in
  NoDup (map id (consentRequests w)) /\
  consentRequests (d1 w) = [req2] /\
  consentRequests (d2 (d1 w)) = consentRequests (d1 (d2 w)) /\
  waits (d2 (d1 w)) = waits (d1 (d2 w)).
Proof.
  intros w req1 req2 d1 d2.
  assert (Hids : map id (consentRequests w) = [0%Z; 1%Z])
    by (vm_compute; reflexivity).
  assert (Hnd : NoDup (map id (consentRequests w))).
  { rewrite Hids. constructor; [simpl; intros [H|[]]; discriminate|].
    constructor; [intros []|constructor]. }
  split; [exact Hnd|].
  destruct (X20_decisions_commute w req1 (Raised (VObject userRejectedRequest)) []
              req2 (Done (RespData "0xhash")) [] Hnd eq_refl eq_refl)
    as (Hq & _ & Hqq & Hww).
  split; [|split; [exact Hqq | exact Hww]].
  fold d1 in Hq. rewrite Hq. vm_compute. reflexivity.
Defined.

(* ===================================================================== *)
(** * The invariants on a sample run *)
(* ===================================================================== *)

Lemma X1_witness :
  let ops := [OpRequestConsent signingEnv (sampleRequest TRANSACTION) None true;
              OpRequestConsent signingEnv (sampleRequest SIGN_MSG) None true;
              OpRequestConsent signingEnv (sampleRequest TRANSACTION) None true;
              OpRequestConsent signingEnv (sampleRequest TRANSACTION) None true] in
  let a := withId (sampleRequest TRANSACTION) 0 in
  let b := withId (sampleRequest TRANSACTION) 2 in
  let c := withId (sampleRequest TRANSACTION) 3 in
  consentRequests (run ops (boot blank))
  = [a; b; c; withId (sampleRequest SIGN_MSG) 1] /\
  subseq [a; b; c] (consentRequests (run ops (boot blank))) /\
  type b = type a.
Proof.
  intros ops a b c.
  assert (Hq : consentRequests (run ops (boot blank))
               = [a; b; c; withId (sampleRequest SIGN_MSG) 1])
    by (vm_compute; reflexivity).
  assert (Hsub : subseq [a; b; c] (consentRequests (run ops (boot blank)))).
  { rewrite Hq. repeat apply subseq_take. apply subseq_skip, subseq_nil. }
  split; [exact Hq|]. split; [exact Hsub|].
  exact (X1_queue_grouped_by_type ops a b c Hsub eq_refl).
Defined.

Lemma X2_witness :
  let ops := [OpRequestConsent signingEnv (sampleRequest TRANSACTION) None true;
              OpRequestConsent signingEnv (sampleRequest SIGN_MSG) None true;
              OpRestart;
              OpRequestConsent signingEnv (sampleRequest TRANSACTION) None true] in
  let a := withId (sampleRequest TRANSACTION) 0 in
  let b := withId (sampleRequest TRANSACTION) 2 in
  subseq [a; b] (consentRequests (run ops (boot blank))) /\
  (id a < id b)%Z.
Proof.
  intros ops a b.
  assert (Hq : consentRequests (run ops (boot blank))
               = [a; b; withId (sampleRequest SIGN_MSG) 1])
    by (vm_compute; reflexivity).
  assert (Hsub : subseq [a; b] (consentRequests (run ops (boot blank)))).
  { rewrite Hq. repeat apply subseq_take. apply subseq_skip, subseq_nil. }
  split; [exact Hsub|].
  exact (X2_queue_ordered_within_type ops a b Hsub eq_refl).
Defined.

Lemma X6_witness :
  let ops := [OpRequestConsent signingEnv (sampleRequest TRANSACTION) None true;
              OpRequestConsent signingEnv (sampleRequest SIGN_MSG) None true;
              OpRestart;
              OpRequestConsent signingEnv (sampleRequest TRANSACTION) None true] in
  let r := withId (sampleRequest TRANSACTION) 2 in
  In r (consentRequests (run ops (boot blank))) /\
  (0 <= id r < nextId (run ops (boot blank)))%Z.
Proof.
  intros ops r.
  assert (Hin : In r (consentRequests (run ops (boot blank))))
    by (vm_compute; right; left; reflexivity).
  split; [exact Hin|].
  exact (proj2 (X6_queued_ids_distinct_and_bounded ops) r Hin).
Defined.
